(** * Pathology report parsing (src/utils.py): a shallow embedding

    The module under study turns one free-text pathology report into a
    table with one row per specimen.  Everything it does is regular
    expression matching ([re.search], [re.findall], [re.match]) followed
    by string clean-up and column assignments on a pandas DataFrame.

    The embedding follows the source function by function:
    - Python strings are lists of 8-bit characters (code points below 256);
    - the regular expressions are written as terms of a small syntax and
      run by a backtracking matcher with the priorities of Python's [re];
    - a DataFrame is a list of rows together with the list of its column
      labels, and looking up a missing label raises [KeyError];
    - dictionaries are association lists in insertion order;
    - exceptions are values of a [result] type. *)

From Stdlib Require Import Ascii String DecimalString.
From Stdlib Require DecimalNat DecimalFacts.
From Stdlib Require Import NArith ZArith Bool Arith Lia List.
Import ListNotations.
Open Scope list_scope.

(** ** Python strings *)

Definition pystr := list ascii.

Definition py (s : string) : pystr := list_ascii_of_string s.

Definition nl : ascii := "010"%char.

Definition code (c : ascii) : nat := nat_of_ascii c.

Definition in_range (lo hi c : ascii) : bool :=
  (code lo <=? code c) && (code c <=? code hi).

Definition is_upper (c : ascii) : bool := in_range "A" "Z" c.
Definition is_lower (c : ascii) : bool := in_range "a" "z" c.
Definition is_digit (c : ascii) : bool := in_range "0" "9" c.

(** [str.isspace] on code points below 256; the class [\s] of [re] on
    [str] patterns is the same set. *)
Definition is_space (c : ascii) : bool :=
  let n := code c in
  ((9 <=? n) && (n <=? 13)) || ((28 <=? n) && (n <=? 32))
  || (n =? 133) || (n =? 160).

Definition lower (c : ascii) : ascii :=
  if is_upper c then ascii_of_nat (code c + 32) else c.

Definition upper (c : ascii) : ascii :=
  if is_lower c then ascii_of_nat (code c - 32) else c.

Definition pystr_eqb (a b : pystr) : bool :=
  if list_eq_dec ascii_dec a b then true else false.

Fixpoint prefixb (p s : pystr) : bool :=
  match p, s with
  | [], _ => true
  | a :: p', b :: s' => Ascii.eqb a b && prefixb p' s'
  | _ :: _, [] => false
  end.

Fixpoint lstrip (s : pystr) : pystr :=
  match s with
  | c :: s' => if is_space c then lstrip s' else s
  | [] => []
  end.

Definition rstrip (s : pystr) : pystr := rev (lstrip (rev s)).

(** [s.strip()] *)
Definition strip (s : pystr) : pystr := lstrip (rstrip s).

(** [s.split("\n")] *)
Fixpoint split_nl (s : pystr) : list pystr :=
  match s with
  | [] => [[]]
  | c :: s' =>
      if Ascii.eqb c nl then [] :: split_nl s'
      else match split_nl s' with
           | l :: ls => (c :: l) :: ls
           | [] => [[c]]
           end
  end.

Fixpoint find_from (sub s : pystr) (i : Z) : Z :=
  if prefixb sub s then i
  else match s with
       | [] => (-1)%Z
       | _ :: s' => find_from sub s' (i + 1)%Z
       end.

(** [s.find(sub)]: lowest index of [sub] in [s], or -1. *)
Definition find (s sub : pystr) : Z := find_from sub s 0%Z.

(** [s[a:b]], with Python's treatment of negative and oversized bounds. *)
Definition clip (len i : Z) : Z :=
  if (i <? 0)%Z then Z.max (i + len) 0 else Z.min i len.

Definition slice (s : pystr) (a b : Z) : pystr :=
  let len := Z.of_nat (length s) in
  let a' := clip len a in
  let b' := clip len b in
  firstn (Z.to_nat (b' - a')) (skipn (Z.to_nat a') s).

(** [s.replace(old, new)] for a non-empty [old]: occurrences are replaced
    left to right without overlap; [skip] counts the characters of the
    occurrence just replaced that are still to be passed over. *)
Fixpoint replace_from (old new : pystr) (skip : nat) (s : pystr) : pystr :=
  match s with
  | [] => []
  | c :: s' =>
      match skip with
      | S n => replace_from old new n s'
      | O =>
          if prefixb old s
          then new ++ replace_from old new (pred (length old)) s'
          else c :: replace_from old new 0 s'
      end
  end.

Definition replace (s old new : pystr) : pystr := replace_from old new 0 s.

(** [str(n)] for a non-negative integer. *)
Definition str_of_nat (n : nat) : pystr :=
  py (NilZero.string_of_uint (Nat.to_uint n)).

(** [enumerate(l, start)] *)
Fixpoint enumerate {A} (start : nat) (l : list A) : list (nat * A) :=
  match l with
  | [] => []
  | x :: l' => (start, x) :: enumerate (S start) l'
  end.

(** ** Exceptions *)

Inductive exn :=
| KeyError (key : string)
| IndexError (msg : string)
| ValueError (msg : string).

Inductive result (A : Type) :=
| Ok (a : A)
| Raise (e : exn).
Arguments Ok {A} a.
Arguments Raise {A} e.

Definition bind {A B} (r : result A) (f : A -> result B) : result B :=
  match r with
  | Ok a => f a
  | Raise e => Raise e
  end.

Notation "x <- c ;; k" := (bind c (fun x => k))
  (at level 61, c at next level, right associativity).

(** A [for] loop whose body may raise: the first exception ends the loop. *)
Fixpoint for_each {A S} (l : list A) (body : S -> A -> result S) (s : S)
  : result S :=
  match l with
  | [] => Ok s
  | x :: l' => s' <- body s x ;; for_each l' body s'
  end.

(** ** Regular expressions *)

Record flags := Flags { ignorecase : bool; dotall : bool; multiline : bool }.

(** No flag, [re.IGNORECASE], [re.IGNORECASE | re.DOTALL] and
    [re.IGNORECASE | re.DOTALL | re.MULTILINE]. *)
Definition NOFLAGS := Flags false false false.
Definition IGNORECASE := Flags true false false.
Definition IGNORECASE_DOTALL := Flags true true false.
Definition IGNORECASE_DOTALL_MULTILINE := Flags true true true.

(** Single-character classes. *)
Inductive cset :=
| CChar (c : ascii)
| CRange (lo hi : ascii)
| CDot
| CSpace
| CDigit
| CNot (a : cset)
| CUnion (a b : cset).

Fixpoint cset_mem (f : flags) (cs : cset) (c : ascii) : bool :=
  match cs with
  | CChar a =>
      if ignorecase f then Ascii.eqb (lower c) (lower a) else Ascii.eqb c a
  | CRange lo hi =>
      in_range lo hi c
      || (ignorecase f && (in_range lo hi (lower c) || in_range lo hi (upper c)))
  | CDot => dotall f || negb (Ascii.eqb c nl)
  | CSpace => is_space c
  | CDigit => is_digit c
  | CNot a => negb (cset_mem f a c)
  | CUnion a b => cset_mem f a c || cset_mem f b c
  end.

(** The patterns of the module only ever repeat a single-character class,
    so repetition is restricted to classes: [RStar] is the greedy [x*],
    [RStarLazy] the non-greedy [x*?]. *)
Inductive regex :=
| REps
| RSet (cs : cset)
| RSeq (a b : regex)
| RAlt (a b : regex)
| RStar (cs : cset)
| RStarLazy (cs : cset)
| RGroup (n : nat) (r : regex)
| RLook (r : regex)
| RBol
| REol
| REnd.

Declare Scope re_scope.
Delimit Scope re_scope with re.
Bind Scope re_scope with regex.
Infix "@@" := RSeq (at level 60, right associativity) : re_scope.

Definition RPlus (cs : cset) : regex := RSeq (RSet cs) (RStar cs).
Definition RPlusLazy (cs : cset) : regex := RSeq (RSet cs) (RStarLazy cs).
Definition ROpt (r : regex) : regex := RAlt r REps.

Fixpoint lit_chars (s : pystr) : regex :=
  match s with
  | [] => REps
  | c :: s' => RSeq (RSet (CChar c)) (lit_chars s')
  end.

Definition lit (s : string) : regex := lit_chars (py s).

(** The matcher state: the text already passed (most recent character
    first), the text still ahead, and the groups captured so far. *)
Record mstate := MState {
  before : pystr;
  rest : pystr;
  caps : list (nat * pystr)
}.

Definition kont := mstate -> option mstate.

Definition orelse (a : option mstate) (b : unit -> option mstate)
  : option mstate :=
  match a with
  | Some m => Some m
  | None => b tt
  end.

(** Greedy repetition: take as many characters as the class allows and
    give them back one at a time while the continuation fails. *)
Fixpoint greedy (p : ascii -> bool) (k : kont) (b r : pystr)
  (cp : list (nat * pystr)) : option mstate :=
  match r with
  | c :: r' =>
      if p c
      then orelse (greedy p k (c :: b) r' cp) (fun _ => k (MState b r cp))
      else k (MState b r cp)
  | [] => k (MState b r cp)
  end.

(** Non-greedy repetition: try the continuation first, take one more
    character only when it fails. *)
Fixpoint lazy (p : ascii -> bool) (k : kont) (b r : pystr)
  (cp : list (nat * pystr)) : option mstate :=
  orelse (k (MState b r cp))
    (fun _ =>
       match r with
       | c :: r' => if p c then lazy p k (c :: b) r' cp else None
       | [] => None
       end).

Definition set_cap (n : nat) (v : pystr) (cp : list (nat * pystr))
  : list (nat * pystr) :=
  (n, v) :: filter (fun e => negb (fst e =? n)) cp.

Fixpoint get_cap (n : nat) (cp : list (nat * pystr)) : pystr :=
  match cp with
  | [] => []
  | (i, v) :: cp' => if i =? n then v else get_cap n cp'
  end.

(** [m.group(n)] *)
Definition group (n : nat) (m : mstate) : pystr := get_cap n (caps m).

(** The text matched between two states of one run. *)
Definition consumed (s s' : mstate) : pystr :=
  firstn (length (rest s) - length (rest s')) (rest s).

Definition at_bol (f : flags) (s : mstate) : bool :=
  match before s with
  | [] => true
  | c :: _ => multiline f && Ascii.eqb c nl
  end.

(** [$]: at the end, just before a final newline, and with MULTILINE
    before every newline. *)
Definition at_eol (f : flags) (s : mstate) : bool :=
  match rest s with
  | [] => true
  | c :: r' =>
      Ascii.eqb c nl
      && (multiline f || match r' with [] => true | _ => false end)
  end.

Definition at_end (s : mstate) : bool :=
  match rest s with
  | [] => true
  | _ => false
  end.

Fixpoint rmatch (f : flags) (re : regex) (k : kont) (s : mstate)
  : option mstate :=
  match re with
  | REps => k s
  | RSet cs =>
      match rest s with
      | c :: r' =>
          if cset_mem f cs c then k (MState (c :: before s) r' (caps s))
          else None
      | [] => None
      end
  | RSeq a b => rmatch f a (rmatch f b k) s
  | RAlt a b => orelse (rmatch f a k s) (fun _ => rmatch f b k s)
  | RStar cs => greedy (cset_mem f cs) k (before s) (rest s) (caps s)
  | RStarLazy cs => lazy (cset_mem f cs) k (before s) (rest s) (caps s)
  | RGroup n r =>
      rmatch f r
        (fun s' =>
           k (MState (before s') (rest s') (set_cap n (consumed s s') (caps s'))))
        s
  | RLook r =>
      match rmatch f r Some s with
      | Some _ => k s
      | None => None
      end
  | RBol => if at_bol f s then k s else None
  | REol => if at_eol f s then k s else None
  | REnd => if at_end s then k s else None
  end.

(** One attempt at the current position. *)
Definition match_here (f : flags) (re : regex) (b r : pystr) : option mstate :=
  rmatch f re Some (MState b r []).

(** [re.match(re, s, f)] *)
Definition re_match (f : flags) (re : regex) (s : pystr) : option mstate :=
  match_here f re [] s.

Fixpoint search_from (f : flags) (re : regex) (b r : pystr) : option mstate :=
  orelse (match_here f re b r)
    (fun _ =>
       match r with
       | c :: r' => search_from f re (c :: b) r'
       | [] => None
       end).

(** [re.search(re, s, f)]: the match at the leftmost position that has one. *)
Definition re_search (f : flags) (re : regex) (s : pystr) : option mstate :=
  search_from f re [] s.

(** [re.findall]: successive matches, each search resuming where the
    previous match ended; [skip] counts the characters of the last match
    still to be passed over.  No pattern of the module matches the empty
    string. *)
Fixpoint findall_from (f : flags) (re : regex) (skip : nat) (b r : pystr)
  : list mstate :=
  match skip with
  | S n =>
      match r with
      | c :: r' => findall_from f re n (c :: b) r'
      | [] => []
      end
  | O =>
      match match_here f re b r with
      | Some m =>
          m :: match r with
               | c :: r' =>
                   findall_from f re (pred (length r - length (rest m)))
                     (c :: b) r'
               | [] => []
               end
      | None =>
          match r with
          | c :: r' => findall_from f re 0 (c :: b) r'
          | [] => []
          end
      end
  end.

Definition re_findall (f : flags) (re : regex) (s : pystr) : list mstate :=
  findall_from f re 0 [] s.

(** ** The patterns of the module *)

Definition AZ : cset := CRange "A" "Z".

(** [[\.\):]] *)
Definition punct : cset := CUnion (CChar ".") (CUnion (CChar ")") (CChar ":")).

(** [\n\n] *)
Definition blank_line : regex := lit_chars [nl; nl].

(** [Accession No:\s*(\S+)] *)
Definition re_accession : regex :=
  (lit "Accession No:" @@ RStar CSpace @@ RGroup 1 (RPlus (CNot CSpace)))%re.

(** [SPECIMEN SUBMITTED:\s*(.+?)(?:\n\n|\Z)] *)
Definition re_specimen_section : regex :=
  (lit "SPECIMEN SUBMITTED:" @@ RStar CSpace @@ RGroup 1 (RPlusLazy CDot)
   @@ RAlt blank_line REnd)%re.

(** [([A-Z])\.\s*([^\n]+)] *)
Definition re_lettered : regex :=
  (RGroup 1 (RSet AZ) @@ RSet (CChar ".") @@ RStar CSpace
   @@ RGroup 2 (RPlus (CNot (CChar nl))))%re.

(** [SPECIMEN SUBMITTED:\s*(.+?)(?=\n\n|DIAGNOSIS:)] *)
Definition re_submitted_until_diagnosis : regex :=
  (lit "SPECIMEN SUBMITTED:" @@ RStar CSpace @@ RGroup 1 (RPlusLazy CDot)
   @@ RLook (RAlt blank_line (lit "DIAGNOSIS:")))%re.

(** [([A-Z])[\.\):]?\s*(.+)] *)
Definition re_mapping_entry : regex :=
  (RGroup 1 (RSet AZ) @@ ROpt (RSet punct) @@ RStar CSpace
   @@ RGroup 2 (RPlus CDot))%re.

(** [(?=\n[A-Z ]+:|$)] *)
Definition next_header_or_end : regex :=
  RLook (RAlt (RSet (CChar nl) @@ RPlus (CUnion AZ (CChar " "))
               @@ RSet (CChar ":"))%re
              REol).

(** [CLINICAL IMPRESSION:\s*(.+?)(?=\n[A-Z ]+:|$)] *)
Definition re_clinical_section : regex :=
  (lit "CLINICAL IMPRESSION:" @@ RStar CSpace @@ RGroup 1 (RPlusLazy CDot)
   @@ next_header_or_end)%re.

(** [([A-Z]\)|[A-Z]:|#\d+-|Lesion [A-Z])] *)
Definition re_impression_token : regex :=
  RGroup 1
    (RAlt (RSet AZ @@ RSet (CChar ")"))%re
       (RAlt (RSet AZ @@ RSet (CChar ":"))%re
          (RAlt (RSet (CChar "#") @@ RPlus CDigit @@ RSet (CChar "-"))%re
             (lit "Lesion " @@ RSet AZ)%re))).

(** [[\)\-:#]] *)
Definition token_decoration : cset :=
  CUnion (CChar ")") (CUnion (CChar "-") (CUnion (CChar ":") (CChar "#"))).

(** [MICROSCOPIC DESCRIPTION:\s*(.+?)(?=\n[A-Z ]+:|$)] *)
Definition re_micro_section : regex :=
  (lit "MICROSCOPIC DESCRIPTION:" @@ RStar CSpace @@ RGroup 1 (RPlusLazy CDot)
   @@ next_header_or_end)%re.

(** [^([A-Z][\.\):])\s*(.*?)\s*-\s*(.+)$] *)
Definition re_micro_row : regex :=
  (RBol @@ RGroup 1 (RSet AZ @@ RSet punct) @@ RStar CSpace
   @@ RGroup 2 (RStarLazy CDot) @@ RStar CSpace @@ RSet (CChar "-")
   @@ RStar CSpace @@ RGroup 3 (RPlus CDot) @@ REol)%re.

(** [([A-Z])[\.\):]?\s*(.+?)\n\s*--\s*(.+?)(?=\n[A-Z][\.\):]|\n\n|$)] *)
Definition re_diagnosis : regex :=
  (RGroup 1 (RSet AZ) @@ ROpt (RSet punct) @@ RStar CSpace
   @@ RGroup 2 (RPlusLazy CDot) @@ RSet (CChar nl) @@ RStar CSpace
   @@ lit "--" @@ RStar CSpace @@ RGroup 3 (RPlusLazy CDot)
   @@ RLook (RAlt (RSet (CChar nl) @@ RSet AZ @@ RSet punct)
               (RAlt blank_line REol)))%re.

(** [^[A-Z][\)\.:]|#[0-9]+$] *)
Definition valid_identifier_pattern : regex :=
  RAlt (RBol @@ RSet AZ @@ RSet punct)%re
       (RSet (CChar "#") @@ RPlus (CRange "0" "9") @@ REol)%re.

(** [re.sub(r"[\)\-:#]", "", s)]: deleting every match of a one-character
    class keeps exactly the characters outside the class. *)
Definition re_sub_delete (f : flags) (cs : cset) (s : pystr) : pystr :=
  filter (fun c => negb (cset_mem f cs c)) s.

(** ** Dictionaries, in insertion order *)

Definition dict := list (pystr * pystr).

Fixpoint dict_get (d : dict) (k : pystr) : option pystr :=
  match d with
  | [] => None
  | (k', v) :: d' => if pystr_eqb k k' then Some v else dict_get d' k
  end.

(** [k in d] *)
Definition dict_mem (d : dict) (k : pystr) : bool :=
  match dict_get d k with
  | Some _ => true
  | None => false
  end.

(** [d[k]] *)
Definition dict_getitem (d : dict) (k : pystr) : result pystr :=
  match dict_get d k with
  | Some v => Ok v
  | None => Raise (KeyError (string_of_list_ascii k))
  end.

(** [d[k] = v]: an existing key keeps its place, a new one goes last. *)
Fixpoint dict_set (d : dict) (k v : pystr) : dict :=
  match d with
  | [] => [(k, v)]
  | (k', v') :: d' =>
      if pystr_eqb k k' then (k', v) :: d' else (k', v') :: dict_set d' k v
  end.

Definition dict_values (d : dict) : list pystr := map snd d.

(** ** The DataFrame of specimens *)

(** Strings over arbitrary code points: [chr] can leave the 8-bit range. *)
Definition ustr := list N.

Definition widen (s : pystr) : ustr := map N_of_ascii s.

Definition ustr_eqb (a b : ustr) : bool :=
  if list_eq_dec N.eq_dec a b then true else false.

(** [chr(n)] *)
Definition chr (n : N) : result ustr :=
  if (n <=? 1114111)%N then Ok [n]
  else Raise (ValueError "chr() arg not in range(0x110000)").

(** One row of the frame.  The three narrative fields belong to columns
    that are added by extract_specimen_details; before that they hold the
    empty string. *)
Record row := Row {
  accession_no : option pystr;
  specimen_identifier : ustr;
  specimen_description : pystr;
  diagnosis : pystr;
  microscopic_description : pystr;
  clinical_impression : pystr
}.

Record DataFrame := Frame {
  columns : list string;
  rows : list row
}.

Definition record (acc : option pystr) (ident : ustr) (desc : pystr) : row :=
  Row acc ident desc [] [] [].

(** [pd.DataFrame(records)]: the columns are the keys of the records, so a
    frame built from no record has no column at all. *)
Definition pd_DataFrame (records : list row) : DataFrame :=
  match records with
  | [] => Frame [] []
  | _ :: _ =>
      Frame ["Accession No"; "Specimen Identifier"; "Specimen Description"]%string
        records
  end.

Definition has_column (df : DataFrame) (label : string) : bool :=
  existsb (String.eqb label) (columns df).

(** [df["Specimen Identifier"]] *)
Definition getitem_identifier (df : DataFrame) : result (list ustr) :=
  if has_column df "Specimen Identifier"
  then Ok (map specimen_identifier (rows df))
  else Raise (KeyError "Specimen Identifier").

Definition set_diagnosis (v : pystr) (r : row) : row :=
  Row (accession_no r) (specimen_identifier r) (specimen_description r)
    v (microscopic_description r) (clinical_impression r).

Definition set_microscopic (v : pystr) (r : row) : row :=
  Row (accession_no r) (specimen_identifier r) (specimen_description r)
    (diagnosis r) v (clinical_impression r).

Definition set_impression (v : pystr) (r : row) : row :=
  Row (accession_no r) (specimen_identifier r) (specimen_description r)
    (diagnosis r) (microscopic_description r) v.

(** [df[label] = value] for one of the three narrative columns: the label
    is added when new and every row takes the value. *)
Definition setitem (df : DataFrame) (label : string) (upd : row -> row)
  : DataFrame :=
  Frame (if has_column df label then columns df else columns df ++ [label])
    (map upd (rows df)).

(** [df.loc[df["Specimen Identifier"] == specimen_id, label] = value] *)
Definition loc_setitem (df : DataFrame) (specimen_id : ustr) (upd : row -> row)
  : result DataFrame :=
  ids <- getitem_identifier df ;;
  Ok (Frame (columns df)
        (map (fun r =>
                if ustr_eqb (specimen_identifier r) specimen_id then upd r else r)
           (rows df))).

(** ** extract_accession_and_specimens_df *)

Definition accession_of (text : pystr) : option pystr :=
  match re_search IGNORECASE re_accession text with
  | Some m => Some (strip (group 1 m))
  | None => None
  end.

(** The stripped body of the SPECIMEN SUBMITTED section, when the pattern
    of line 41 matches. *)
Definition specimen_section (text : pystr) : option pystr :=
  match re_search IGNORECASE_DOTALL re_specimen_section text with
  | Some m => Some (strip (group 1 m))
  | None => None
  end.

(** The branch for sections with lettered specimens (lines 51-59). *)
Definition lettered_records (acc : option pystr) (ms : list mstate) : list row :=
  map (fun m => record acc (widen (group 1 m)) (strip (group 2 m))) ms.

(** The branch for plain lists (lines 62-72): one record per line, the
    identifier being [chr(64 + index)]. *)
Definition numbered_records (acc : option pystr) (lines : list pystr)
  : result (list row) :=
  for_each (enumerate 1 lines)
    (fun data '(index, specimen_desc) =>
       ident <- chr (64 + N.of_nat index) ;;
       Ok (data ++ [record acc ident (strip specimen_desc)]))
    [].

Definition specimen_records (text : pystr) : result (list row) :=
  let accession_no := accession_of text in
  match specimen_section text with
  | Some section =>
      let specimens_with_identifiers := re_findall NOFLAGS re_lettered section in
      match specimens_with_identifiers with
      | _ :: _ => Ok (lettered_records accession_no specimens_with_identifiers)
      | [] => numbered_records accession_no (split_nl section)
      end
  | None => Ok []
  end.

Definition extract_accession_and_specimens_df (text : pystr) : result DataFrame :=
  specimen_data <- specimen_records text ;;
  Ok (pd_DataFrame specimen_data).

(** ** remove_text_after_newline *)

Definition remove_text_after_newline (cell_text : pystr) : pystr :=
  strip (hd [] (split_nl cell_text)).

(** ** extract_clinical_impression *)

(** Step 1 (lines 108-122): ordinal and letter of every entry found in the
    SPECIMEN SUBMITTED section as bounded by the pattern of line 110. *)
Definition specimen_mapping (text : pystr) : dict :=
  match re_search IGNORECASE_DOTALL re_submitted_until_diagnosis text with
  | Some m =>
      fold_left
        (fun mapping '(idx, e) =>
           let identifier := strip (group 1 e) in
           dict_set (dict_set mapping (str_of_nat idx) identifier)
             identifier identifier)
        (enumerate 1 (re_findall NOFLAGS re_mapping_entry (group 1 m)))
        []
  | None => []
  end.

(** Line 125: one empty impression per mapped specimen. *)
Definition initial_impressions (mapping : dict) : dict :=
  fold_left (fun d specimen => dict_set d specimen []) (dict_values mapping) [].

(** Step 2 (lines 128-134): the stripped body of the section. *)
Definition clinical_impression_text (text : pystr) : option pystr :=
  match re_search IGNORECASE_DOTALL re_clinical_section text with
  | Some m => Some (strip (group 1 m))
  | None => None
  end.

(** Step 3 (lines 137-141). *)
Definition impression_identifiers (body : pystr) : list pystr :=
  map (group 1) (re_findall IGNORECASE re_impression_token body).

(** Lines 163-165. *)
Definition clean_identifier (identifier : pystr) : pystr :=
  strip (replace (re_sub_delete NOFLAGS token_decoration identifier)
           (py "Lesion ") []).

(** Lines 147-159: the text that follows the token, up to the next token. *)
Definition impression_text_of (body : pystr) (identifiers : list pystr)
  (idx : nat) (identifier : pystr) : pystr :=
  let start_pos := find body identifier in
  let end_pos :=
    match nth_error identifiers (idx + 1) with
    | Some next => find body next
    | None => Z.of_nat (length body)
    end in
  strip (slice body (start_pos + Z.of_nat (length identifier)) end_pos).

(** One turn of the loop of lines 145-170. *)
Definition add_impression (mapping : dict) (body : pystr)
  (identifiers : list pystr) (impressions : dict) (it : nat * pystr)
  : result dict :=
  let '(idx, identifier) := it in
  let impression_text := impression_text_of body identifiers idx identifier in
  let clean := clean_identifier identifier in
  if dict_mem mapping clean then
    target <- dict_getitem mapping clean ;;
    old <- dict_getitem impressions target ;;
    Ok (dict_set impressions target (old ++ strip impression_text ++ py " "))
  else Ok impressions.

Definition extract_clinical_impression (text : pystr) : result dict :=
  let mapping := specimen_mapping text in
  let impressions := initial_impressions mapping in
  impressions <-
    match clinical_impression_text text with
    | Some body =>
        let identifiers := impression_identifiers body in
        match identifiers with
        | _ :: _ =>
            for_each (enumerate 0 identifiers)
              (add_impression mapping body identifiers) impressions
        | [] => Ok (map (fun kv => (fst kv, body)) impressions)
        end
    | None => Ok impressions
    end ;;
  Ok (map (fun kv => (fst kv, strip (snd kv))) impressions).

(** ** add_microscopic_description *)

Definition micro_desc_text (text : pystr) : option pystr :=
  match re_search IGNORECASE_DOTALL re_micro_section text with
  | Some m => Some (strip (group 1 m))
  | None => None
  end.

(** [match[0][0]] *)
Definition first_char (s : pystr) : result pystr :=
  match s with
  | c :: _ => Ok [c]
  | [] => Raise (IndexError "string index out of range")
  end.

Definition add_microscopic_description (text : pystr) (specimen_data : DataFrame)
  : result DataFrame :=
  match micro_desc_text text with
  | None => Ok specimen_data
  | Some body =>
      let micro_desc_matches :=
        re_findall IGNORECASE_DOTALL_MULTILINE re_micro_row body in
      match micro_desc_matches with
      | _ :: _ =>
          for_each micro_desc_matches
            (fun df m =>
               specimen_id <- first_char (group 1 m) ;;
               loc_setitem df (widen specimen_id)
                 (set_microscopic (strip (group 3 m))))
            specimen_data
      | [] =>
          ids <- getitem_identifier specimen_data ;;
          for_each ids
            (fun df specimen => loc_setitem df specimen (set_microscopic body))
            specimen_data
      end
  end.

(** ** extract_specimen_details *)

(** Lines 270-283. *)
Definition add_diagnosis (text : pystr) (specimen_data : DataFrame)
  : result DataFrame :=
  for_each (re_findall IGNORECASE_DOTALL re_diagnosis text)
    (fun df m =>
       loc_setitem df (widen (group 1 m)) (set_diagnosis (strip (group 3 m))))
    specimen_data.

(** One turn of the loop of lines 293-303. *)
Definition put_impression (df : DataFrame) (item : pystr * pystr)
  : result DataFrame :=
  let '(specimen_id, impression_text) := item in
  match re_match NOFLAGS valid_identifier_pattern specimen_id with
  | None => Ok (setitem df "Clinical Impression" (set_impression impression_text))
  | Some _ => loc_setitem df (widen specimen_id) (set_impression impression_text)
  end.

(** Lines 306-307. *)
Definition clean_newlines (df : DataFrame) : DataFrame :=
  Frame (columns df)
    (map (fun r =>
            set_impression (remove_text_after_newline (clinical_impression r))
              (set_microscopic
                 (remove_text_after_newline (microscopic_description r))
                 (set_diagnosis (remove_text_after_newline (diagnosis r)) r)))
       (rows df)).

(** The dictionary of lines 258-267 is built and never read; iterating the
    rows of a frame cannot raise, so it is left out. *)
Definition extract_specimen_details (text : pystr) : result DataFrame :=
  specimen_data <- extract_accession_and_specimens_df text ;;
  let specimen_data := setitem specimen_data "Diagnosis" (set_diagnosis []) in
  let specimen_data :=
    setitem specimen_data "Microscopic Description" (set_microscopic []) in
  let specimen_data :=
    setitem specimen_data "Clinical Impression" (set_impression []) in
  specimen_data <- add_diagnosis text specimen_data ;;
  specimen_data <- add_microscopic_description text specimen_data ;;
  clinical_impressions <- extract_clinical_impression text ;;
  specimen_data <- for_each clinical_impressions put_impression specimen_data ;;
  Ok (clean_newlines specimen_data).

(** ** What the loops of the module compute, span by span *)

(** A piece of narrative text tagged with the identifier it was found
    under.  The loops of lines 275-283 and 213-222 assign the text of each
    span, in order, to the rows with that identifier. *)
Definition span := (ustr * pystr)%type.

Definition diagnosis_spans (text : pystr) : list span :=
  map (fun m => (widen (group 1 m), strip (group 3 m)))
    (re_findall IGNORECASE_DOTALL re_diagnosis text).


(** The text of the last span tagged [id], if there is one. *)
Fixpoint last_text (spans : list span) (id : ustr) : option pystr :=
  match spans with
  | [] => None
  | (i, t) :: spans' =>
      match last_text spans' id with
      | Some t' => Some t'
      | None => if ustr_eqb i id then Some t else None
      end
  end.

(** What the loop of lines 145-170 works with, token by token: the
    specimen the token resolves to, if any, and the slice that lines
    147-159 cut out of the body for it.  The slice runs from the end of the
    first occurrence of the token's spelling to the first occurrence of the
    spelling of the next token (to the end of the body for the last token);
    where a spelling occurs before its own token this is not the text
    between the token and the next. *)
Definition impression_slices (mapping : dict) (body : pystr)
  : list (option pystr * pystr) :=
  let identifiers := impression_identifiers body in
  map (fun it =>
         (dict_get mapping (clean_identifier (snd it)),
          impression_text_of body identifiers (fst it) (snd it)))
    (enumerate 0 identifiers).

Definition resolves_to (k : pystr) (sp : option pystr * pystr) : bool :=
  match fst sp with
  | Some target => pystr_eqb k target
  | None => false
  end.

(** The slices of the tokens that resolve to [k], each stripped and
    followed by a space, one after the other. *)
Definition joined_texts (spans : list (option pystr * pystr)) (k : pystr)
  : pystr :=
  concat (map (fun sp => strip (snd sp) ++ py " ")
            (filter (resolves_to k) spans)).

(** ** Section location without regular expressions *)

(** [take_until stop s]: the characters of [s] before the first position
    at which [stop] holds of what remains. *)
Fixpoint take_until (stop : pystr -> bool) (s : pystr) : pystr :=
  if stop s then []
  else match s with
       | [] => []
       | c :: s' => c :: take_until stop s'
       end.

(** A header read without regard to case. *)
Fixpoint ci_prefixb (hdr s : pystr) : bool :=
  match hdr, s with
  | [], _ => true
  | a :: hdr', b :: s' => Ascii.eqb (lower b) (lower a) && ci_prefixb hdr' s'
  | _ :: _, [] => false
  end.

(** The body that follows a header: leading whitespace is passed over and
    the body is never empty; when only whitespace follows the header the
    body is the last character of it. *)
Definition body_after (stop : pystr -> bool) (after : pystr) : option pystr :=
  match lstrip after with
  | c :: r => Some (c :: take_until stop r)
  | [] =>
      match rev after with
      | x :: _ => Some [x]
      | [] => None
      end
  end.

(** The body after the first occurrence of the header. *)
Fixpoint locate (hdr : pystr) (stop : pystr -> bool) (text : pystr)
  : option pystr :=
  if ci_prefixb hdr text then body_after stop (skipn (length hdr) text)
  else match text with
       | [] => None
       | _ :: text' => locate hdr stop text'
       end.

(** A blank line starts here, or the text ends. *)
Definition blank_or_end (s : pystr) : bool :=
  match s with
  | [] => true
  | c1 :: c2 :: _ => Ascii.eqb c1 nl && Ascii.eqb c2 nl
  | [_] => false
  end.

(** One or more characters of the class, then a colon. *)
Fixpoint label_colon (p : ascii -> bool) (seen : bool) (s : pystr) : bool :=
  match s with
  | c :: s' => if p c then label_colon p true s' else seen && Ascii.eqb c ":"
  | [] => false
  end.

Definition letter_or_space (c : ascii) : bool :=
  is_upper c || is_lower c || Ascii.eqb c " ".

Definition capital_or_space (c : ascii) : bool :=
  is_upper c || Ascii.eqb c " ".

(** A newline followed by a line that starts like a header, or the end of
    the text, or the newline that ends the text. *)
Definition header_or_end (p : ascii -> bool) (s : pystr) : bool :=
  match s with
  | [] => true
  | c :: s' =>
      Ascii.eqb c nl
      && (label_colon p false s' || match s' with [] => true | _ => false end)
  end.

(** The section locator as the specification words it: the body starts
    right after the colon of the header and ends at the first blank line
    or header line in capitals, or with the text. *)
Definition spec_stop (s : pystr) : bool :=
  match s with
  | [] => true
  | c :: s' =>
      Ascii.eqb c nl
      && (match s' with c2 :: _ => Ascii.eqb c2 nl | [] => false end
          || label_colon capital_or_space false s')
  end.

Fixpoint spec_locate (hdr : pystr) (text : pystr) : option pystr :=
  if ci_prefixb hdr text
  then Some (take_until spec_stop (skipn (length hdr) text))
  else match text with
       | [] => None
       | _ :: text' => spec_locate hdr text'
       end.

(** The specification's test for the lettered format: some line of the
    body begins with a capital letter and a period. *)
Definition line_is_lettered (line : pystr) : bool :=
  match line with
  | c :: d :: _ => is_upper c && Ascii.eqb d "."
  | _ => false
  end.

Definition is_blank (line : pystr) : bool := forallb is_space line.

(** A token without any capital letter or digit, such as "a)" or
    "lesion b". *)
Definition lowercase_token (t : pystr) : Prop :=
  Forall (fun c => is_upper c = false /\ is_digit c = false) t.

(** The frame handed to the first loop: the records, with the three
    narrative columns added. *)
Definition initial_frame (records : list row) : DataFrame :=
  setitem
    (setitem (setitem (pd_DataFrame records) "Diagnosis" (set_diagnosis []))
       "Microscopic Description" (set_microscopic []))
    "Clinical Impression" (set_impression []).

Definition text_or_empty (o : option pystr) : pystr :=
  match o with
  | Some t => t
  | None => []
  end.

(** What a loop of assignments by identifier does to one row. *)
Definition assign (spans : list span) (upd : pystr -> row -> row) (r : row)
  : row :=
  match last_text spans (specimen_identifier r) with
  | Some t => upd t r
  | None => r
  end.

(** No whitespace at the front, respectively at the back. *)
Definition no_lead (s : pystr) : Prop :=
  match s with
  | c :: _ => is_space c = false
  | [] => True
  end.

Definition no_trail (s : pystr) : Prop := no_lead (rev s).

Fixpoint take_while (p : ascii -> bool) (s : pystr) : pystr :=
  match s with
  | c :: s' => if p c then c :: take_while p s' else []
  | [] => []
  end.

Fixpoint drop_while (p : ascii -> bool) (s : pystr) : pystr :=
  match s with
  | c :: s' => if p c then drop_while p s' else s
  | [] => []
  end.

Definition succeeds (o : option mstate) : bool :=
  match o with
  | Some _ => true
  | None => false
  end.

(** What is asked of the pattern that ends a section body: it holds at a
    position exactly when [stop] does of the text ahead, and it captures
    nothing. *)
Definition ends_body (f : flags) (re : regex) (stop : pystr -> bool) : Prop :=
  forall s,
    match rmatch f re Some s with
    | Some m => stop (rest s) = true /\ caps m = caps s
    | None => stop (rest s) = false
    end.

(** A section pattern: the header, whitespace, a non-empty body taken
    lazily, and the pattern that ends it. *)
Definition body_then_ending (ending : regex) : regex :=
  (RGroup 1 (RPlusLazy CDot) @@ ending)%re.

Definition section_pattern (hdr : pystr) (ending : regex) : regex :=
  (lit_chars hdr @@ RStar CSpace @@ body_then_ending ending)%re.

(** What identifies a specimen in a row. *)
Definition specimen_key (r : row) : ustr * pystr :=
  (specimen_identifier r, specimen_description r).

(** ** Regular expressions, declaratively *)

(** [matches f re s s']: the pattern can take the matcher from [s] to
    [s'], whatever the order in which the alternatives are tried. *)
Inductive matches (f : flags) : regex -> mstate -> mstate -> Prop :=
| M_eps s : matches f REps s s
| M_set cs c b r cp :
    cset_mem f cs c = true ->
    matches f (RSet cs) (MState b (c :: r) cp) (MState (c :: b) r cp)
| M_seq a b s1 s2 s3 :
    matches f a s1 s2 -> matches f b s2 s3 -> matches f (RSeq a b) s1 s3
| M_alt_l a b s s' : matches f a s s' -> matches f (RAlt a b) s s'
| M_alt_r a b s s' : matches f b s s' -> matches f (RAlt a b) s s'
| M_star cs ws b r cp :
    Forall (fun c => cset_mem f cs c = true) ws ->
    matches f (RStar cs) (MState b (ws ++ r) cp) (MState (rev ws ++ b) r cp)
| M_star_lazy cs ws b r cp :
    Forall (fun c => cset_mem f cs c = true) ws ->
    matches f (RStarLazy cs) (MState b (ws ++ r) cp) (MState (rev ws ++ b) r cp)
| M_group n r s s' :
    matches f r s s' ->
    matches f (RGroup n r) s
      (MState (before s') (rest s') (set_cap n (consumed s s') (caps s')))
| M_look r s s' : matches f r s s' -> matches f (RLook r) s s
| M_bol s : at_bol f s = true -> matches f RBol s s
| M_eol s : at_eol f s = true -> matches f REol s s
| M_end s : at_end s = true -> matches f REnd s s.

(** ** Reports used as examples *)

Definition report_two_impressions : pystr :=
  py "SPECIMEN SUBMITTED: A. skin, left arm" ++ nl :: py "B. skin, right arm"
  ++ nl :: nl :: py "CLINICAL IMPRESSION: A) Benign. B) Malignant.".

Definition report_micro_only : pystr := py "MICROSCOPIC DESCRIPTION: benign".

Definition report_diagnosis_only : pystr := py "A. arm" ++ nl :: py "-- bcc".


Definition report_two_line_micro : pystr :=
  py "SPECIMEN SUBMITTED: A. skin" ++ nl :: nl
  :: py "MICROSCOPIC DESCRIPTION: foo" ++ nl :: py "bar".

Definition report_header_after_specimens : pystr :=
  py "SPECIMEN SUBMITTED: A. skin" ++ nl :: py "DIAGNOSIS: x".

Definition report_blank_in_impression : pystr :=
  py "CLINICAL IMPRESSION: foo" ++ nl :: nl :: py "bar".

Definition report_initial_in_line : pystr :=
  py "SPECIMEN SUBMITTED: biopsy per Dr J. Smith".

Definition report_blank_line : pystr :=
  py "SPECIMEN SUBMITTED: skin" ++ nl :: py " " ++ nl :: py "arm".

Definition report_lowercase_tokens : pystr :=
  py "SPECIMEN SUBMITTED: A. skin" ++ nl :: py "B. arm" ++ nl :: nl
  :: py "CLINICAL IMPRESSION: a) benign b) malignant".

Definition report_five_specimens : pystr :=
  py "SPECIMEN SUBMITTED: A. one" ++ nl :: py "B. two" ++ nl :: py "C. three"
  ++ nl :: py "D. four" ++ nl :: py "E. five" ++ nl :: nl
  :: py "MICROSCOPIC DESCRIPTION: benign skin" ++ nl
  :: py "CLINICAL IMPRESSION: rule out melanoma".

Definition report_repeated_spans : pystr :=
  py "A. x" ++ nl :: py "-- d1" ++ nl :: py "A. y" ++ nl :: py "-- d2" ++ nl :: nl
  :: py "SPECIMEN SUBMITTED: A. skin" ++ nl :: nl
  :: py "MICROSCOPIC DESCRIPTION: A. arm - nevus" ++ nl
  :: py "CLINICAL IMPRESSION: A) first A: second".

Definition report_with_accession : pystr :=
  py "Accession No: S24-1234" ++ nl
  :: py "SPECIMEN SUBMITTED: A. skin, left arm" ++ nl :: py "B. skin, right arm".

(** ** process_pathology_reports *)

(** One row of the frame of reports: the cells of the other columns, kept
    as they are, and the cell of "Path Report Text", a string or missing
    (NaN).  The labels of the frame are taken to be distinct from each other
    and from the six labels of the extracted frames. *)
Record report_row (O : Type) := ReportRow {
  other_cells : O;
  path_report_text : option pystr
}.
Arguments ReportRow {O} _ _.
Arguments other_cells {O} _.
Arguments path_report_text {O} _.

Record reports (O : Type) := Reports {
  report_columns : list string;
  report_rows : list (report_row O)
}.
Arguments Reports {O} _ _.
Arguments report_columns {O} _.
Arguments report_rows {O} _.

(** One row of the collected frame: the report row it comes from, then the
    extracted row. *)
Record collected_row (O : Type) := CollectedRow {
  original : report_row O;
  extracted : row
}.
Arguments CollectedRow {O} _ _.
Arguments original {O} _.
Arguments extracted {O} _.

Record collected (O : Type) := Collected {
  collected_columns : list string;
  collected_rows : list (collected_row O)
}.
Arguments Collected {O} _ _.
Arguments collected_columns {O} _.
Arguments collected_rows {O} _.

(** [.fillna("")] on the text cell. *)
Definition fillna {O} (r : report_row O) : report_row O :=
  match path_report_text r with
  | Some _ => r
  | None => ReportRow (other_cells r) (Some [])
  end.

Definition text_of {O} (r : report_row O) : pystr :=
  text_or_empty (path_report_text r).

(** The labels of [pd.concat] of two frames: those of the first, then the
    new ones of the second. *)
Definition union_columns (a b : list string) : list string :=
  a ++ filter (fun l => negb (existsb (String.eqb l) a)) b.

(** One turn of the loop of lines 329-351. *)
Definition process_report {O} (columns_in : list string) (acc : collected O)
  (report : report_row O) : result (collected O) :=
  extracted_df <- extract_specimen_details (text_of report) ;;
  match rows extracted_df with
  | [] => Ok acc
  | _ :: _ =>
      Ok (Collected
            (union_columns (collected_columns acc)
               (columns_in ++ columns extracted_df))
            (collected_rows acc
             ++ map (CollectedRow report) (rows extracted_df)))
  end.

(** The function returns the collected frame, or raises; it also leaves the
    frame it was given with its missing texts filled. *)
Definition process_pathology_reports {O} (df : reports O)
  : reports O * result (collected O) :=
  if existsb (String.eqb "Path Report Text") (report_columns df)
  then
    let df := Reports (report_columns df) (map fillna (report_rows df)) in
    (df, for_each (report_rows df) (process_report (report_columns df))
           (Collected [] []))
  else (df, Raise (KeyError "Path Report Text")).

(** The rows a report contributes when its run returns. *)
Definition rows_of (r : result DataFrame) : list row :=
  match r with
  | Ok df => rows df
  | Raise _ => []
  end.

(** A line of text without newline, and without whitespace at either end. *)
Definition single_trimmed_line (s : pystr) : Prop :=
  Forall (fun c => c <> nl) s /\ no_lead s /\ no_trail s.

Definition is_letter (c : ascii) : bool := is_upper c || is_lower c.

(** Patterns that never look at the text behind the current position. *)
Fixpoint bol_free (re : regex) : bool :=
  match re with
  | RSeq a b | RAlt a b => bol_free a && bol_free b
  | RGroup _ r | RLook r => bol_free r
  | RBol => false
  | _ => true
  end.

(** What follows the second group in the pattern of line 271. *)
Definition diagnosis_tail : regex :=
  (RSet (CChar nl) @@ RStar CSpace
   @@ lit "--" @@ RStar CSpace @@ RGroup 3 (RPlusLazy CDot)
   @@ RLook (RAlt (RSet (CChar nl) @@ RSet AZ @@ RSet punct)
               (RAlt blank_line REol)))%re.

Definition report_diagnosis_after_title : pystr :=
  py "Report" ++ nl :: py "B. arm" ++ nl :: py "-- bcc".

(** The specimen letters that lines 115-116 find in the SPECIMEN SUBMITTED
    section, in the order of the text. *)
Definition mapping_letters (text : pystr) : list pystr :=
  match re_search IGNORECASE_DOTALL re_submitted_until_diagnosis text with
  | Some m =>
      map (fun e => strip (group 1 e))
        (re_findall NOFLAGS re_mapping_entry (group 1 m))
  | None => []
  end.

Definition report_two_specimens_on_a_line : pystr :=
  py "SPECIMEN SUBMITTED: B. arm" ++ nl :: py "A. leg" ++ nl :: nl
  :: py "CLINICAL IMPRESSION: #1- nevus #2- cyst".

Definition letters : pystr :=
  py "ABCDEFGHIJKLMNOPQRSTUVWXYZabcdefghijklmnopqrstuvwxyz".

(** ** Spans of the clinical impression, as a reader sees them *)





Definition report_plain_list_with_impression : pystr :=
  py "SPECIMEN SUBMITTED:" ++ nl :: py "skin biopsy" ++ nl :: nl
  :: py "CLINICAL IMPRESSION: Benign nevus.".

Definition report_plain_list_with_microscopic : pystr :=
  py "SPECIMEN SUBMITTED:" ++ nl :: py "skin biopsy" ++ nl :: nl
  :: py "MICROSCOPIC DESCRIPTION: Benign nevus.".

Definition report_same_token_twice : pystr :=
  py "SPECIMEN SUBMITTED: A. skin" ++ nl :: nl
  :: py "CLINICAL IMPRESSION: A) x A) y".

(** * Results *)

(** ** Characters and strings *)

Lemma pystr_eqb_eq (a b : pystr) : pystr_eqb a b = true <-> a = b.
Proof.
  unfold pystr_eqb. destruct (list_eq_dec ascii_dec a b); split; congruence.
Qed.

Lemma pystr_eqb_refl (a : pystr) : pystr_eqb a a = true.
Proof. apply pystr_eqb_eq. reflexivity. Qed.


Lemma ustr_eqb_eq (a b : ustr) : ustr_eqb a b = true <-> a = b.
Proof.
  unfold ustr_eqb. destruct (list_eq_dec N.eq_dec a b); split; congruence.
Qed.

Lemma ustr_eqb_refl (a : ustr) : ustr_eqb a a = true.
Proof. apply ustr_eqb_eq. reflexivity. Qed.

(** Facts about one character are settled by going through the 256 of
    them. *)
Ltac by_cases_on_char c :=
  destruct c as [[] [] [] [] [] [] [] []]; vm_compute;
  try reflexivity; try discriminate; try tauto; auto.

Lemma upper_not_space (c : ascii) : is_upper c = true -> is_space c = false.
Proof. by_cases_on_char c. Qed.

Lemma lstrip_Forall (P : ascii -> Prop) (s : pystr) :
  Forall P s -> Forall P (lstrip s).
Proof.
  induction 1 as [|c s Hc Hs IH]; simpl; [constructor|].
  destruct (is_space c); [exact IH | constructor; assumption].
Qed.

Lemma strip_Forall (P : ascii -> Prop) (s : pystr) :
  Forall P s -> Forall P (strip s).
Proof.
  intros H. unfold strip, rstrip.
  apply lstrip_Forall, Forall_rev, lstrip_Forall, Forall_rev, H.
Qed.


Lemma strip_single (c : ascii) : is_space c = false -> strip [c] = [c].
Proof.
  intros H. unfold strip, rstrip. simpl. rewrite H. simpl. rewrite H.
  reflexivity.
Qed.

Lemma replace_from_Forall (P : ascii -> Prop) (old new : pystr) :
  Forall P new ->
  forall s skip, Forall P s -> Forall P (replace_from old new skip s).
Proof.
  intros Hnew s. induction s as [|c s IH]; intros skip Hs; simpl.
  - constructor.
  - inversion Hs; subst. destruct skip as [|n].
    + destruct (prefixb old (c :: s)).
      * apply Forall_app. split; [assumption | apply IH; assumption].
      * constructor; [assumption | apply IH; assumption].
    + apply IH; assumption.
Qed.

Lemma filter_Forall {A} (P : A -> Prop) (q : A -> bool) (l : list A) :
  Forall P l -> Forall P (filter q l).
Proof.
  induction 1 as [|x l Hx Hl IH]; simpl; [constructor|].
  destruct (q x); [constructor|]; assumption.
Qed.

Lemma clean_identifier_Forall (P : ascii -> Prop) (t : pystr) :
  Forall P t -> Forall P (clean_identifier t).
Proof.
  intros H. unfold clean_identifier, replace, re_sub_delete.
  apply strip_Forall, replace_from_Forall; [constructor|].
  apply filter_Forall, H.
Qed.

Lemma string_of_uint_digits (d : Decimal.uint) :
  Forall (fun c => is_digit c = true) (py (NilEmpty.string_of_uint d)).
Proof.
  induction d; simpl; constructor; try assumption; reflexivity.
Qed.

Lemma str_of_nat_digits (n : nat) :
  Forall (fun c => is_digit c = true) (str_of_nat n).
Proof.
  unfold str_of_nat, NilZero.string_of_uint.
  destruct (Nat.to_uint n) eqn:E; try (rewrite <- E; apply string_of_uint_digits).
  repeat constructor.
Qed.

Lemma str_of_nat_nonempty (n : nat) : str_of_nat n <> [].
Proof.
  unfold str_of_nat, NilZero.string_of_uint.
  destruct (Nat.to_uint n); simpl; discriminate.
Qed.

Lemma enumerate_In {A} (l : list A) :
  forall start i x, In (i, x) (enumerate start l) -> In x l.
Proof.
  induction l as [|y l IH]; simpl; intros start i x H; [exact H|].
  destruct H as [H|H]; [left; congruence | right; eapply IH; exact H].
Qed.



(** ** Exceptions and loops *)

Lemma bind_Ok {A B} (r : result A) (f : A -> result B) (b : B) :
  bind r f = Ok b -> exists a, r = Ok a /\ f a = Ok b.
Proof. destruct r; simpl; intros H; [eauto | discriminate]. Qed.

Lemma for_each_invariant {A S} (Inv : S -> Prop) (body : S -> A -> result S)
  (l : list A) :
  (forall s x s', In x l -> body s x = Ok s' -> Inv s -> Inv s') ->
  forall s s', for_each l body s = Ok s' -> Inv s -> Inv s'.
Proof.
  induction l as [|x l IH]; simpl; intros Hbody s s' H Hs.
  - congruence.
  - apply bind_Ok in H. destruct H as (s1 & H1 & H2).
    eapply IH; [intros; eapply Hbody; eauto | exact H2 |].
    eapply Hbody; eauto.
Qed.

(** ** Dictionaries *)

Lemma dict_get_In (d : dict) (k v : pystr) :
  dict_get d k = Some v -> In (k, v) d.
Proof.
  induction d as [|[k' v'] d IH]; simpl; [discriminate|].
  destruct (pystr_eqb k k') eqn:E.
  - apply pystr_eqb_eq in E. intros [= ->]. left. congruence.
  - intros H. right. auto.
Qed.

Lemma dict_set_In (d : dict) (k v a b : pystr) :
  In (a, b) (dict_set d k v) -> In (a, b) d \/ (a = k /\ b = v).
Proof.
  induction d as [|[k' v'] d IH]; simpl.
  - intros [[= <- <-]|[]]. right. split; reflexivity.
  - destruct (pystr_eqb k k') eqn:E; simpl.
    + apply pystr_eqb_eq in E. subst k'.
      intros [[= <- <-]|H]; [right; split; reflexivity | left; right; exact H].
    + intros [H|H]; [left; left; exact H|].
      destruct (IH H) as [H'|H']; [left; right; exact H' | right; exact H'].
Qed.

Lemma dict_get_set (d : dict) (k v k' : pystr) :
  dict_get (dict_set d k v) k'
  = if pystr_eqb k' k then Some v else dict_get d k'.
Proof.
  induction d as [|[k0 v0] d IH]; simpl.
  - destruct (pystr_eqb k' k); reflexivity.
  - destruct (pystr_eqb k k0) eqn:E; simpl.
    + apply pystr_eqb_eq in E. subst k0.
      destruct (pystr_eqb k' k); reflexivity.
    + destruct (pystr_eqb k' k0) eqn:E0.
      * apply pystr_eqb_eq in E0. subst k0.
        destruct (pystr_eqb k' k) eqn:E1; [|reflexivity].
        apply pystr_eqb_eq in E1. subst k'.
        rewrite pystr_eqb_refl in E. discriminate.
      * exact IH.
Qed.

Lemma fold_left_invariant {A B} (Inv : A -> Prop) (f : A -> B -> A) (l : list B) :
  (forall a x, In x l -> Inv a -> Inv (f a x)) ->
  forall a, Inv a -> Inv (fold_left f l a).
Proof.
  induction l as [|x l IH]; simpl; intros Hf a Ha; [exact Ha|].
  apply IH; [intros; apply Hf; auto | apply Hf; auto].
Qed.

(** ** The matcher against the declarative reading *)

Lemma greedy_sound (p : ascii -> bool) (k : kont) (cp : list (nat * pystr)) :
  forall r b m,
    greedy p k b r cp = Some m ->
    exists ws r1,
      r = ws ++ r1 /\ Forall (fun c => p c = true) ws
      /\ k (MState (rev ws ++ b) r1 cp) = Some m.
Proof.
  induction r as [|c r IH]; simpl; intros b m H.
  - exists [], []. auto.
  - destruct (p c) eqn:Hc.
    + destruct (greedy p k (c :: b) r cp) eqn:G; simpl in H.
      * injection H as <-. destruct (IH _ _ G) as (ws & r1 & -> & Hws & Hk).
        exists (c :: ws), r1. split; [reflexivity|]. split; [constructor; assumption|].
        simpl. rewrite <- app_assoc. exact Hk.
      * exists [], (c :: r). auto.
    + exists [], (c :: r). auto.
Qed.

Lemma lazy_sound (p : ascii -> bool) (k : kont) (cp : list (nat * pystr)) :
  forall r b m,
    lazy p k b r cp = Some m ->
    exists ws r1,
      r = ws ++ r1 /\ Forall (fun c => p c = true) ws
      /\ k (MState (rev ws ++ b) r1 cp) = Some m.
Proof.
  induction r as [|c r IH]; simpl; intros b m H.
  - destruct (k (MState b [] cp)) eqn:K; simpl in H; [|discriminate].
    injection H as <-. exists [], []. auto.
  - destruct (k (MState b (c :: r) cp)) eqn:K; simpl in H.
    + injection H as <-. exists [], (c :: r). auto.
    + destruct (p c) eqn:Hc; [|discriminate].
      destruct (IH _ _ H) as (ws & r1 & -> & Hws & Hk).
      exists (c :: ws), r1. split; [reflexivity|]. split; [constructor; assumption|].
      simpl. rewrite <- app_assoc. exact Hk.
Qed.

(** Whatever the matcher returns is a match of the pattern, handed to the
    continuation. *)
Lemma rmatch_sound (f : flags) (re : regex) :
  forall k s m,
    rmatch f re k s = Some m ->
    exists s', matches f re s s' /\ k s' = Some m.
Proof.
  induction re; simpl; intros k s m H.
  - exists s. split; [constructor | exact H].
  - destruct s as [b r cp]. simpl in H. destruct r as [|c r]; [discriminate|].
    destruct (cset_mem f cs c) eqn:E; [|discriminate].
    eexists. split; [constructor; exact E | exact H].
  - destruct (IHre1 _ _ _ H) as (s1 & M1 & H1).
    destruct (IHre2 _ _ _ H1) as (s2 & M2 & H2).
    exists s2. split; [econstructor; eassumption | exact H2].
  - destruct (rmatch f re1 k s) eqn:E; simpl in H.
    + injection H as <-. destruct (IHre1 _ _ _ E) as (s1 & M1 & H1).
      exists s1. split; [apply M_alt_l; exact M1 | exact H1].
    + destruct (IHre2 _ _ _ H) as (s1 & M1 & H1).
      exists s1. split; [apply M_alt_r; exact M1 | exact H1].
  - destruct s as [b r cp]. simpl in H.
    destruct (greedy_sound _ _ _ _ _ _ H) as (ws & r1 & -> & Hws & Hk).
    eexists. split; [apply M_star; exact Hws | exact Hk].
  - destruct s as [b r cp]. simpl in H.
    destruct (lazy_sound _ _ _ _ _ _ H) as (ws & r1 & -> & Hws & Hk).
    eexists. split; [apply M_star_lazy; exact Hws | exact Hk].
  - destruct (IHre _ _ _ H) as (s1 & M1 & H1).
    eexists. split; [apply M_group; exact M1 | exact H1].
  - destruct (rmatch f re Some s) eqn:E; [|discriminate].
    destruct (IHre _ _ _ E) as (s1 & M1 & _).
    exists s. split; [eapply M_look; exact M1 | exact H].
  - destruct (at_bol f s) eqn:E; [|discriminate].
    exists s. split; [constructor; exact E | exact H].
  - destruct (at_eol f s) eqn:E; [|discriminate].
    exists s. split; [constructor; exact E | exact H].
  - destruct (at_end s) eqn:E; [|discriminate].
    exists s. split; [constructor; exact E | exact H].
Qed.

Lemma greedy_complete (p : ascii -> bool) (k : kont) (cp : list (nat * pystr)) :
  forall ws r b,
    Forall (fun c => p c = true) ws ->
    k (MState (rev ws ++ b) r cp) <> None ->
    greedy p k b (ws ++ r) cp <> None.
Proof.
  induction ws as [|c ws IH]; simpl; intros r b Hws Hk.
  - destruct r as [|c r]; simpl; [exact Hk|].
    destruct (p c); [|exact Hk].
    destruct (greedy p k (c :: b) r cp); simpl; [discriminate | exact Hk].
  - inversion Hws as [|? ? Hc Hws']; subst. rewrite Hc.
    specialize (IH r (c :: b) Hws'). rewrite <- app_assoc in Hk.
    specialize (IH Hk).
    destruct (greedy p k (c :: b) (ws ++ r) cp); simpl; [discriminate | congruence].
Qed.

Lemma lazy_complete (p : ascii -> bool) (k : kont) (cp : list (nat * pystr)) :
  forall ws r b,
    Forall (fun c => p c = true) ws ->
    k (MState (rev ws ++ b) r cp) <> None ->
    lazy p k b (ws ++ r) cp <> None.
Proof.
  induction ws as [|c ws IH]; simpl; intros r b Hws Hk.
  - destruct r as [|c r]; simpl;
      destruct (k (MState b _ cp)); simpl; congruence.
  - inversion Hws as [|? ? Hc Hws']; subst.
    destruct (k (MState b (c :: ws ++ r) cp)); simpl; [discriminate|].
    rewrite Hc. apply IH; [exact Hws'|]. rewrite <- app_assoc in Hk. exact Hk.
Qed.

(** A match of the pattern whose continuation succeeds makes the matcher
    succeed, possibly with another match of higher priority. *)
Lemma rmatch_complete (f : flags) (re : regex) (s s' : mstate) :
  matches f re s s' ->
  forall k, k s' <> None -> rmatch f re k s <> None.
Proof.
  induction 1; simpl; intros k Hk.
  - exact Hk.
  - rewrite H. exact Hk.
  - apply IHmatches1, IHmatches2, Hk.
  - specialize (IHmatches k Hk).
    destruct (rmatch f a k s); simpl; [discriminate | congruence].
  - destruct (rmatch f a k s); simpl; [discriminate | apply IHmatches, Hk].
  - apply greedy_complete; assumption.
  - apply lazy_complete; assumption.
  - apply IHmatches. exact Hk.
  - specialize (IHmatches Some). 
    destruct (rmatch f r Some s); [exact Hk | apply IHmatches; discriminate].
  - rewrite H. exact Hk.
  - rewrite H. exact Hk.
  - rewrite H. exact Hk.
Qed.

Lemma findall_sound (f : flags) (re : regex) (m : mstate) :
  forall r skip b,
    In m (findall_from f re skip b r) ->
    exists pre post,
      r = pre ++ post /\ match_here f re (rev pre ++ b) post = Some m.
Proof.
  induction r as [|c r IH]; intros skip b H.
  - destruct skip; simpl in H; [|contradiction].
    destruct (match_here f re b []) eqn:E; simpl in H; [|contradiction].
    destruct H as [<-|[]]. exists [], []. auto.
  - assert (Hrec : forall n, In m (findall_from f re n (c :: b) r) ->
              exists pre post, c :: r = pre ++ post
                /\ match_here f re (rev pre ++ b) post = Some m).
    { intros n Hn. destruct (IH _ _ Hn) as (pre & post & -> & Hm).
      exists (c :: pre), post. split; [reflexivity|].
      simpl. rewrite <- app_assoc. exact Hm. }
    destruct skip; simpl in H.
    + destruct (match_here f re b (c :: r)) eqn:E.
      * destruct H as [<-|H]; [exists [], (c :: r); auto | eapply Hrec; exact H].
      * eapply Hrec; exact H.
    + eapply Hrec; exact H.
Qed.

Lemma findall_complete (f : flags) (re : regex) :
  forall pre post b,
    match_here f re (rev pre ++ b) post <> None ->
    findall_from f re 0 b (pre ++ post) <> [].
Proof.
  induction pre as [|c pre IH]; simpl; intros post b H.
  - destruct post; simpl; destruct (match_here f re b _); congruence.
  - destruct (match_here f re b (c :: pre ++ post)); [discriminate|].
    apply IH. rewrite <- app_assoc in H. exact H.
Qed.

(** ** The reports above, run through the module *)

(** C1: a report with a MICROSCOPIC DESCRIPTION section and no SPECIMEN
    SUBMITTED section does not come back as an empty table: the frame built
    from no record has no "Specimen Identifier" column, and reading that
    column raises KeyError. *)
Theorem C1_no_specimens_raises :
  extract_specimen_details report_micro_only
  = Raise (KeyError "Specimen Identifier").
Proof. vm_compute. reflexivity. Qed.

(** C2: on the report with the impression "A) Benign. B) Malignant." the
    dictionary of impressions keeps the two texts apart, yet both assembled
    rows end with "Malignant.": record A does not have "Benign.". *)
Theorem C2_impressions_overwrite_each_other :
  extract_clinical_impression report_two_impressions
  = Ok [(py "A", py "Benign."); (py "B", py "Malignant.")]
  /\ exists df,
      extract_specimen_details report_two_impressions = Ok df
      /\ map (fun r => (specimen_identifier r, clinical_impression r)) (rows df)
         = [(widen (py "A"), py "Malignant."); (widen (py "B"), py "Malignant.")].
Proof.
  split; [vm_compute; reflexivity|].
  eexists; split; vm_compute; reflexivity.
Qed.

(** C5: a diagnosis span in a report without specimens is not dropped in
    silence, the run ends with KeyError. *)
Theorem C5_unresolved_span_raises :
  specimen_records report_diagnosis_only = Ok []
  /\ diagnosis_spans report_diagnosis_only = [(widen (py "A"), py "bcc")]
  /\ extract_specimen_details report_diagnosis_only
     = Raise (KeyError "Specimen Identifier").
Proof. repeat split; vm_compute; reflexivity. Qed.


(** A microscopic section of two lines without any tagged row is
    broadcast, and the field keeps its first line only. *)
Lemma two_line_body_keeps_first_line :
  exists df body,
    extract_specimen_details report_two_line_micro = Ok df
    /\ micro_desc_text report_two_line_micro = Some body
    /\ re_findall IGNORECASE_DOTALL_MULTILINE re_micro_row body = []
    /\ map microscopic_description (rows df) = [py "foo"]
    /\ body = py "foo" ++ nl :: py "bar"
    /\ py "foo" <> body.
Proof.
  do 2 eexists.
  split; [vm_compute; reflexivity|].
  split; [vm_compute; reflexivity|].
  split; [vm_compute; reflexivity|].
  split; [vm_compute; reflexivity|].
  split; [reflexivity|discriminate].
Qed.

(** C6, refuted as stated: the SPECIMEN SUBMITTED body does not end at a
    header line that follows without a blank line, and the CLINICAL
    IMPRESSION body does not end at a blank line. *)
Lemma C6_counterexample :
  specimen_section report_header_after_specimens
  = Some (py "A. skin" ++ nl :: py "DIAGNOSIS: x")
  /\ spec_locate (py "SPECIMEN SUBMITTED:") report_header_after_specimens
     = Some (py " A. skin")
  /\ specimen_section report_header_after_specimens
     <> option_map strip
          (spec_locate (py "SPECIMEN SUBMITTED:") report_header_after_specimens)
  /\ clinical_impression_text report_blank_in_impression
     = Some (py "foo" ++ nl :: nl :: py "bar")
  /\ spec_locate (py "CLINICAL IMPRESSION:") report_blank_in_impression
     = Some (py " foo").
Proof.
  split; [vm_compute; reflexivity|].
  split; [vm_compute; reflexivity|].
  split; [vm_compute; discriminate|].
  split; vm_compute; reflexivity.
Qed.

(** C7, refuted as stated: the lettered format is used for a body none of
    whose lines begins with a capital letter and a period. *)
Lemma C7_counterexample :
  exists body,
    specimen_section report_initial_in_line = Some body
    /\ existsb line_is_lettered (split_nl body) = false
    /\ re_findall NOFLAGS re_lettered body <> []
    /\ option_map (map (fun r => (specimen_identifier r, specimen_description r)))
         (match specimen_records report_initial_in_line with
          | Ok l => Some l
          | Raise _ => None
          end)
       = Some [(widen (py "J"), py "Smith")].
Proof.
  eexists.
  split; [vm_compute; reflexivity|].
  split; [vm_compute; reflexivity|].
  split; [vm_compute; discriminate|].
  vm_compute; reflexivity.
Qed.

(** C8, refuted as stated: a line of whitespace in the body also becomes a
    specimen, with an empty description, and takes a letter. *)
Lemma C8_counterexample :
  exists body recs,
    specimen_section report_blank_line = Some body
    /\ re_findall NOFLAGS re_lettered body = []
    /\ specimen_records report_blank_line = Ok recs
    /\ map (fun r => (specimen_identifier r, specimen_description r)) recs
       = [(widen (py "A"), py "skin"); (widen (py "B"), []);
          (widen (py "C"), py "arm")]
    /\ length (filter (fun l => negb (is_blank l)) (split_nl body)) = 2.
Proof.
  do 2 eexists.
  split; [vm_compute; reflexivity|].
  split; [vm_compute; reflexivity|].
  split; [vm_compute; reflexivity|].
  split; vm_compute; reflexivity.
Qed.


(** ** Reading the declarative matches of the module's patterns *)

Ltac inv H := inversion H; subst; clear H.

Ltac inv_matches :=
  repeat (match goal with
          | H : matches _ (RSeq _ _) _ _ |- _ => inv H
          | H : matches _ (RGroup _ _) _ _ |- _ => inv H
          | H : matches _ (RSet _) _ _ |- _ => inv H
          | H : matches _ (RStar _) _ _ |- _ => inv H
          | H : matches _ (RStarLazy _) _ _ |- _ => inv H
          | H : matches _ REps _ _ |- _ => inv H
          | H : matches _ (RAlt _ _) _ _ |- _ => inv H
          | H : matches _ (RLook _) _ _ |- _ => inv H
          | H : matches _ RBol _ _ |- _ => inv H
          | H : matches _ REol _ _ |- _ => inv H
          | H : matches _ REnd _ _ |- _ => inv H
          end; cbn [before rest caps] in *).

Lemma consumed_app (xs r b b' : pystr) (cp cp' : list (nat * pystr)) :
  consumed (MState b (xs ++ r) cp) (MState b' r cp') = xs.
Proof.
  unfold consumed. cbn [rest]. rewrite length_app, Nat.add_sub.
  rewrite firstn_app, Nat.sub_diag, firstn_all. simpl. apply app_nil_r.
Qed.

Lemma consumed_cons (c : ascii) (r b b' : pystr) (cp cp' : list (nat * pystr)) :
  consumed (MState b (c :: r) cp) (MState b' r cp') = [c].
Proof. apply (consumed_app [c]). Qed.

Lemma match_here_sound (f : flags) (re : regex) (b r : pystr) (m : mstate) :
  match_here f re b r = Some m -> matches f re (MState b r []) m.
Proof.
  intros H. apply rmatch_sound in H. destruct H as (s' & M & [= ->]). exact M.
Qed.

Lemma match_here_complete (f : flags) (re : regex) (b r : pystr) (m : mstate) :
  matches f re (MState b r []) m -> match_here f re b r <> None.
Proof.
  intros M. eapply rmatch_complete; [exact M | discriminate].
Qed.

(** The first group of an entry of the mapping is one capital letter. *)
Lemma mapping_entry_letter (b r : pystr) (m : mstate) :
  match_here NOFLAGS re_mapping_entry b r = Some m ->
  exists c, group 1 m = [c] /\ is_upper c = true.
Proof.
  intros H. apply match_here_sound in H.
  unfold re_mapping_entry, ROpt, RPlus in H. inv_matches.
  all: rewrite consumed_cons; eexists; (split; [reflexivity|]).
  all: match goal with
       | H : cset_mem NOFLAGS AZ ?c = true |- is_upper ?c = true =>
           simpl in H; rewrite orb_false_r in H; exact H
       end.
Qed.

(** ** The mapping of extract_clinical_impression *)

(** Every value of the mapping is one capital letter, and every key is
    either that letter or a decimal number. *)
Lemma specimen_mapping_entries (text k v : pystr) :
  In (k, v) (specimen_mapping text) ->
  (exists c, is_upper c = true /\ v = [c])
  /\ (k = v \/ (k <> [] /\ Forall (fun c => is_digit c = true) k)).
Proof.
  unfold specimen_mapping.
  destruct (re_search IGNORECASE_DOTALL re_submitted_until_diagnosis text) as [m|];
    [|intros []].
  revert k v.
  apply (fold_left_invariant
           (fun d : dict => forall k v, In (k, v) d ->
              (exists c, is_upper c = true /\ v = [c])
              /\ (k = v \/ (k <> [] /\ Forall (fun c => is_digit c = true) k))));
    [|intros k v []].
  intros d [idx e] Hin Hd k v H.
  apply enumerate_In in Hin. apply findall_sound in Hin.
  destruct Hin as (pre & post & _ & Hm).
  apply mapping_entry_letter in Hm. destruct Hm as (c & Hg & Hc).
  rewrite Hg, (strip_single c (upper_not_space c Hc)) in H.
  apply dict_set_In in H. destruct H as [H|[-> ->]].
  - apply dict_set_In in H. destruct H as [H|[-> ->]]; [apply Hd; exact H|].
    split; [eauto|]. right. split; [apply str_of_nat_nonempty | apply str_of_nat_digits].
  - split; [eauto | left; reflexivity].
Qed.

Lemma lowercase_token_unresolved (text t : pystr) :
  lowercase_token t ->
  dict_get (specimen_mapping text) (clean_identifier t) = None.
Proof.
  intros Ht. apply (clean_identifier_Forall _ t) in Ht.
  destruct (dict_get (specimen_mapping text) (clean_identifier t)) as [v|] eqn:E;
    [|reflexivity].
  exfalso. apply dict_get_In, specimen_mapping_entries in E.
  destruct E as ((c & Hc & ->) & [E|[Hne Hd]]).
  - rewrite E in Ht. inversion Ht as [|? ? [Hu _] _]; subst. congruence.
  - destruct (clean_identifier t) as [|x k]; [congruence|].
    inversion Ht as [|? ? [_ Hx] _]; subst.
    inversion Hd; subst. congruence.
Qed.

Lemma initial_impressions_empty (mapping : dict) (k v : pystr) :
  In (k, v) (initial_impressions mapping) -> v = [].
Proof.
  unfold initial_impressions. revert k v.
  apply (fold_left_invariant (fun d : dict => forall k v, In (k, v) d -> v = []));
    [|intros k v []].
  intros d x _ Hd k v H. apply dict_set_In in H.
  destruct H as [H|[_ ->]]; [eapply Hd; exact H | reflexivity].
Qed.

(** Tokens that resolve to nothing leave the impressions as they were. *)
Lemma unresolved_tokens_add_nothing (mapping : dict) (body : pystr)
  (identifiers : list pystr) (items : list (nat * pystr)) (impressions : dict) :
  (forall it, In it items -> dict_get mapping (clean_identifier (snd it)) = None) ->
  for_each items (add_impression mapping body identifiers) impressions
  = Ok impressions.
Proof.
  induction items as [|[idx t] items IH]; simpl; intros H; [reflexivity|].
  pose proof (H (idx, t) (or_introl eq_refl)) as H0. simpl in H0.
  unfold dict_mem. rewrite H0. simpl.
  apply IH. intros it Hit. apply H. right. exact Hit.
Qed.

Lemma lowercase_tokens_impressions (text body : pystr) :
  clinical_impression_text text = Some body ->
  impression_identifiers body <> [] ->
  Forall lowercase_token (impression_identifiers body) ->
  exists d,
    extract_clinical_impression text = Ok d
    /\ forall k v, In (k, v) d -> v = [].
Proof.
  intros Hbody Hne Hlow. unfold extract_clinical_impression. rewrite Hbody.
  destruct (impression_identifiers body) as [|t ts] eqn:E; [congruence|].
  rewrite unresolved_tokens_add_nothing.
  - simpl. eexists. split; [reflexivity|].
    intros k v H. apply in_map_iff in H. destruct H as ([k' v'] & [= <- <-] & H).
    apply initial_impressions_empty in H. subst v'. reflexivity.
  - intros [idx t'] Hit. apply enumerate_In in Hit. simpl.
    apply lowercase_token_unresolved.
    rewrite Forall_forall in Hlow. apply Hlow. exact Hit.
Qed.

(** ** The stages of extract_specimen_details *)

Lemma extract_specimen_details_stages (text : pystr) (df : DataFrame) :
  extract_specimen_details text = Ok df ->
  exists records df2 df3 impressions df4,
    specimen_records text = Ok records
    /\ add_diagnosis text (initial_frame records) = Ok df2
    /\ add_microscopic_description text df2 = Ok df3
    /\ extract_clinical_impression text = Ok impressions
    /\ for_each impressions put_impression df3 = Ok df4
    /\ df = clean_newlines df4.
Proof.
  unfold extract_specimen_details, extract_accession_and_specimens_df.
  intros H.
  apply bind_Ok in H. destruct H as (df0 & H0 & H).
  apply bind_Ok in H0. destruct H0 as (records & Hrec & [= <-]).
  apply bind_Ok in H. destruct H as (df2 & H2 & H).
  apply bind_Ok in H. destruct H as (df3 & H3 & H).
  apply bind_Ok in H. destruct H as (imp & Hi & H).
  apply bind_Ok in H. destruct H as (df4 & H4 & [= <-]).
  exists records, df2, df3, imp, df4. repeat split; assumption.
Qed.

Lemma loc_setitem_rows (df df' : DataFrame) (id : ustr) (upd : row -> row) :
  loc_setitem df id upd = Ok df' ->
  rows df'
  = map (fun r => if ustr_eqb (specimen_identifier r) id then upd r else r)
      (rows df)
  /\ columns df' = columns df.
Proof.
  unfold loc_setitem. intros H. apply bind_Ok in H.
  destruct H as (ids & _ & [= <-]). split; reflexivity.
Qed.

(** A property of rows kept by an assignment is kept by the loops that
    only assign. *)
Lemma loc_setitem_Forall (P : row -> Prop) (df df' : DataFrame) (id : ustr)
  (upd : row -> row) :
  (forall r, P r -> P (upd r)) ->
  loc_setitem df id upd = Ok df' ->
  Forall P (rows df) -> Forall P (rows df').
Proof.
  intros Hupd H HP. apply loc_setitem_rows in H. destruct H as [-> _].
  apply Forall_map. eapply Forall_impl; [|exact HP].
  intros r Hr. simpl. destruct (ustr_eqb _ _); auto.
Qed.

Lemma add_diagnosis_Forall (P : row -> Prop) (text : pystr) (df df' : DataFrame) :
  (forall v r, P r -> P (set_diagnosis v r)) ->
  add_diagnosis text df = Ok df' ->
  Forall P (rows df) -> Forall P (rows df').
Proof.
  intros Hupd. unfold add_diagnosis.
  apply (for_each_invariant (fun d => Forall P (rows d))).
  intros s m s' _ H. eapply loc_setitem_Forall; [|exact H]. apply Hupd.
Qed.

Lemma add_microscopic_Forall (P : row -> Prop) (text : pystr) (df df' : DataFrame) :
  (forall v r, P r -> P (set_microscopic v r)) ->
  add_microscopic_description text df = Ok df' ->
  Forall P (rows df) -> Forall P (rows df').
Proof.
  intros Hupd. unfold add_microscopic_description.
  destruct (micro_desc_text text) as [body|]; [|congruence].
  destruct (re_findall IGNORECASE_DOTALL_MULTILINE re_micro_row body) as [|m ms].
  - intros H. apply bind_Ok in H. destruct H as (ids & _ & H). revert H.
    apply (for_each_invariant (fun d => Forall P (rows d))).
    intros s x s' _ H. eapply loc_setitem_Forall; [|exact H]. apply Hupd.
  - apply (for_each_invariant (fun d => Forall P (rows d))).
    intros s x s' _ H. apply bind_Ok in H. destruct H as (c & _ & H).
    eapply loc_setitem_Forall; [|exact H]. apply Hupd.
Qed.

Lemma put_impression_Forall (P : row -> Prop) (df df' : DataFrame)
  (item : pystr * pystr) :
  (forall r, P r -> P (set_impression (snd item) r)) ->
  put_impression df item = Ok df' ->
  Forall P (rows df) -> Forall P (rows df').
Proof.
  destruct item as [k v]. simpl. intros Hupd. unfold put_impression.
  destruct (re_match NOFLAGS valid_identifier_pattern k).
  - apply loc_setitem_Forall. exact Hupd.
  - intros [= <-] HP. simpl. apply Forall_map.
    eapply Forall_impl; [|exact HP]. exact Hupd.
Qed.

Lemma initial_frame_rows (records : list row) :
  rows (initial_frame records)
  = map (fun r => set_impression [] (set_microscopic [] (set_diagnosis [] r)))
      records.
Proof.
  unfold initial_frame, setitem, pd_DataFrame. destruct records; simpl.
  - reflexivity.
  - rewrite !map_map. reflexivity.
Qed.

(** ** Lowercase tokens in the clinical impression *)

Lemma lower_matches_AZ_ignoring_case (c : ascii) :
  is_lower c = true -> cset_mem IGNORECASE AZ c = true.
Proof. by_cases_on_char c. Qed.

Lemma lowercase_token_detected (pre post : pystr) (c : ascii) :
  is_lower c = true ->
  impression_identifiers (pre ++ c :: ")"%char :: post) <> [].
Proof.
  intros Hc. unfold impression_identifiers, re_findall.
  assert (H : findall_from IGNORECASE re_impression_token 0 []
                (pre ++ c :: ")"%char :: post) <> []).
  { apply findall_complete. eapply match_here_complete.
    unfold re_impression_token. apply M_group, M_alt_l.
    eapply M_seq; apply M_set.
    - apply lower_matches_AZ_ignoring_case, Hc.
    - reflexivity. }
  destruct (findall_from IGNORECASE re_impression_token 0 [] _); [congruence|discriminate].
Qed.

Lemma initial_frame_no_impression (records : list row) :
  Forall (fun r => clinical_impression r = []) (rows (initial_frame records)).
Proof.
  rewrite initial_frame_rows. apply Forall_map, Forall_forall. reflexivity.
Qed.

Lemma clean_newlines_rows (df : DataFrame) :
  rows (clean_newlines df)
  = map (fun r =>
           set_impression (remove_text_after_newline (clinical_impression r))
             (set_microscopic
                (remove_text_after_newline (microscopic_description r))
                (set_diagnosis (remove_text_after_newline (diagnosis r)) r)))
      (rows df).
Proof. reflexivity. Qed.

(** C10: token detection in the clinical impression ignores case, so a
    lowercase letter followed by ")" is a token; a token without capital
    letter or digit resolves to no specimen of the mapping; and when all
    the tokens of the section are of that kind every row ends with an empty
    clinical impression. *)
Theorem C10_lowercase_tokens_leave_impression_empty :
  (forall pre post c,
      is_lower c = true ->
      impression_identifiers (pre ++ c :: ")"%char :: post) <> [])
  /\ (forall text t,
         lowercase_token t ->
         dict_mem (specimen_mapping text) (clean_identifier t) = false)
  /\ (forall text body df,
         extract_specimen_details text = Ok df ->
         clinical_impression_text text = Some body ->
         impression_identifiers body <> [] ->
         Forall lowercase_token (impression_identifiers body) ->
         Forall (fun r => clinical_impression r = []) (rows df)).
Proof.
  split; [exact lowercase_token_detected|].
  split.
  { intros text t Ht. unfold dict_mem.
    rewrite (lowercase_token_unresolved text t Ht). reflexivity. }
  intros text body df Hrun Hbody Hne Hlow.
  apply extract_specimen_details_stages in Hrun.
  destruct Hrun as (records & df2 & df3 & imp & df4 & _ & H2 & H3 & Hi & H4 & ->).
  destruct (lowercase_tokens_impressions text body Hbody Hne Hlow)
    as (d & Hd & Hempty).
  rewrite Hd in Hi. injection Hi as <-.
  assert (Hrows : Forall (fun r => clinical_impression r = []) (rows df4)).
  { eapply (for_each_invariant
              (fun x => Forall (fun r => clinical_impression r = []) (rows x)));
      [|exact H4|].
    - intros s [k v] s' Hin H. eapply put_impression_Forall; [|exact H].
      intros r _. simpl. eapply Hempty. exact Hin.
    - eapply add_microscopic_Forall; [|exact H3|]; [intros v r Hr; exact Hr|].
      eapply add_diagnosis_Forall; [|exact H2|]; [intros v r Hr; exact Hr|].
      apply initial_frame_no_impression. }
  rewrite clean_newlines_rows. apply Forall_map.
  eapply Forall_impl; [|exact Hrows].
  intros r Hr. simpl. rewrite Hr. reflexivity.
Qed.

Lemma C10_witness :
  impression_identifiers ([] ++ "a"%char :: ")"%char :: py " benign") <> []
  /\ dict_mem (specimen_mapping report_lowercase_tokens)
       (clean_identifier (py "a)")) = false
  /\ exists df,
      extract_specimen_details report_lowercase_tokens = Ok df
      /\ length (rows df) = 2
      /\ Forall (fun r => clinical_impression r = []) (rows df).
Proof.
  destruct C10_lowercase_tokens_leave_impression_empty as (Hdet & Hres & Hrows).
  split; [apply Hdet; reflexivity|].
  split; [apply Hres; repeat constructor|].
  eexists. split; [vm_compute; reflexivity|].
  split; [reflexivity|].
  apply (Hrows report_lowercase_tokens (py "a) benign b) malignant")).
  - vm_compute. reflexivity.
  - vm_compute. reflexivity.
  - vm_compute. discriminate.
  - vm_compute. repeat constructor.
Defined.

(** ** Spans that resolve to the same specimen *)

(** A loop of assignments [df.loc[df["Specimen Identifier"] == id, col] = t]
    leaves in each row the text of the last span tagged with its
    identifier. *)
Lemma assign_loop {A} (tag : A -> ustr) (txt : A -> pystr)
  (upd : pystr -> row -> row) (body : DataFrame -> A -> result DataFrame) :
  (forall t r, specimen_identifier (upd t r) = specimen_identifier r) ->
  (forall t1 t2 r, upd t2 (upd t1 r) = upd t2 r) ->
  (forall df m df', body df m = Ok df' ->
                    loc_setitem df (tag m) (upd (txt m)) = Ok df') ->
  forall l df df',
    for_each l body df = Ok df' ->
    rows df' = map (assign (map (fun m => (tag m, txt m)) l) upd) (rows df).
Proof.
  intros Hid Hover Hbody. induction l as [|m l IH]; simpl; intros df df' H.
  - injection H as <-. symmetry. apply map_id.
  - apply bind_Ok in H. destruct H as (df1 & H1 & H2).
    apply Hbody, loc_setitem_rows in H1. destruct H1 as [H1 _].
    rewrite (IH _ _ H2), H1, map_map. apply map_ext. intros r.
    unfold assign. simpl.
    destruct (ustr_eqb (specimen_identifier r) (tag m)) eqn:E.
    + rewrite Hid. apply ustr_eqb_eq in E. rewrite <- E, ustr_eqb_refl.
      destruct (last_text _ (specimen_identifier r)); [apply Hover | reflexivity].
    + destruct (last_text _ (specimen_identifier r)); [reflexivity|].
      destruct (ustr_eqb (tag m) (specimen_identifier r)) eqn:E'; [|reflexivity].
      apply ustr_eqb_eq in E'. rewrite E', ustr_eqb_refl in E. discriminate.
Qed.




Lemma dict_get_map_values (f : pystr -> pystr) (d : dict) (k : pystr) :
  dict_get (map (fun kv => (fst kv, f (snd kv))) d) k
  = option_map f (dict_get d k).
Proof.
  induction d as [|[k' v'] d IH]; simpl; [reflexivity|].
  destruct (pystr_eqb k k'); [reflexivity | exact IH].
Qed.

Lemma joined_texts_cons (sp : option pystr * pystr)
  (spans : list (option pystr * pystr)) (k : pystr) :
  joined_texts (sp :: spans) k
  = (if resolves_to k sp then strip (snd sp) ++ py " " else [])
    ++ joined_texts spans k.
Proof.
  unfold joined_texts. simpl. destruct (resolves_to k sp); reflexivity.
Qed.

(** The loop of lines 145-170 appends to each impression the texts of the
    spans that resolve to its specimen, in order. *)
Lemma add_impression_loop (mapping : dict) (body : pystr)
  (identifiers : list pystr) :
  forall items impressions impressions',
    for_each items (add_impression mapping body identifiers) impressions
    = Ok impressions' ->
    forall k,
      dict_get impressions' k
      = option_map
          (fun v =>
             v ++ joined_texts
                    (map (fun it =>
                            (dict_get mapping (clean_identifier (snd it)),
                             impression_text_of body identifiers (fst it) (snd it)))
                       items) k)
          (dict_get impressions k).
Proof.
  induction items as [|[idx t] items IH]; simpl; intros imp imp' H k.
  - injection H as <-. destruct (dict_get imp k); simpl; [|reflexivity].
    unfold joined_texts. simpl. rewrite app_nil_r. reflexivity.
  - apply bind_Ok in H. destruct H as (imp1 & H1 & H2).
    rewrite (IH _ _ H2 k). clear IH H2.
    rewrite joined_texts_cons. unfold resolves_to. cbn [fst snd].
    unfold dict_mem, dict_getitem in H1.
    destruct (dict_get mapping (clean_identifier t)) as [target|] eqn:E.
    + simpl in H1.
      destruct (dict_get imp target) as [old|] eqn:Eold; [|discriminate].
      simpl in H1. injection H1 as <-. rewrite dict_get_set.
      destruct (pystr_eqb k target) eqn:Ek.
      * apply pystr_eqb_eq in Ek. subst k. rewrite Eold. simpl.
        rewrite <- !app_assoc. reflexivity.
      * destruct (dict_get imp k); reflexivity.
    + injection H1 as <-. destruct (dict_get imp k); reflexivity.
Qed.

(** X20: in the clinical impression texts accumulate.  When the section
    has a token, the impression that extract_clinical_impression returns for
    a specimen is made of the slices cut out for the tokens that resolve to
    it, in the order of processing, each stripped and followed by one space,
    the whole stripped; a slice is what lines 147-159 cut, from the first
    occurrence of the token's spelling to the first occurrence of the next
    token's spelling. *)
Lemma joined_impressions (text body : pystr) (d : dict) :
  clinical_impression_text text = Some body ->
  impression_identifiers body <> [] ->
  extract_clinical_impression text = Ok d ->
  forall k v,
    dict_get d k = Some v ->
    v = strip (joined_texts (impression_slices (specimen_mapping text) body) k).
Proof.
  unfold extract_clinical_impression. intros -> Hne H k v Hk.
  apply bind_Ok in H. destruct H as (imp & H & [= <-]).
  rewrite dict_get_map_values in Hk.
  destruct (impression_identifiers body) as [|t ts] eqn:E; [congruence|].
  pose proof (add_impression_loop _ _ _ _ _ _ H k) as Hloop.
  rewrite Hloop in Hk.
  destruct (dict_get (initial_impressions (specimen_mapping text)) k) as [v0|] eqn:E0;
    [|discriminate].
  apply dict_get_In, initial_impressions_empty in E0. subst v0.
  simpl in Hk. injection Hk as <-.
  unfold impression_slices. rewrite E. reflexivity.
Qed.

(** ** What strip leaves *)

Lemma lstrip_no_lead (s : pystr) : no_lead (lstrip s).
Proof.
  induction s as [|c s IH]; simpl; [exact I|].
  destruct (is_space c) eqn:E; [exact IH | exact E].
Qed.

Lemma lstrip_id (s : pystr) : no_lead s -> lstrip s = s.
Proof. destruct s as [|c s]; simpl; [reflexivity | intros ->; reflexivity]. Qed.

Lemma lstrip_split (s : pystr) :
  exists w, s = w ++ lstrip s /\ Forall (fun c => is_space c = true) w.
Proof.
  induction s as [|c s (w & Hw & Hsp)]; simpl.
  - exists []. split; [reflexivity | constructor].
  - destruct (is_space c) eqn:E.
    + exists (c :: w). split; [simpl; congruence | constructor; assumption].
    + exists []. split; [reflexivity | constructor].
Qed.

Lemma lstrip_no_trail (s : pystr) : no_trail s -> no_trail (lstrip s).
Proof.
  unfold no_trail. destruct (lstrip_split s) as (w & Hw & _).
  intros H. rewrite Hw, rev_app_distr in H.
  destruct (rev (lstrip s)) as [|c t]; [exact I | exact H].
Qed.

Lemma strip_no_lead (s : pystr) : no_lead (strip s).
Proof. apply lstrip_no_lead. Qed.

Lemma strip_no_trail (s : pystr) : no_trail (strip s).
Proof.
  unfold strip. apply lstrip_no_trail. unfold no_trail, rstrip.
  rewrite rev_involutive. apply lstrip_no_lead.
Qed.

Lemma strip_id (s : pystr) : no_lead s -> no_trail s -> strip s = s.
Proof.
  intros Hl Ht. unfold strip, rstrip. rewrite (lstrip_id (rev s) Ht).
  rewrite rev_involutive. apply lstrip_id, Hl.
Qed.

Lemma strip_strip (s : pystr) : strip (strip s) = strip s.
Proof. apply strip_id; [apply strip_no_lead | apply strip_no_trail]. Qed.

(** ** Sections without tokens *)

Lemma last_text_const (body : pystr) (ids : list ustr) (id : ustr) :
  In id ids -> last_text (map (fun i => (i, body)) ids) id = Some body.
Proof.
  induction ids as [|i ids IH]; simpl; [intros []|].
  intros [->|H].
  - destruct (last_text _ id) eqn:E.
    + clear IH. induction ids as [|j ids IHj]; simpl in E; [discriminate|].
      destruct (last_text (map (fun i => (i, body)) ids) id) eqn:E'.
      * injection E as <-. apply IHj. reflexivity.
      * destruct (ustr_eqb j id); congruence.
    + rewrite ustr_eqb_refl. reflexivity.
  - rewrite (IH H). reflexivity.
Qed.

Lemma add_microscopic_rows_broadcast (text body : pystr) (df df' : DataFrame) :
  micro_desc_text text = Some body ->
  re_findall IGNORECASE_DOTALL_MULTILINE re_micro_row body = [] ->
  add_microscopic_description text df = Ok df' ->
  Forall (fun r => microscopic_description r = body) (rows df').
Proof.
  unfold add_microscopic_description. intros -> -> H.
  apply bind_Ok in H. destruct H as (ids & Hids & H).
  unfold getitem_identifier in Hids.
  destruct (has_column df "Specimen Identifier"); [|discriminate].
  injection Hids as <-.
  apply (assign_loop (fun i => i) (fun _ => body) set_microscopic) in H; auto.
  rewrite H. apply Forall_map, Forall_forall. intros r Hr.
  unfold assign. rewrite last_text_const; [reflexivity|].
  apply in_map. exact Hr.
Qed.

Lemma valid_identifier_rejects_one_character (c : ascii) :
  re_match NOFLAGS valid_identifier_pattern [c] = None.
Proof. by_cases_on_char c. Qed.

Lemma initial_impressions_keys (mapping : dict) (k v : pystr) :
  In (k, v) (initial_impressions mapping) -> In k (dict_values mapping).
Proof.
  unfold initial_impressions. revert k v.
  apply (fold_left_invariant
           (fun d : dict => forall k v, In (k, v) d -> In k (dict_values mapping)));
    [|intros k v []].
  intros d x Hx Hd k v H. apply dict_set_In in H.
  destruct H as [H|[-> _]]; [eapply Hd; exact H | exact Hx].
Qed.

Lemma dict_set_nonempty (d : dict) (k v : pystr) : dict_set d k v <> [].
Proof.
  destruct d as [|[k' v'] d]; simpl; [discriminate|].
  destruct (pystr_eqb k k'); discriminate.
Qed.

Lemma initial_impressions_nonempty (mapping : dict) :
  mapping <> [] -> initial_impressions mapping <> [].
Proof.
  unfold initial_impressions, dict_values.
  destruct mapping as [|[k v] mapping]; [congruence|]. intros _. simpl.
  apply (fold_left_invariant (fun d : dict => d <> [])).
  - intros d x _ _. apply dict_set_nonempty.
  - discriminate.
Qed.

Lemma impression_keys_rejected (text k v : pystr) :
  In (k, v) (initial_impressions (specimen_mapping text)) ->
  re_match NOFLAGS valid_identifier_pattern k = None.
Proof.
  intros H. apply initial_impressions_keys in H.
  unfold dict_values in H. apply in_map_iff in H.
  destruct H as ([k0 v0] & <- & H). simpl.
  apply specimen_mapping_entries in H. destruct H as ((c & _ & ->) & _).
  apply valid_identifier_rejects_one_character.
Qed.

(** The loop of lines 293-303 when no key has the shape the pattern of
    line 291 asks for: every turn assigns the whole column. *)
Lemma put_impression_broadcast (body : pystr) (l : list (pystr * pystr))
  (df df' : DataFrame) :
  l <> [] ->
  (forall k v, In (k, v) l ->
     v = body /\ re_match NOFLAGS valid_identifier_pattern k = None) ->
  for_each l put_impression df = Ok df' ->
  Forall (fun r => clinical_impression r = body) (rows df').
Proof.
  destruct l as [|[k v] l]; [congruence|]. intros _ Hl H. simpl in H.
  apply bind_Ok in H. destruct H as (df1 & H1 & H).
  destruct (Hl k v (or_introl eq_refl)) as [-> Hk].
  unfold put_impression in H1. rewrite Hk in H1. injection H1 as <-.
  eapply (for_each_invariant
            (fun x => Forall (fun r => clinical_impression r = body) (rows x)));
    [|exact H|].
  - intros s [k' v'] s' Hin Hput. eapply put_impression_Forall; [|exact Hput].
    intros r _. simpl. apply (Hl k' v'). right. exact Hin.
  - simpl. apply Forall_map, Forall_forall. reflexivity.
Qed.

Lemma clinical_impression_text_stripped (text body : pystr) :
  clinical_impression_text text = Some body -> strip body = body.
Proof.
  unfold clinical_impression_text.
  destruct (re_search IGNORECASE_DOTALL re_clinical_section text); [|discriminate].
  intros [= <-]. apply strip_strip.
Qed.

(** X21: a microscopic description without tagged rows goes to every
    row, whatever the number of rows, and each row keeps the first line of
    the body; a clinical impression without tokens does the same when the
    mapping rebuilt by extract_clinical_impression knows at least one
    specimen. *)
Lemma broadcast_first_line :
  forall text df,
    extract_specimen_details text = Ok df ->
    (forall body,
        micro_desc_text text = Some body ->
        re_findall IGNORECASE_DOTALL_MULTILINE re_micro_row body = [] ->
        Forall (fun r => microscopic_description r
                         = remove_text_after_newline body) (rows df))
    /\ (forall body,
          clinical_impression_text text = Some body ->
          impression_identifiers body = [] ->
          specimen_mapping text <> [] ->
          Forall (fun r => clinical_impression r
                           = remove_text_after_newline body) (rows df)).
Proof.
  intros text df Hrun.
  apply extract_specimen_details_stages in Hrun.
  destruct Hrun as (records & df2 & df3 & imp & df4 & _ & H2 & H3 & Hi & H4 & ->).
  split.
  - intros body Hbody Hnone.
    assert (Hrows : Forall (fun r => microscopic_description r = body) (rows df4)).
    { eapply (for_each_invariant
                (fun x => Forall (fun r => microscopic_description r = body) (rows x)));
        [|exact H4|].
      - intros s it s' _ H. eapply put_impression_Forall; [|exact H].
        intros r Hr. exact Hr.
      - eapply add_microscopic_rows_broadcast; eassumption. }
    rewrite clean_newlines_rows. apply Forall_map.
    eapply Forall_impl; [|exact Hrows]. intros r Hr. simpl. rewrite Hr.
    reflexivity.
  - intros body Hbody Hnone Hmap.
    assert (Hrows : Forall (fun r => clinical_impression r = body) (rows df4)).
    { unfold extract_clinical_impression in Hi. rewrite Hbody, Hnone in Hi.
      simpl in Hi. injection Hi as <-.
      eapply put_impression_broadcast; [| |exact H4].
      - rewrite !map_map. intros E. apply map_eq_nil in E.
        revert E. apply initial_impressions_nonempty. exact Hmap.
      - intros k v H. rewrite map_map in H. apply in_map_iff in H.
        destruct H as ([k0 v0] & [= <- <-] & H). simpl.
        split; [apply (clinical_impression_text_stripped text); exact Hbody|].
        eapply impression_keys_rejected. exact H. }
    rewrite clean_newlines_rows. apply Forall_map.
    eapply Forall_impl; [|exact Hrows]. intros r Hr. simpl. rewrite Hr.
    reflexivity.
Qed.

Lemma broadcast_first_line_five_specimens :
  exists df,
    extract_specimen_details report_five_specimens = Ok df
    /\ length (rows df) = 5
    /\ Forall (fun r => microscopic_description r
                        = remove_text_after_newline (py "benign skin")) (rows df)
    /\ Forall (fun r => clinical_impression r
                        = remove_text_after_newline (py "rule out melanoma"))
         (rows df).
Proof.
  assert (Hrun : exists df, extract_specimen_details report_five_specimens = Ok df
                            /\ length (rows df) = 5)
    by (eexists; split; vm_compute; reflexivity).
  destruct Hrun as (df & Hrun & Hlen).
  destruct (broadcast_first_line report_five_specimens df Hrun) as (Hm & Hc).
  exists df. split; [exact Hrun|]. split; [exact Hlen|]. split.
  - apply Hm; vm_compute; reflexivity.
  - apply Hc; [vm_compute; reflexivity | vm_compute; reflexivity|].
    vm_compute. discriminate.
Defined.

(** ** Sections that list specimens without letters *)

Lemma chr_in_range (n : N) : (n <= 1114111)%N -> chr n = Ok [n].
Proof.
  intros H. unfold chr. apply N.leb_le in H. rewrite H. reflexivity.
Qed.

(** The loop of lines 63-72 adds one record per line, in order. *)
Lemma numbered_records_loop (acc : option pystr) (lines : list pystr) :
  forall start data,
    (N.of_nat start + N.of_nat (length lines) <= 1114048)%N ->
    for_each (enumerate start lines)
      (fun data '(index, specimen_desc) =>
         ident <- chr (64 + N.of_nat index) ;;
         Ok (data ++ [record acc ident (strip specimen_desc)]))
      data
    = Ok (data
          ++ map (fun it => record acc [(64 + N.of_nat (fst it))%N] (strip (snd it)))
               (enumerate start lines)).
Proof.
  induction lines as [|l lines IH]; intros start data H.
  - simpl. rewrite app_nil_r. reflexivity.
  - cbn [enumerate for_each map fst snd]. cbn [length] in H.
    rewrite chr_in_range by lia. cbn [bind].
    rewrite IH by lia. rewrite <- app_assoc. reflexivity.
Qed.

(** C8, as the code has it: when the pattern for lettered specimens finds
    nothing in the body, every line of the body, blank or not, becomes one
    specimen, in order, the line of index i (from 1) with the identifier
    chr(64 + i), that is A, B, C, ..., and the trimmed line as description;
    the bound is the largest index for which chr is defined. *)
Theorem C8_one_specimen_per_line :
  forall text section,
    specimen_section text = Some section ->
    re_findall NOFLAGS re_lettered section = [] ->
    (N.of_nat (length (split_nl section)) <= 1114047)%N ->
    specimen_records text
    = Ok (map (fun it =>
                 record (accession_of text) [(64 + N.of_nat (fst it))%N]
                   (strip (snd it)))
            (enumerate 1 (split_nl section))).
Proof.
  intros text section Hsec Hnone Hlen.
  unfold specimen_records. rewrite Hsec, Hnone.
  unfold numbered_records. rewrite numbered_records_loop; [reflexivity|].
  lia.
Qed.

Lemma C8_witness :
  specimen_records report_blank_line
  = Ok (map (fun it =>
               record (accession_of report_blank_line)
                 [(64 + N.of_nat (fst it))%N] (strip (snd it)))
          (enumerate 1 (split_nl (py "skin" ++ nl :: py " " ++ nl :: py "arm")))).
Proof.
  apply C8_one_specimen_per_line.
  - vm_compute. reflexivity.
  - vm_compute. reflexivity.
  - vm_compute. discriminate.
Defined.

(** ** Sections that list lettered specimens *)

Lemma take_drop_while (p : ascii -> bool) (s : pystr) :
  take_while p s ++ drop_while p s = s.
Proof.
  induction s as [|c s IH]; simpl; [reflexivity|].
  destruct (p c); simpl; [f_equal; exact IH | reflexivity].
Qed.

Lemma take_while_Forall (p : ascii -> bool) (s : pystr) :
  Forall (fun c => p c = true) (take_while p s).
Proof.
  induction s as [|c s IH]; simpl; [constructor|].
  destruct (p c) eqn:E; constructor; assumption.
Qed.

Lemma drop_while_head (p : ascii -> bool) (s : pystr) :
  match drop_while p s with
  | c :: _ => p c = false
  | [] => True
  end.
Proof.
  induction s as [|c s IH]; simpl; [exact I|].
  destruct (p c) eqn:E; [exact IH | exact E].
Qed.

(** A greedy repetition whose continuation cannot fail keeps the longest
    run. *)
Lemma greedy_total (p : ascii -> bool) (k : kont) (cp : list (nat * pystr)) :
  (forall s, k s <> None) ->
  forall r b,
    greedy p k b r cp
    = k (MState (rev (take_while p r) ++ b) (drop_while p r) cp).
Proof.
  intros Hk. induction r as [|c r IH]; simpl; intros b; [reflexivity|].
  destruct (p c); [|reflexivity].
  rewrite IH. simpl. rewrite <- app_assoc. simpl.
  destruct (k _) eqn:E; [reflexivity | exfalso; eapply Hk; exact E].
Qed.

Lemma rmatch_seq_sound (f : flags) (a b : regex) (k : kont) (s m : mstate) :
  rmatch f (RSeq a b) k s = Some m ->
  exists s1, matches f a s s1 /\ rmatch f b k s1 = Some m.
Proof. simpl. apply rmatch_sound. Qed.

(** A match of the pattern of line 48: a capital letter, a period,
    whitespace, then the rest of the line, which is not empty. *)
Lemma lettered_match (b r : pystr) (m : mstate) :
  match_here NOFLAGS re_lettered b r = Some m ->
  exists c ws d post,
    r = c :: "."%char :: ws ++ d ++ post
    /\ is_upper c = true
    /\ Forall (fun x => is_space x = true) ws
    /\ d <> []
    /\ Forall (fun x => x <> nl) d
    /\ (post = [] \/ exists post', post = nl :: post')
    /\ group 1 m = [c]
    /\ group 2 m = d.
Proof.
  unfold match_here, re_lettered, RPlus. intros H.
  apply rmatch_seq_sound in H. destruct H as (s1 & M1 & H).
  apply rmatch_seq_sound in H. destruct H as (s2 & M2 & H).
  apply rmatch_seq_sound in H. destruct H as (s3 & M3 & H).
  inv_matches.
  match goal with
  | Hc : cset_mem NOFLAGS (CChar _) ?x = true |- _ =>
      simpl in Hc; apply Ascii.eqb_eq in Hc; subst x
  end.
  match goal with
  | Hc : cset_mem NOFLAGS AZ _ = true |- _ =>
      simpl in Hc; rewrite orb_false_r in Hc
  end.
  rewrite consumed_cons in H.
  cbn [rmatch rest before caps] in H.
  destruct r0 as [|x r1]; [discriminate|].
  destruct (cset_mem NOFLAGS (CNot (CChar nl)) x) eqn:Ex; [|discriminate].
  rewrite greedy_total in H by discriminate.
  injection H as <-.
  exists c, ws, (x :: take_while (cset_mem NOFLAGS (CNot (CChar nl))) r1),
    (drop_while (cset_mem NOFLAGS (CNot (CChar nl))) r1).
  assert (Hnl : forall y, cset_mem NOFLAGS (CNot (CChar nl)) y = true -> y <> nl).
  { intros y Hy. simpl in Hy. intros ->. discriminate. }
  split.
  { simpl. rewrite take_drop_while. reflexivity. }
  split; [assumption|].
  split.
  { eapply Forall_impl; [|eassumption]. intros a Ha. exact Ha. }
  split; [discriminate|].
  split.
  { constructor; [apply Hnl, Ex|].
    eapply Forall_impl; [|apply take_while_Forall]. intros a Ha. apply Hnl, Ha. }
  split.
  { pose proof (drop_while_head (cset_mem NOFLAGS (CNot (CChar nl))) r1) as Hd.
    destruct (drop_while _ r1) as [|y post']; [left; reflexivity|].
    right. exists post'. simpl in Hd. apply negb_false_iff, Ascii.eqb_eq in Hd.
    subst y. reflexivity. }
  split; [reflexivity|].
  unfold group. cbn [caps before rest]. simpl get_cap.
  pose proof (take_drop_while (cset_mem NOFLAGS (CNot (CChar nl))) r1) as Htd.
  rewrite <- Htd at 1.
  apply (consumed_app (x :: take_while _ r1)).
Qed.

Lemma no_trail_suffix (a b : pystr) : no_trail (a ++ b) -> b <> [] -> no_trail b.
Proof.
  unfold no_trail. rewrite rev_app_distr. intros H Hb.
  destruct (rev b) as [|x t] eqn:E; [exact I | exact H].
Qed.

(** In a text that does not end with whitespace, something other than
    whitespace follows every position but the last. *)
Lemma first_after_whitespace (s : pystr) :
  s <> [] -> no_trail s ->
  exists ws x t,
    s = ws ++ x :: t /\ Forall (fun c => is_space c = true) ws
    /\ is_space x = false.
Proof.
  intros Hne Ht. destruct (lstrip_split s) as (w & Hw & Hsp).
  pose proof (lstrip_no_lead s) as Hl.
  destruct (lstrip s) as [|x t].
  - exfalso. rewrite app_nil_r in Hw. subst w. unfold no_trail in Ht.
    apply Forall_rev in Hsp. destruct (rev s) as [|y u] eqn:E.
    + apply (f_equal (@rev ascii)) in E. rewrite rev_involutive in E.
      apply Hne. exact E.
    + inversion Hsp; subst. simpl in Ht. congruence.
  - exists w, x, t. repeat split; assumption.
Qed.

Lemma lettered_found (section pre post : pystr) (c : ascii) :
  no_trail section ->
  section = pre ++ c :: "."%char :: post ->
  is_upper c = true ->
  post <> [] ->
  re_findall NOFLAGS re_lettered section <> [].
Proof.
  intros Ht -> Hc Hpost.
  assert (Ht' : no_trail post).
  { apply (no_trail_suffix (pre ++ [c; "."%char])); [|exact Hpost].
    rewrite <- app_assoc. exact Ht. }
  destruct (first_after_whitespace post Hpost Ht') as (ws & x & t & -> & Hws & Hx).
  unfold re_findall. apply findall_complete.
  eapply match_here_complete. unfold re_lettered, RPlus.
  eapply M_seq; [apply M_group, M_set|].
  { simpl. rewrite orb_false_r. exact Hc. }
  eapply M_seq; [apply M_set; reflexivity|].
  eapply M_seq; [apply M_star; exact Hws|].
  apply M_group. eapply M_seq; [apply M_set | apply (M_star _ _ [])].
  - simpl. destruct (Ascii.eqb x nl) eqn:E; [|reflexivity].
    apply Ascii.eqb_eq in E. subst x. discriminate.
  - constructor.
Qed.

Lemma specimen_section_no_trail (text section : pystr) :
  specimen_section text = Some section -> no_trail section.
Proof.
  unfold specimen_section.
  destruct (re_search IGNORECASE_DOTALL re_specimen_section text); [|discriminate].
  intros [= <-]. apply strip_no_trail.
Qed.

(** C7, as the code has it: the lettered format is used exactly when the
    body holds, anywhere, a capital letter and a period that is not the
    last character of the body; the specimens are then the matches of the
    pattern of line 48, each made of such a letter, the period, whitespace
    and the rest of the line, with the letter as identifier and the rest of
    the line, trimmed, as description. *)
Theorem C7_lettered_format :
  forall text section,
    specimen_section text = Some section ->
    let found := re_findall NOFLAGS re_lettered section in
    (found <> [] <->
       exists pre c post,
         section = pre ++ c :: "."%char :: post
         /\ is_upper c = true /\ post <> [])
    /\ (found <> [] ->
        specimen_records text = Ok (lettered_records (accession_of text) found))
    /\ (found = [] ->
        specimen_records text
        = numbered_records (accession_of text) (split_nl section))
    /\ (forall m, In m found ->
          exists pre c ws d post,
            section = pre ++ c :: "."%char :: ws ++ d ++ post
            /\ is_upper c = true
            /\ Forall (fun x => is_space x = true) ws
            /\ d <> []
            /\ Forall (fun x => x <> nl) d
            /\ (post = [] \/ exists post', post = nl :: post')
            /\ group 1 m = [c]
            /\ group 2 m = d).
Proof.
  intros text section Hsec found.
  assert (Hsound : forall m, In m found ->
            exists pre c ws d post,
              section = pre ++ c :: "."%char :: ws ++ d ++ post
              /\ is_upper c = true
              /\ Forall (fun x => is_space x = true) ws
              /\ d <> []
              /\ Forall (fun x => x <> nl) d
              /\ (post = [] \/ exists post', post = nl :: post')
              /\ group 1 m = [c]
              /\ group 2 m = d).
  { intros m Hm. apply findall_sound in Hm.
    destruct Hm as (pre & post0 & Hsplit & Hm).
    apply lettered_match in Hm.
    destruct Hm as (c & ws & d & post & -> & Hrest).
    exists pre, c, ws, d, post. split; [exact Hsplit | exact Hrest]. }
  split; [split|split; [|split]].
  - intros Hne. destruct found as [|m ms] eqn:E; [congruence|].
    destruct (Hsound m (or_introl eq_refl))
      as (pre & c & ws & d & post & Hs & Hc & _ & Hd & _).
    exists pre, c, (ws ++ d ++ post). split; [exact Hs|]. split; [exact Hc|].
    destruct ws; simpl; [|discriminate].
    destruct d; simpl; [congruence | discriminate].
  - intros (pre & c & post & Hs & Hc & Hpost).
    eapply lettered_found; eauto. eapply specimen_section_no_trail; eauto.
  - intros Hne. unfold specimen_records. rewrite Hsec. fold found.
    destruct found; [congruence | reflexivity].
  - intros Hnone. unfold specimen_records. rewrite Hsec. fold found.
    rewrite Hnone. reflexivity.
  - exact Hsound.
Qed.

Lemma C7_witness :
  let found := re_findall NOFLAGS re_lettered (py "biopsy per Dr J. Smith") in
  found <> []
  /\ specimen_records report_initial_in_line
     = Ok (lettered_records (accession_of report_initial_in_line) found)
  /\ Forall
       (fun m =>
          exists pre c ws d post,
            py "biopsy per Dr J. Smith" = pre ++ c :: "."%char :: ws ++ d ++ post
            /\ is_upper c = true
            /\ Forall (fun x => is_space x = true) ws
            /\ d <> []
            /\ Forall (fun x => x <> nl) d
            /\ (post = [] \/ exists post', post = nl :: post')
            /\ group 1 m = [c]
            /\ group 2 m = d)
       found.
Proof.
  intros found.
  destruct (C7_lettered_format report_initial_in_line
              (py "biopsy per Dr J. Smith")) as ((_ & Hfound) & Hused & _ & Hall).
  - vm_compute. reflexivity.
  - assert (H : found <> []).
    { apply Hfound. exists (py "biopsy per Dr "), "J"%char, (py " Smith").
      split; [reflexivity|]. split; [reflexivity | discriminate]. }
    split; [exact H|]. split; [apply Hused; exact H|].
    apply Forall_forall. exact Hall.
Defined.

(** ** Where a section body starts and ends *)

Lemma rmatch_lit (f : flags) (K : kont) :
  ignorecase f = true ->
  forall h s,
    rmatch f (lit_chars h) K s
    = if ci_prefixb h (rest s)
      then K (MState (rev (firstn (length h) (rest s)) ++ before s)
                (skipn (length h) (rest s)) (caps s))
      else None.
Proof.
  intros Hf. induction h as [|a h IH]; intros [b r cp].
  - reflexivity.
  - cbn [lit_chars rmatch rest before caps]. destruct r as [|c r]; [reflexivity|].
    cbn [cset_mem ci_prefixb]. rewrite Hf.
    destruct (Ascii.eqb (lower c) (lower a)); [|reflexivity].
    rewrite IH. cbn [rest before caps andb length firstn skipn rev].
    rewrite <- app_assoc. reflexivity.
Qed.

Lemma ci_prefixb_length (h s : pystr) :
  ci_prefixb h s = true -> length h <= length s.
Proof.
  revert s. induction h as [|a h IH]; intros s H; simpl; [lia|].
  destruct s as [|c s]; simpl in H; [discriminate|].
  apply andb_true_iff in H. destruct H as [_ H]. apply IH in H. simpl. lia.
Qed.

Lemma greedy_max (p : ascii -> bool) (k : kont) (cp : list (nat * pystr))
  (r1 : pystr) (m : mstate) :
  match r1 with
  | x :: _ => p x = false
  | [] => True
  end ->
  forall ws b,
    Forall (fun c => p c = true) ws ->
    k (MState (rev ws ++ b) r1 cp) = Some m ->
    greedy p k b (ws ++ r1) cp = Some m.
Proof.
  intros Hr1. induction ws as [|y ws IH]; simpl; intros b Hws Hk.
  - destruct r1 as [|x r1]; simpl; [exact Hk|]. rewrite Hr1. exact Hk.
  - inversion Hws as [|? ? Hy Hws']; subst. rewrite Hy.
    rewrite (IH (y :: b) Hws'); [reflexivity|].
    rewrite <- app_assoc in Hk. exact Hk.
Qed.

Lemma greedy_backoff (p : ascii -> bool) (k : kont) (cp : list (nat * pystr))
  (x : ascii) (m : mstate) :
  p x = true ->
  forall ws b,
    Forall (fun c => p c = true) ws ->
    k (MState (x :: rev ws ++ b) [] cp) = None ->
    k (MState (rev ws ++ b) [x] cp) = Some m ->
    greedy p k b (ws ++ [x]) cp = Some m.
Proof.
  intros Hx. induction ws as [|y ws IH]; simpl; intros b Hws Hnone Hk.
  - rewrite Hx, Hnone. exact Hk.
  - inversion Hws as [|? ? Hy Hws']; subst. rewrite Hy.
    rewrite <- !app_assoc in *. simpl in *.
    rewrite (IH (y :: b) Hws' Hnone Hk). reflexivity.
Qed.

Section Body.

Variable ending : regex.
Variable stop : pystr -> bool.
Hypothesis Hends : ends_body IGNORECASE_DOTALL ending stop.
Hypothesis Hstop_nil : stop [] = true.

(** The body is extended one character at a time until the text ahead
    ends it. *)
Lemma lazy_until (b2 : pystr) (c : ascii) (r' : pystr) :
  forall r done,
    r' = done ++ r ->
    exists m,
      lazy (cset_mem IGNORECASE_DOTALL CDot)
        (fun s' =>
           rmatch IGNORECASE_DOTALL ending Some
             (MState (before s') (rest s')
                (set_cap 1 (consumed (MState b2 (c :: r') []) s') (caps s'))))
        (rev done ++ c :: b2) r []
      = Some m
      /\ group 1 m = c :: done ++ take_until stop r.
Proof.
  induction r as [|x r IH]; intros done Hsplit.
  - cbn [lazy before rest caps].
    match goal with |- context [rmatch IGNORECASE_DOTALL ending Some ?s] =>
      pose proof (Hends s) as Hs; destruct (rmatch IGNORECASE_DOTALL ending Some s) as [m|] eqn:Em
    end; cbn [rest caps] in Hs.
    + destruct Hs as [_ Hcaps]. exists m. split; [reflexivity|].
      unfold group. rewrite Hcaps. simpl get_cap.
      cbn [take_until]. rewrite Hstop_nil, app_nil_r.
      subst r'.
      apply (consumed_app (c :: done) []).
    + congruence.
  - cbn [lazy before rest caps].
    match goal with |- context [rmatch IGNORECASE_DOTALL ending Some ?s] =>
      pose proof (Hends s) as Hs; destruct (rmatch IGNORECASE_DOTALL ending Some s) as [m|] eqn:Em
    end; cbn [rest caps] in Hs.
    + destruct Hs as [Hst Hcaps]. exists m. split; [reflexivity|].
      unfold group. rewrite Hcaps. simpl get_cap.
      cbn [take_until]. rewrite Hst, app_nil_r. subst r'.
      apply (consumed_app (c :: done) (x :: r)).
    + cbn [orelse cset_mem dotall IGNORECASE_DOTALL orb].
      destruct (IH (done ++ [x])) as (m & Hm & Hg).
      { rewrite <- app_assoc. exact Hsplit. }
      rewrite rev_app_distr in Hm. cbn [rev app] in Hm.
      exists m. split; [exact Hm|].
      rewrite Hg. cbn [take_until]. rewrite Hs, <- app_assoc. reflexivity.
Qed.


Lemma body_from (b : pystr) (c : ascii) (r : pystr) :
  exists m,
    rmatch IGNORECASE_DOTALL (body_then_ending ending) Some (MState b (c :: r) []) = Some m
    /\ group 1 m = c :: take_until stop r.
Proof.
  unfold body_then_ending, RPlusLazy.
  cbn [rmatch rest before caps cset_mem dotall IGNORECASE_DOTALL orb].
  apply (lazy_until b c r r []). reflexivity.
Qed.

(** After the header: whitespace is skipped as far as it goes, and given
    back only when nothing else follows. *)
Lemma body_after_spec (b after : pystr) :
  option_map (group 1)
    (rmatch IGNORECASE_DOTALL (RStar CSpace @@ body_then_ending ending)%re Some
       (MState b after []))
  = body_after stop after.
Proof.
  cbn [rmatch rest before caps].
  change (rmatch IGNORECASE_DOTALL (RGroup 1 (RPlusLazy CDot))
            (rmatch IGNORECASE_DOTALL ending Some))
    with (rmatch IGNORECASE_DOTALL (body_then_ending ending) Some).
  unfold body_after.
  destruct (lstrip_split after) as (w & Hw & Hsp).
  pose proof (lstrip_no_lead after) as Hlead.
  destruct (lstrip after) as [|c r1].
  - rewrite app_nil_r in Hw. subst w.
    destruct (rev after) as [|x t] eqn:E.
    + apply (f_equal (@rev ascii)) in E. rewrite rev_involutive in E.
      subst after. reflexivity.
    + apply (f_equal (@rev ascii)) in E. rewrite rev_involutive in E.
      simpl in E. subst after.
      destruct (body_from (rev (rev t) ++ b) x []) as (m & Hm & Hg).
      apply Forall_app in Hsp. destruct Hsp as [Hsp Hx].
      inversion Hx; subst.
      rewrite (greedy_backoff _ _ _ x m); auto.
      simpl. rewrite Hg. simpl. rewrite Hstop_nil. reflexivity.
  - destruct (body_from (rev w ++ b) c r1) as (m & Hm & Hg).
    rewrite Hw. rewrite (greedy_max _ _ _ (c :: r1) m); auto.
    simpl. rewrite Hg. reflexivity.
Qed.

Variable hdr : pystr.
Hypothesis Hhdr : hdr <> [].

Lemma match_here_section (text b : pystr) :
  option_map (group 1) (match_here IGNORECASE_DOTALL (section_pattern hdr ending) b text)
  = if ci_prefixb hdr text
    then body_after stop (skipn (length hdr) text)
    else None.
Proof.
  unfold match_here, section_pattern.
  change (rmatch IGNORECASE_DOTALL (lit_chars hdr @@ RStar CSpace @@ body_then_ending ending)
            Some (MState b text []))
    with (rmatch IGNORECASE_DOTALL (lit_chars hdr)
            (rmatch IGNORECASE_DOTALL (RStar CSpace @@ body_then_ending ending)%re Some)
            (MState b text [])).
  rewrite rmatch_lit by reflexivity. cbn [rest before caps].
  destruct (ci_prefixb hdr text); [apply body_after_spec | reflexivity].
Qed.

Lemma header_needs_room (text : pystr) :
  length text < length hdr ->
  forall b, search_from IGNORECASE_DOTALL (section_pattern hdr ending) b text = None.
Proof.
  induction text as [|c text IH]; intros Hlen b; cbn [search_from].
  - pose proof (match_here_section [] b) as Hm.
    destruct (ci_prefixb hdr []) eqn:E.
    + apply ci_prefixb_length in E. lia.
    + destruct (match_here IGNORECASE_DOTALL (section_pattern hdr ending) b []);
        [discriminate | reflexivity].
  - pose proof (match_here_section (c :: text) b) as Hm.
    destruct (ci_prefixb hdr (c :: text)) eqn:E.
    + apply ci_prefixb_length in E. lia.
    + destruct (match_here IGNORECASE_DOTALL (section_pattern hdr ending) b (c :: text));
        [discriminate|].
      cbn [orelse]. apply IH. simpl in Hlen. lia.
Qed.

Lemma body_after_none (after : pystr) :
  body_after stop after = None -> after = [].
Proof.
  unfold body_after. destruct (lstrip after); [|discriminate].
  destruct (rev after) eqn:E; [|discriminate].
  intros _. apply (f_equal (@rev ascii)) in E. rewrite rev_involutive in E.
  exact E.
Qed.

(** The search finds the body after the first occurrence of the header. *)
Lemma search_locate (text : pystr) :
  forall b,
    option_map (group 1) (search_from IGNORECASE_DOTALL (section_pattern hdr ending) b text)
    = locate hdr stop text.
Proof.
  induction text as [|c text IH]; intros b; cbn [search_from locate].
  - pose proof (match_here_section [] b) as Hm.
    destruct (ci_prefixb hdr []) eqn:E.
    + apply ci_prefixb_length in E. exfalso.
      apply Hhdr, length_zero_iff_nil. simpl in E. lia.
    + destruct (match_here IGNORECASE_DOTALL (section_pattern hdr ending) b []);
        [discriminate | reflexivity].
  - pose proof (match_here_section (c :: text) b) as Hm.
    destruct (ci_prefixb hdr (c :: text)) eqn:E.
    + destruct (match_here IGNORECASE_DOTALL (section_pattern hdr ending) b (c :: text))
        as [m|]; cbn [orelse]; [exact Hm|].
      rewrite <- Hm. symmetry in Hm. apply body_after_none in Hm.
      apply (f_equal (@length ascii)) in Hm. rewrite length_skipn in Hm.
      rewrite header_needs_room; [reflexivity|].
      apply ci_prefixb_length in E. cbn [length] in E, Hm. lia.
    + destruct (match_here IGNORECASE_DOTALL (section_pattern hdr ending) b (c :: text));
        [discriminate|].
      cbn [orelse]. apply IH.
Qed.

End Body.

(** ** The two ways a section body ends *)

Lemma newline_ignoring_case (c : ascii) :
  cset_mem IGNORECASE_DOTALL (CChar nl) c = Ascii.eqb c nl.
Proof. by_cases_on_char c. Qed.

Lemma colon_ignoring_case (c : ascii) :
  cset_mem IGNORECASE_DOTALL (CChar ":") c = Ascii.eqb c ":".
Proof. by_cases_on_char c. Qed.

Lemma label_class (c : ascii) :
  cset_mem IGNORECASE_DOTALL (CUnion AZ (CChar " ")) c = letter_or_space c.
Proof. by_cases_on_char c. Qed.

Lemma label_not_colon (c : ascii) :
  letter_or_space c = true -> Ascii.eqb c ":" = false.
Proof. by_cases_on_char c. Qed.

(** [(?:\n\n|\Z)] holds where a blank line starts or the text ends. *)
Lemma ends_blank : ends_body IGNORECASE_DOTALL (RAlt blank_line REnd) blank_or_end.
Proof.
  intros [b r cp]. unfold blank_line.
  cbn [rmatch lit_chars rest before caps].
  destruct r as [|c1 r]; [simpl; auto|].
  rewrite newline_ignoring_case.
  destruct r as [|c2 r].
  - destruct (Ascii.eqb c1 nl); reflexivity.
  - rewrite newline_ignoring_case. cbn [blank_or_end].
    destruct (Ascii.eqb c1 nl); [|reflexivity].
    destruct (Ascii.eqb c2 nl); simpl; auto.
Qed.

(** The greedy run of [[A-Z ]+] followed by the colon: the colon is not in
    the class, so it has to come right after the longest run. *)
Lemma greedy_label (cp : list (nat * pystr)) :
  forall r b,
    succeeds
      (greedy (cset_mem IGNORECASE_DOTALL (CUnion AZ (CChar " ")))
         (rmatch IGNORECASE_DOTALL (RSet (CChar ":")) Some) b r cp)
    = label_colon letter_or_space true r.
Proof.
  induction r as [|y r IH]; intros b; [reflexivity|].
  cbn [greedy label_colon]. rewrite label_class.
  destruct (letter_or_space y) eqn:E.
  - specialize (IH (y :: b)).
    destruct (greedy _ _ (y :: b) r cp); cbn [orelse]; [exact IH|].
    cbn [rmatch rest]. rewrite colon_ignoring_case, (label_not_colon y E).
    exact IH.
  - cbn [rmatch rest]. rewrite colon_ignoring_case.
    destruct (Ascii.eqb y ":"); reflexivity.
Qed.

Lemma header_line_ahead (b r : pystr) (cp : list (nat * pystr)) :
  succeeds
    (rmatch IGNORECASE_DOTALL
       (RSet (CChar nl) @@ RPlus (CUnion AZ (CChar " ")) @@ RSet (CChar ":"))%re
       Some (MState b r cp))
  = match r with
    | c :: r1 => Ascii.eqb c nl && label_colon letter_or_space false r1
    | [] => false
    end.
Proof.
  unfold RPlus. destruct r as [|c r1]; [reflexivity|].
  cbn [rmatch rest before caps]. rewrite newline_ignoring_case.
  destruct (Ascii.eqb c nl); [|reflexivity].
  destruct r1 as [|x r2]; [reflexivity|].
  cbn [label_colon andb]. rewrite label_class.
  destruct (letter_or_space x); [|reflexivity].
  apply greedy_label.
Qed.

(** [(?=\n[A-Z ]+:|$)] holds before a line that starts like a header, at
    the end of the text and before the newline that ends the text. *)
Lemma ends_header :
  ends_body IGNORECASE_DOTALL next_header_or_end (header_or_end letter_or_space).
Proof.
  intros [b r cp]. unfold next_header_or_end.
  pose proof (header_line_ahead b r cp) as H.
  remember (RSet (CChar nl) @@ RPlus (CUnion AZ (CChar " ")) @@ RSet (CChar ":"))%re
    as header_line eqn:EA.
  cbn [rmatch rest caps].
  destruct (rmatch IGNORECASE_DOTALL header_line Some (MState b r cp))
    as [m|]; cbn [succeeds orelse] in *.
  - split; [|reflexivity].
    destruct r as [|c r1]; [reflexivity|]. cbn [header_or_end].
    symmetry in H. apply andb_true_iff in H. destruct H as [-> ->]. reflexivity.
  - unfold at_eol. cbn [rest multiline IGNORECASE_DOTALL orb].
    destruct r as [|c r1]; [split; reflexivity|]. cbn [header_or_end].
    rewrite andb_comm in H.
    destruct (Ascii.eqb c nl).
    + rewrite andb_true_r in H. rewrite <- H. cbn [andb orb].
      destruct r1; [split; reflexivity | reflexivity].
    + reflexivity.
Qed.

Lemma locate_needs_header (hdr : pystr) (stop : pystr -> bool) (text body : pystr) :
  locate hdr stop text = Some body ->
  exists pre post, text = pre ++ post /\ ci_prefixb hdr post = true.
Proof.
  induction text as [|c text IH]; cbn [locate].
  - destruct (ci_prefixb hdr []) eqn:E; [|discriminate].
    intros _. exists [], []. split; [reflexivity | exact E].
  - destruct (ci_prefixb hdr (c :: text)) eqn:E.
    + intros _. exists [], (c :: text). split; [reflexivity | exact E].
    + intros H. destruct (IH H) as (pre & post & -> & Hp).
      exists (c :: pre), post. split; [reflexivity | exact Hp].
Qed.

(** C6, as the code has it: each of the three patterns that locate a
    section by its header finds the body after the first occurrence of the
    header, read without regard to case; the body starts at the first
    character after the header that is not whitespace and is never empty;
    the SPECIMEN SUBMITTED body runs to the first blank line or to the end
    of the text, a header line does not end it; the CLINICAL IMPRESSION and
    MICROSCOPIC DESCRIPTION bodies run to the first newline followed by
    letters of either case or spaces and a colon, or to the end of the text
    or the newline that ends it, a blank line does not end them; without
    the header nothing is located. *)
Theorem C6_section_bodies :
  forall text,
    specimen_section text
    = option_map strip (locate (py "SPECIMEN SUBMITTED:") blank_or_end text)
    /\ clinical_impression_text text
       = option_map strip
           (locate (py "CLINICAL IMPRESSION:") (header_or_end letter_or_space)
              text)
    /\ micro_desc_text text
       = option_map strip
           (locate (py "MICROSCOPIC DESCRIPTION:")
              (header_or_end letter_or_space) text).
Proof.
  intros text.
  unfold specimen_section, clinical_impression_text, micro_desc_text, re_search.
  repeat split.
  - rewrite <- (search_locate _ _ ends_blank eq_refl (py "SPECIMEN SUBMITTED:"))
      with (b := []) by discriminate.
    unfold re_specimen_section, lit, section_pattern, body_then_ending.
    destruct (search_from _ _ _ _); reflexivity.
  - rewrite <- (search_locate _ _ ends_header eq_refl (py "CLINICAL IMPRESSION:"))
      with (b := []) by discriminate.
    unfold re_clinical_section, lit, section_pattern, body_then_ending.
    destruct (search_from _ _ _ _); reflexivity.
  - rewrite <- (search_locate _ _ ends_header eq_refl
                  (py "MICROSCOPIC DESCRIPTION:"))
      with (b := []) by discriminate.
    unfold re_micro_section, lit, section_pattern, body_then_ending.
    destruct (search_from _ _ _ _); reflexivity.
Qed.

(** ** Reports without specimens, and the rows of the others *)

Lemma micro_row_tag (b r : pystr) (m : mstate) :
  match_here IGNORECASE_DOTALL_MULTILINE re_micro_row b r = Some m ->
  exists c p, group 1 m = [c; p].
Proof.
  intros H. apply match_here_sound in H.
  unfold re_micro_row, RPlus in H. inv_matches.
  do 2 eexists. unfold group. cbn [caps]. simpl get_cap.
  match goal with
  | |- consumed (MState _ (?x :: ?y :: _) _) _ = _ => apply (consumed_app [x; y])
  end.
Qed.

Lemma loop_raises {A} (body : DataFrame -> A -> result DataFrame) (e : exn)
  (l : list A) (df : DataFrame) :
  (forall x, In x l -> body df x = Raise e) ->
  for_each l body df = match l with [] => Ok df | _ :: _ => Raise e end.
Proof.
  destruct l as [|x l]; simpl; intros H; [reflexivity|].
  rewrite (H x (or_introl eq_refl)). reflexivity.
Qed.

Lemma loc_setitem_without_column (df : DataFrame) (id : ustr) (upd : row -> row) :
  has_column df "Specimen Identifier" = false ->
  loc_setitem df id upd = Raise (KeyError "Specimen Identifier").
Proof.
  intros H. unfold loc_setitem, getitem_identifier. rewrite H. reflexivity.
Qed.

Lemma section_match_needs_text (hdr : pystr) (ending : regex) (b r : pystr)
  (m : mstate) :
  match_here IGNORECASE_DOTALL (section_pattern hdr ending) b r = Some m ->
  ci_prefixb hdr r = true /\ skipn (length hdr) r <> [].
Proof.
  unfold match_here, section_pattern.
  change (rmatch IGNORECASE_DOTALL (lit_chars hdr @@ RStar CSpace @@ body_then_ending ending)
            Some (MState b r []))
    with (rmatch IGNORECASE_DOTALL (lit_chars hdr)
            (rmatch IGNORECASE_DOTALL (RStar CSpace @@ body_then_ending ending)%re Some)
            (MState b r [])).
  rewrite rmatch_lit by reflexivity. cbn [rest before caps].
  destruct (ci_prefixb hdr r); [|discriminate].
  destruct (skipn (length hdr) r); [discriminate|].
  intros _. split; [reflexivity | discriminate].
Qed.

(** The pattern of line 110 finds a section only where the pattern of
    line 41 finds one. *)
Lemma mapping_needs_section (text : pystr) :
  specimen_section text = None -> specimen_mapping text = [].
Proof.
  intros Hsec. unfold specimen_mapping.
  destruct (re_search IGNORECASE_DOTALL re_submitted_until_diagnosis text) as [m|] eqn:E;
    [|reflexivity].
  exfalso. unfold re_search in E.
  change re_submitted_until_diagnosis
    with (section_pattern (py "SPECIMEN SUBMITTED:")
            (RLook (RAlt blank_line (lit "DIAGNOSIS:")))) in E.
  assert (G : forall r b m',
             search_from IGNORECASE_DOTALL
               (section_pattern (py "SPECIMEN SUBMITTED:")
                  (RLook (RAlt blank_line (lit "DIAGNOSIS:")))) b r = Some m' ->
             search_from IGNORECASE_DOTALL
               (section_pattern (py "SPECIMEN SUBMITTED:") (RAlt blank_line REnd))
               b r <> None).
  { assert (Hhere : forall r b m',
               match_here IGNORECASE_DOTALL
                 (section_pattern (py "SPECIMEN SUBMITTED:")
                    (RLook (RAlt blank_line (lit "DIAGNOSIS:")))) b r = Some m' ->
               match_here IGNORECASE_DOTALL
                 (section_pattern (py "SPECIMEN SUBMITTED:")
                    (RAlt blank_line REnd)) b r <> None).
    { intros r b m' H. apply section_match_needs_text in H.
      destruct H as [Hp Hs].
      pose proof (match_here_section _ _ ends_blank eq_refl
                    (py "SPECIMEN SUBMITTED:") r b) as Hm.
      rewrite Hp in Hm. intros Hnone. rewrite Hnone in Hm. simpl in Hm.
      symmetry in Hm. apply body_after_none in Hm. contradiction. }
    induction r as [|c r IH]; intros b m' H; cbn [search_from] in *.
    - destruct (match_here IGNORECASE_DOTALL (section_pattern _ (RLook _)) b []) eqn:Em;
        [|discriminate].
      apply Hhere in Em.
      destruct (match_here IGNORECASE_DOTALL (section_pattern _ (RAlt _ _)) b []);
        [discriminate | congruence].
    - destruct (match_here IGNORECASE_DOTALL (section_pattern _ (RLook _)) b (c :: r)) eqn:Em.
      + apply Hhere in Em.
        destruct (match_here IGNORECASE_DOTALL (section_pattern _ (RAlt _ _)) b (c :: r));
          [discriminate | congruence].
      + cbn [orelse] in H. apply IH in H.
        destruct (match_here IGNORECASE_DOTALL (section_pattern _ (RAlt _ _)) b (c :: r));
          [discriminate | exact H]. }
  apply G in E. unfold specimen_section, re_search in Hsec.
  change re_specimen_section
    with (section_pattern (py "SPECIMEN SUBMITTED:") (RAlt blank_line REnd))
    in Hsec.
  destruct (search_from IGNORECASE_DOTALL (section_pattern _ (RAlt _ _)) [] text); congruence.
Qed.

(** X7: a report in which the pattern of line 41 finds no SPECIMEN
    SUBMITTED section comes back as an empty frame only when it has neither
    a diagnosis span nor a MICROSCOPIC DESCRIPTION section; otherwise the
    run ends with KeyError. *)
Lemma without_specimens (text : pystr) :
  specimen_section text = None ->
  extract_specimen_details text
  = match diagnosis_spans text, micro_desc_text text with
    | [], None => Ok (clean_newlines (initial_frame []))
    | _, _ => Raise (KeyError "Specimen Identifier")
    end.
Proof.
  intros Hsec.
  pose proof (mapping_needs_section text Hsec) as Hmap.
  unfold extract_specimen_details, extract_accession_and_specimens_df,
    specimen_records.
  rewrite Hsec. cbn [bind pd_DataFrame]. fold (initial_frame []).
  unfold add_diagnosis, diagnosis_spans.
  rewrite (loop_raises _ (KeyError "Specimen Identifier")).
  2:{ intros m _. apply loc_setitem_without_column. reflexivity. }
  destruct (re_findall IGNORECASE_DOTALL re_diagnosis text) as [|d ds]; [|reflexivity].
  cbn [map bind]. unfold add_microscopic_description.
  destruct (micro_desc_text text) as [body|].
  - destruct (re_findall IGNORECASE_DOTALL_MULTILINE re_micro_row body) as [|m ms] eqn:E.
    + reflexivity.
    + rewrite (loop_raises _ (KeyError "Specimen Identifier")); [reflexivity|].
      intros x Hx. rewrite <- E in Hx. apply findall_sound in Hx.
      destruct Hx as (pre & post & _ & Hx). apply micro_row_tag in Hx.
      destruct Hx as (c & p & ->). reflexivity.
  - cbn [bind]. unfold extract_clinical_impression. rewrite Hmap.
    destruct (clinical_impression_text text) as [body|]; [|reflexivity].
    destruct (impression_identifiers body) as [|t ts]; [reflexivity|].
    rewrite unresolved_tokens_add_nothing; [reflexivity|].
    intros it _. reflexivity.
Qed.

Lemma loc_setitem_keys (df df' : DataFrame) (id : ustr) (upd : row -> row) :
  (forall r, specimen_key (upd r) = specimen_key r) ->
  loc_setitem df id upd = Ok df' ->
  map specimen_key (rows df') = map specimen_key (rows df).
Proof.
  intros Hupd H. apply loc_setitem_rows in H. destruct H as [-> _].
  rewrite map_map. apply map_ext. intros r.
  destruct (ustr_eqb _ _); [apply Hupd | reflexivity].
Qed.

(** X8: the loops assign narrative fields only: the specimens of the
    frame that comes back are those extracted from SPECIMEN SUBMITTED, in
    the same order. *)
Lemma records_follow_specimens (text : pystr) (df : DataFrame) :
  extract_specimen_details text = Ok df ->
  exists records,
    specimen_records text = Ok records
    /\ map specimen_key (rows df) = map specimen_key records.
Proof.
  intros Hrun. apply extract_specimen_details_stages in Hrun.
  destruct Hrun as (records & df2 & df3 & imp & df4 & Hrec & H2 & H3 & Hi & H4 & ->).
  exists records. split; [exact Hrec|].
  set (Inv := fun x : DataFrame =>
                map specimen_key (rows x) = map specimen_key records).
  assert (H0 : Inv (initial_frame records)).
  { unfold Inv. rewrite initial_frame_rows, map_map. reflexivity. }
  assert (Hd : Inv df2).
  { revert H0. eapply (for_each_invariant Inv); [|exact H2].
    intros s m s' _ H Hs. unfold Inv. rewrite <- Hs.
    eapply loc_setitem_keys; [|exact H]. reflexivity. }
  assert (Hm : Inv df3).
  { unfold add_microscopic_description in H3.
    destruct (micro_desc_text text) as [body|]; [|congruence].
    destruct (re_findall IGNORECASE_DOTALL_MULTILINE re_micro_row body) as [|m ms].
    - apply bind_Ok in H3. destruct H3 as (ids & _ & H3).
      revert Hd. eapply (for_each_invariant Inv); [|exact H3].
      intros s x s' _ H Hs. unfold Inv. rewrite <- Hs.
      eapply loc_setitem_keys; [|exact H]. reflexivity.
    - revert Hd. eapply (for_each_invariant Inv); [|exact H3].
      intros s x s' _ H Hs. apply bind_Ok in H. destruct H as (c & _ & H).
      unfold Inv. rewrite <- Hs.
      eapply loc_setitem_keys; [|exact H]. reflexivity. }
  assert (Hc : Inv df4).
  { revert Hm. eapply (for_each_invariant Inv); [|exact H4].
    intros s [k v] s' _ H Hs. unfold Inv. rewrite <- Hs.
    unfold put_impression in H.
    destruct (re_match NOFLAGS valid_identifier_pattern k).
    - eapply loc_setitem_keys; [|exact H]. reflexivity.
    - injection H as <-. simpl. rewrite map_map. reflexivity. }
  unfold Inv in Hc. rewrite <- Hc, clean_newlines_rows, map_map. reflexivity.
Qed.

(** Every key of the dictionary of impressions is one capital letter. *)
Lemma impression_keys (text : pystr) (d : dict) (k v : pystr) :
  extract_clinical_impression text = Ok d ->
  In (k, v) d ->
  exists c, is_upper c = true /\ k = [c].
Proof.
  unfold extract_clinical_impression. intros H Hin.
  apply bind_Ok in H. destruct H as (imp & H & [= <-]).
  apply in_map_iff in Hin. destruct Hin as ([k0 v0] & [= <- _] & Hin).
  cbn [fst].
  assert (Hvalues : forall x, In x (dict_values (specimen_mapping text)) ->
                      exists c, is_upper c = true /\ x = [c]).
  { intros x Hx. unfold dict_values in Hx. apply in_map_iff in Hx.
    destruct Hx as ([a b] & <- & Hx). apply specimen_mapping_entries in Hx.
    destruct Hx as [Hx _]. exact Hx. }
  assert (Hinit : forall a b,
             In (a, b) (initial_impressions (specimen_mapping text)) ->
             exists c, is_upper c = true /\ a = [c]).
  { intros a b Hab. apply Hvalues. eapply initial_impressions_keys. exact Hab. }
  destruct (clinical_impression_text text) as [body|];
    [|injection H as <-; eapply Hinit; exact Hin].
  destruct (impression_identifiers body) as [|t ts].
  - injection H as <-. apply in_map_iff in Hin.
    destruct Hin as ([a b] & [= <- _] & Hin). eapply Hinit. exact Hin.
  - revert k0 v0 Hin.
    eapply (for_each_invariant
              (fun x : dict => forall a b, In (a, b) x ->
                 exists c, is_upper c = true /\ a = [c])); [|exact H|exact Hinit].
    intros s [idx t'] s' _ Hadd Hs a b Hab.
    unfold add_impression in Hadd.
    destruct (dict_mem (specimen_mapping text) (clean_identifier t'));
      [|injection Hadd as <-; eapply Hs; exact Hab].
    apply bind_Ok in Hadd. destruct Hadd as (target & Ht & Hadd).
    apply bind_Ok in Hadd. destruct Hadd as (old & _ & [= <-]).
    apply dict_set_In in Hab. destruct Hab as [Hab|[-> _]]; [eapply Hs; exact Hab|].
    unfold dict_getitem in Ht.
    destruct (dict_get (specimen_mapping text) (clean_identifier t')) eqn:E;
      [|discriminate].
    injection Ht as <-. apply dict_get_In in E. apply Hvalues.
    unfold dict_values. apply in_map_iff. eexists. split; [|exact E]. reflexivity.
Qed.

(** No key of the dictionary has the shape asked for at line 291, so the
    branch that fills matching rows only is never taken: at the end all
    rows carry the same clinical impression. *)
Lemma one_impression_for_all_rows (text : pystr) (df : DataFrame) :
  extract_specimen_details text = Ok df ->
  forall r1 r2,
    In r1 (rows df) -> In r2 (rows df) ->
    clinical_impression r1 = clinical_impression r2.
Proof.
  intros Hrun. apply extract_specimen_details_stages in Hrun.
  destruct Hrun as (records & df2 & df3 & imp & df4 & _ & H2 & H3 & Hi & H4 & ->).
  assert (Hsame : exists v, Forall (fun r => clinical_impression r = v) (rows df4)).
  { assert (H0 : exists v, Forall (fun r => clinical_impression r = v) (rows df3)).
    { exists []. eapply add_microscopic_Forall; [|exact H3|]; [intros v r Hr; exact Hr|].
      eapply add_diagnosis_Forall; [|exact H2|]; [intros v r Hr; exact Hr|].
      apply initial_frame_no_impression. }
    revert H0.
    eapply (for_each_invariant
              (fun x => exists v, Forall (fun r => clinical_impression r = v) (rows x)));
      [|exact H4].
    intros s [k v] s' Hin Hput _. exists v.
    destruct (impression_keys text imp k v Hi Hin) as (c & _ & ->).
    unfold put_impression in Hput.
    rewrite valid_identifier_rejects_one_character in Hput.
    injection Hput as <-. simpl. apply Forall_map, Forall_forall. reflexivity. }
  destruct Hsame as (v & Hv). rewrite Forall_forall in Hv.
  intros r1 r2 Hr1 Hr2. rewrite clean_newlines_rows in Hr1, Hr2.
  apply in_map_iff in Hr1, Hr2.
  destruct Hr1 as (a & <- & Ha). destruct Hr2 as (b & <- & Hb).
  simpl. rewrite (Hv a Ha), (Hv b Hb). reflexivity.
Qed.

(** ** Reports with specimens always come back *)

Lemma for_each_total {A S} (Inv : S -> Prop) (body : S -> A -> result S)
  (l : list A) :
  (forall s x, In x l -> Inv s -> exists s', body s x = Ok s' /\ Inv s') ->
  forall s, Inv s -> exists s', for_each l body s = Ok s' /\ Inv s'.
Proof.
  induction l as [|x l IH]; simpl; intros Hbody s Hs; [eauto|].
  destruct (Hbody s x (or_introl eq_refl) Hs) as (s1 & H1 & Hs1).
  rewrite H1. simpl. apply IH; [|exact Hs1].
  intros s0 y Hy. apply Hbody. right. exact Hy.
Qed.

Lemma loc_setitem_total (df : DataFrame) (id : ustr) (upd : row -> row) :
  has_column df "Specimen Identifier" = true ->
  exists df',
    loc_setitem df id upd = Ok df'
    /\ has_column df' "Specimen Identifier" = true.
Proof.
  intros H. unfold loc_setitem, getitem_identifier. rewrite H. simpl.
  eexists. split; [reflexivity | exact H].
Qed.

Lemma setitem_keeps_column (df : DataFrame) (label other : string)
  (upd : row -> row) :
  has_column df label = true -> has_column (setitem df other upd) label = true.
Proof.
  unfold setitem, has_column. simpl. intros H.
  destruct (existsb (String.eqb other) (columns df)); [exact H|].
  rewrite existsb_app, H. reflexivity.
Qed.

Lemma initial_impressions_cover (mapping : dict) (v : pystr) :
  In v (dict_values mapping) ->
  dict_get (initial_impressions mapping) v <> None.
Proof.
  unfold initial_impressions. generalize (@nil (pystr * pystr)) as d.
  induction (dict_values mapping) as [|x l IH]; simpl; intros d H; [contradiction|].
  destruct H as [->|H]; [|apply IH; exact H].
  clear IH.
  assert (G : forall l d, dict_get d v <> None ->
             dict_get (fold_left (fun d s => dict_set d s []) l d) v <> None).
  { clear. induction l as [|y l IH]; simpl; intros d H; [exact H|].
    apply IH. rewrite dict_get_set. destruct (pystr_eqb v y); [discriminate | exact H]. }
  apply G. rewrite dict_get_set, pystr_eqb_refl. discriminate.
Qed.

Lemma extract_clinical_impression_total (text : pystr) :
  exists d, extract_clinical_impression text = Ok d.
Proof.
  unfold extract_clinical_impression.
  destruct (clinical_impression_text text) as [body|]; [|simpl; eauto].
  destruct (impression_identifiers body) as [|t ts]; [simpl; eauto|].
  destruct (for_each_total
              (fun imp : dict =>
                 forall v, In v (dict_values (specimen_mapping text)) ->
                           dict_get imp v <> None)
              (add_impression (specimen_mapping text) body (t :: ts))
              (enumerate 0 (t :: ts)))
    with (s := initial_impressions (specimen_mapping text))
    as (imp & Himp & _).
  - intros imp [idx t'] _ Hcover. unfold add_impression, dict_mem, dict_getitem.
    destruct (dict_get (specimen_mapping text) (clean_identifier t'))
      as [target|] eqn:E; [|eauto].
    simpl. apply dict_get_In in E.
    assert (Ht : In target (dict_values (specimen_mapping text))).
    { unfold dict_values. apply in_map_iff. eexists. split; [|exact E]. reflexivity. }
    destruct (dict_get imp target) as [old|] eqn:Eold;
      [|exfalso; eapply Hcover; eassumption].
    simpl. eexists. split; [reflexivity|].
    intros v Hv. rewrite dict_get_set.
    destruct (pystr_eqb v target); [discriminate | apply Hcover; exact Hv].
  - intros v Hv. apply initial_impressions_cover. exact Hv.
  - rewrite Himp. simpl. eauto.
Qed.

(** With at least one specimen extracted the run ends with a frame: spans
    and tokens that resolve to no specimen change nothing. *)
Lemma with_specimens_returns (text : pystr) (records : list row) :
  specimen_records text = Ok records ->
  records <> [] ->
  exists df, extract_specimen_details text = Ok df.
Proof.
  intros Hrec Hne.
  unfold extract_specimen_details, extract_accession_and_specimens_df.
  rewrite Hrec. cbn [bind]. fold (initial_frame records).
  set (Inv := fun x : DataFrame => has_column x "Specimen Identifier" = true).
  assert (H0 : Inv (initial_frame records)).
  { unfold Inv, initial_frame. do 3 apply setitem_keeps_column.
    destruct records; [congruence | reflexivity]. }
  destruct (for_each_total Inv
              (fun df m =>
                 loc_setitem df (widen (group 1 m))
                   (set_diagnosis (strip (group 3 m))))
              (re_findall IGNORECASE_DOTALL re_diagnosis text)) with (s := initial_frame records)
    as (df2 & H2 & Hd); [|exact H0|].
  { intros s m _ Hs. apply loc_setitem_total. exact Hs. }
  unfold add_diagnosis. rewrite H2. cbn [bind].
  assert (H3 : exists df3, add_microscopic_description text df2 = Ok df3 /\ Inv df3).
  { unfold add_microscopic_description.
    destruct (micro_desc_text text) as [body|]; [|eauto].
    destruct (re_findall IGNORECASE_DOTALL_MULTILINE re_micro_row body) as [|m ms] eqn:E.
    - unfold getitem_identifier. rewrite Hd. cbn [bind].
      apply for_each_total; [|exact Hd].
      intros s x _ Hs. apply loc_setitem_total. exact Hs.
    - rewrite <- E. apply for_each_total; [|exact Hd].
      intros s x Hx Hs. apply findall_sound in Hx.
      destruct Hx as (pre & post & _ & Hx). apply micro_row_tag in Hx.
      destruct Hx as (c & p & ->). cbn [first_char bind].
      apply loc_setitem_total. exact Hs. }
  destruct H3 as (df3 & H3 & Hm). rewrite H3. cbn [bind].
  destruct (extract_clinical_impression_total text) as (imp & Hi).
  rewrite Hi. cbn [bind].
  destruct (for_each_total Inv put_impression imp) with (s := df3)
    as (df4 & H4 & _); [|exact Hm|].
  { intros s [k v] _ Hs. unfold put_impression.
    destruct (re_match NOFLAGS valid_identifier_pattern k).
    - apply loc_setitem_total. exact Hs.
    - eexists. split; [reflexivity|]. apply setitem_keeps_column. exact Hs. }
  rewrite H4. cbn [bind]. eauto.
Qed.

(** * Further properties of the module *)

(** ** What the loops leave alone *)

Lemma loc_setitem_projection {A} (g : row -> A) (df df' : DataFrame)
  (id : ustr) (upd : row -> row) :
  (forall r, g (upd r) = g r) ->
  loc_setitem df id upd = Ok df' ->
  map g (rows df') = map g (rows df).
Proof.
  intros Hupd H. apply loc_setitem_rows in H. destruct H as [-> _].
  rewrite map_map. apply map_ext. intros r.
  destruct (ustr_eqb _ _); [apply Hupd | reflexivity].
Qed.

(** A cell that none of the three assignments touches is, in the frame
    that comes back, what it was in the extracted records. *)
Lemma rows_keep_projection {A} (g : row -> A) (text : pystr) (df : DataFrame) :
  (forall v r, g (set_diagnosis v r) = g r) ->
  (forall v r, g (set_microscopic v r) = g r) ->
  (forall v r, g (set_impression v r) = g r) ->
  extract_specimen_details text = Ok df ->
  exists records,
    specimen_records text = Ok records /\ map g (rows df) = map g records.
Proof.
  intros Gd Gm Gi Hrun. apply extract_specimen_details_stages in Hrun.
  destruct Hrun as (records & df2 & df3 & imp & df4 & Hrec & H2 & H3 & Hi & H4 & ->).
  exists records. split; [exact Hrec|].
  set (Inv := fun x : DataFrame => map g (rows x) = map g records).
  assert (H0 : Inv (initial_frame records)).
  { unfold Inv. rewrite initial_frame_rows, map_map. apply map_ext.
    intros r. rewrite Gi, Gm, Gd. reflexivity. }
  assert (Hd : Inv df2).
  { revert H0. eapply (for_each_invariant Inv); [|exact H2].
    intros s m s' _ H Hs. unfold Inv. rewrite <- Hs.
    eapply loc_setitem_projection; [|exact H]. apply Gd. }
  assert (Hm : Inv df3).
  { unfold add_microscopic_description in H3.
    destruct (micro_desc_text text) as [body|]; [|congruence].
    destruct (re_findall IGNORECASE_DOTALL_MULTILINE re_micro_row body) as [|m ms].
    - apply bind_Ok in H3. destruct H3 as (ids & _ & H3).
      revert Hd. eapply (for_each_invariant Inv); [|exact H3].
      intros s x s' _ H Hs. unfold Inv. rewrite <- Hs.
      eapply loc_setitem_projection; [|exact H]. apply Gm.
    - revert Hd. eapply (for_each_invariant Inv); [|exact H3].
      intros s x s' _ H Hs. apply bind_Ok in H. destruct H as (c & _ & H).
      unfold Inv. rewrite <- Hs.
      eapply loc_setitem_projection; [|exact H]. apply Gm. }
  assert (Hc : Inv df4).
  { revert Hm. eapply (for_each_invariant Inv); [|exact H4].
    intros s [k v] s' _ H Hs. unfold Inv. rewrite <- Hs.
    unfold put_impression in H.
    destruct (re_match NOFLAGS valid_identifier_pattern k).
    - eapply loc_setitem_projection; [|exact H]. apply Gi.
    - injection H as <-. simpl. rewrite map_map. apply map_ext.
      intros r. apply Gi. }
  unfold Inv in Hc. rewrite <- Hc, clean_newlines_rows, map_map.
  apply map_ext. intros r. rewrite Gi, Gm, Gd. reflexivity.
Qed.

(** ** Lines *)

Lemma split_nl_nonempty (s : pystr) : split_nl s <> [].
Proof.
  induction s as [|c s IH]; simpl; [discriminate|].
  destruct (Ascii.eqb c nl); [discriminate|].
  destruct (split_nl s); discriminate.
Qed.

Lemma split_nl_lines (s : pystr) :
  Forall (Forall (fun c => c <> nl)) (split_nl s).
Proof.
  induction s as [|c s IH]; simpl; [repeat constructor|].
  destruct (Ascii.eqb c nl) eqn:E; [constructor; [constructor | exact IH]|].
  apply Ascii.eqb_neq in E.
  destruct (split_nl s) as [|l ls]; [repeat constructor; exact E|].
  inversion IH; subst. constructor; [constructor; assumption | assumption].
Qed.

Lemma split_nl_one_line (s : pystr) :
  Forall (fun c => c <> nl) s -> split_nl s = [s].
Proof.
  induction 1 as [|c s Hc Hs IH]; simpl; [reflexivity|].
  apply Ascii.eqb_neq in Hc. rewrite Hc, IH. reflexivity.
Qed.

Lemma first_line_no_newline (s : pystr) :
  Forall (fun c => c <> nl) (hd [] (split_nl s)).
Proof.
  pose proof (split_nl_lines s) as H.
  destruct (split_nl s); [constructor | inversion H; assumption].
Qed.

Lemma strip_single_trimmed_line (s : pystr) :
  Forall (fun c => c <> nl) s -> single_trimmed_line (strip s).
Proof.
  intros H. split; [apply strip_Forall; exact H|].
  split; [apply strip_no_lead | apply strip_no_trail].
Qed.

Lemma remove_text_after_newline_line (s : pystr) :
  single_trimmed_line (remove_text_after_newline s).
Proof. apply strip_single_trimmed_line, first_line_no_newline. Qed.

Lemma remove_text_after_newline_id (s : pystr) :
  single_trimmed_line s -> remove_text_after_newline s = s.
Proof.
  intros (Hnl & Hl & Ht). unfold remove_text_after_newline.
  rewrite (split_nl_one_line s Hnl). simpl. apply strip_id; assumption.
Qed.

(** ** The extracted records *)

Lemma chr_Ok (n : N) (x : ustr) : chr n = Ok x -> x = [n].
Proof.
  unfold chr. destruct (n <=? 1114111)%N; [intros [= <-]; reflexivity|discriminate].
Qed.

(** When the loop of lines 63-72 ends without exception it has added one
    record per line. *)
Lemma numbered_records_Ok (acc : option pystr) (lines : list pystr) :
  forall start data recs,
    for_each (enumerate start lines)
      (fun data '(index, specimen_desc) =>
         ident <- chr (64 + N.of_nat index) ;;
         Ok (data ++ [record acc ident (strip specimen_desc)]))
      data
    = Ok recs ->
    recs
    = data
      ++ map (fun it => record acc [(64 + N.of_nat (fst it))%N] (strip (snd it)))
           (enumerate start lines).
Proof.
  induction lines as [|l lines IH]; intros start data recs H.
  - simpl in H. injection H as <-. simpl. rewrite app_nil_r. reflexivity.
  - cbn [enumerate for_each] in H. apply bind_Ok in H.
    destruct H as (data1 & H1 & H). apply bind_Ok in H1.
    destruct H1 as (ident & Hchr & [= <-]). apply chr_Ok in Hchr. subst ident.
    rewrite (IH _ _ _ H). cbn [enumerate map fst snd].
    rewrite <- app_assoc. reflexivity.
Qed.

(** Every extracted record carries the accession number of the report, a
    description that is one trimmed line, and an identifier of one
    character. *)
Lemma specimen_records_shape (text : pystr) (recs : list row) :
  specimen_records text = Ok recs ->
  Forall (fun r =>
            accession_no r = accession_of text
            /\ single_trimmed_line (specimen_description r)
            /\ length (specimen_identifier r) = 1)
    recs.
Proof.
  unfold specimen_records.
  destruct (specimen_section text) as [section|]; [|intros [= <-]; constructor].
  destruct (re_findall NOFLAGS re_lettered section) as [|m ms] eqn:E.
  - intros H. unfold numbered_records in H. apply numbered_records_Ok in H.
    subst recs. simpl. apply Forall_map, Forall_forall. intros [idx line] Hin.
    apply enumerate_In in Hin. simpl.
    split; [reflexivity|]. split; [|reflexivity].
    apply strip_single_trimmed_line.
    pose proof (split_nl_lines section) as Hl. rewrite Forall_forall in Hl.
    apply Hl. exact Hin.
  - rewrite <- E. intros [= <-]. unfold lettered_records.
    apply Forall_map, Forall_forall. intros x Hx. simpl.
    apply findall_sound in Hx. destruct Hx as (pre & post & _ & Hx).
    apply lettered_match in Hx.
    destruct Hx as (c & ws & d & post' & _ & _ & _ & _ & Hd & _ & -> & ->).
    split; [reflexivity|]. split; [|reflexivity].
    apply strip_single_trimmed_line. exact Hd.
Qed.

Lemma map_eq_In {A B} (g : A -> B) (l l' : list A) (x : A) :
  map g l = map g l' -> In x l -> exists y, In y l' /\ g x = g y.
Proof.
  intros H Hx. apply (in_map g) in Hx. rewrite H in Hx.
  apply in_map_iff in Hx. destruct Hx as (y & Hy & Hin). eauto.
Qed.

(** X1: in a frame that comes back, the description and the three
    narrative cells of every row are single lines without whitespace at
    either end, and the identifier is one character. *)
Theorem cells_are_single_trimmed_lines :
  forall text df,
    extract_specimen_details text = Ok df ->
    Forall (fun r =>
              single_trimmed_line (specimen_description r)
              /\ single_trimmed_line (diagnosis r)
              /\ single_trimmed_line (microscopic_description r)
              /\ single_trimmed_line (clinical_impression r)
              /\ length (specimen_identifier r) = 1)
      (rows df).
Proof.
  intros text df Hrun.
  destruct (rows_keep_projection specimen_key text df) as (recs & Hrec & Hkeys);
    auto.
  pose proof (specimen_records_shape text recs Hrec) as Hshape.
  rewrite Forall_forall in Hshape.
  apply extract_specimen_details_stages in Hrun.
  destruct Hrun as (records & df2 & df3 & imp & df4 & _ & _ & _ & _ & _ & Hdf).
  apply Forall_forall. intros r Hr.
  destruct (map_eq_In specimen_key _ _ r Hkeys Hr) as (r0 & Hr0 & Hk).
  destruct (Hshape r0 Hr0) as (_ & Hdesc & Hid).
  unfold specimen_key in Hk. injection Hk as Hki Hkd.
  rewrite Hki, Hkd.
  subst df. rewrite clean_newlines_rows in Hr. apply in_map_iff in Hr.
  destruct Hr as (r1 & <- & _). simpl.
  repeat split; try apply remove_text_after_newline_line;
    try apply Hdesc; exact Hid.
Qed.

Lemma cells_are_single_trimmed_lines_witness :
  exists df,
    extract_specimen_details report_repeated_spans = Ok df
    /\ rows df <> []
    /\ Forall (fun r =>
                 single_trimmed_line (specimen_description r)
                 /\ single_trimmed_line (diagnosis r)
                 /\ single_trimmed_line (microscopic_description r)
                 /\ single_trimmed_line (clinical_impression r)
                 /\ length (specimen_identifier r) = 1)
         (rows df).
Proof.
  assert (Hrun : exists df,
             extract_specimen_details report_repeated_spans = Ok df
             /\ rows df <> [])
    by (eexists; split; [vm_compute; reflexivity | vm_compute; discriminate]).
  destruct Hrun as (df & Hrun & Hne). exists df.
  split; [exact Hrun|]. split; [exact Hne|].
  apply (cells_are_single_trimmed_lines report_repeated_spans df Hrun).
Defined.

(** X2: the clean-up of lines 305-307 has nothing left to do on a frame
    that comes back: applying it again gives the same frame. *)
Theorem cleaning_again_changes_nothing :
  forall text df,
    extract_specimen_details text = Ok df -> clean_newlines df = df.
Proof.
  intros text df Hrun. apply extract_specimen_details_stages in Hrun.
  destruct Hrun as (records & df2 & df3 & imp & df4 & _ & _ & _ & _ & _ & ->).
  unfold clean_newlines at 1. cbn [rows columns clean_newlines].
  unfold clean_newlines. f_equal. rewrite map_map. apply map_ext.
  intros r. unfold set_impression, set_microscopic, set_diagnosis. cbn.
  rewrite (remove_text_after_newline_id
             (remove_text_after_newline (diagnosis r)))
    by apply remove_text_after_newline_line.
  rewrite (remove_text_after_newline_id
             (remove_text_after_newline (microscopic_description r)))
    by apply remove_text_after_newline_line.
  rewrite (remove_text_after_newline_id
             (remove_text_after_newline (clinical_impression r)))
    by apply remove_text_after_newline_line.
  reflexivity.
Qed.

Lemma cleaning_again_changes_nothing_witness :
  exists df,
    extract_specimen_details report_two_line_micro = Ok df
    /\ clean_newlines df = df.
Proof.
  assert (Hrun : exists df, extract_specimen_details report_two_line_micro = Ok df)
    by (eexists; vm_compute; reflexivity).
  destruct Hrun as (df & Hrun). exists df. split; [exact Hrun|].
  apply (cleaning_again_changes_nothing report_two_line_micro df Hrun).
Defined.

(** X3: every row of a frame that comes back carries the accession number
    found in the report, or none when the report has none. *)
Theorem rows_carry_the_accession_number :
  forall text df,
    extract_specimen_details text = Ok df ->
    Forall (fun r => accession_no r = accession_of text) (rows df).
Proof.
  intros text df Hrun.
  destruct (rows_keep_projection accession_no text df) as (recs & Hrec & Hacc);
    auto.
  pose proof (specimen_records_shape text recs Hrec) as Hshape.
  rewrite Forall_forall in Hshape. apply Forall_forall. intros r Hr.
  destruct (map_eq_In accession_no _ _ r Hacc Hr) as (r0 & Hr0 & ->).
  apply (Hshape r0 Hr0).
Qed.

Lemma rows_carry_the_accession_number_witness :
  exists df,
    extract_specimen_details report_with_accession = Ok df
    /\ length (rows df) = 2
    /\ accession_of report_with_accession = Some (py "S24-1234")
    /\ Forall (fun r => accession_no r = accession_of report_with_accession)
         (rows df).
Proof.
  assert (Hrun : exists df,
             extract_specimen_details report_with_accession = Ok df
             /\ length (rows df) = 2)
    by (eexists; split; vm_compute; reflexivity).
  destruct Hrun as (df & Hrun & Hlen). exists df.
  split; [exact Hrun|]. split; [exact Hlen|].
  split; [vm_compute; reflexivity|].
  apply (rows_carry_the_accession_number report_with_accession df Hrun).
Defined.

(** ** The accession number *)

Lemma search_sound (f : flags) (re : regex) (m : mstate) :
  forall r b,
    search_from f re b r = Some m ->
    exists pre post,
      r = pre ++ post /\ match_here f re (rev pre ++ b) post = Some m.
Proof.
  induction r as [|c r IH]; intros b H; cbn [search_from] in H.
  - destruct (match_here f re b []) eqn:E; [|discriminate].
    injection H as <-. exists [], []. auto.
  - destruct (match_here f re b (c :: r)) eqn:E.
    + injection H as <-. exists [], (c :: r). auto.
    + cbn [orelse] in H. destruct (IH _ H) as (pre & post & -> & Hm).
      exists (c :: pre), post. split; [reflexivity|].
      simpl. rewrite <- app_assoc. exact Hm.
Qed.

Lemma strip_without_whitespace (s : pystr) :
  Forall (fun c => is_space c = false) s -> strip s = s.
Proof.
  intros H. apply strip_id.
  - destruct s; [exact I | inversion H; assumption].
  - unfold no_trail. apply Forall_rev in H.
    destruct (rev s); [exact I | inversion H; assumption].
Qed.

(** A match of a header followed by whitespace and [(\S+)]. *)
Lemma token_after_header (hdr b r : pystr) (m : mstate) :
  match_here IGNORECASE
    (lit_chars hdr @@ RStar CSpace @@ RGroup 1 (RPlus (CNot CSpace)))%re b r
  = Some m ->
  ci_prefixb hdr r = true
  /\ exists ws post,
      skipn (length hdr) r = ws ++ group 1 m ++ post
      /\ Forall (fun c => is_space c = true) ws
      /\ group 1 m <> []
      /\ Forall (fun c => is_space c = false) (group 1 m)
      /\ match post with
         | c :: _ => is_space c = true
         | [] => True
         end.
Proof.
  unfold match_here. intros Hm.
  change (rmatch IGNORECASE
            (lit_chars hdr @@ RStar CSpace @@ RGroup 1 (RPlus (CNot CSpace)))
            Some (MState b r []))
    with (rmatch IGNORECASE (lit_chars hdr)
            (rmatch IGNORECASE
               (RStar CSpace @@ RGroup 1 (RPlus (CNot CSpace)))%re Some)
            (MState b r [])) in Hm.
  rewrite rmatch_lit in Hm by reflexivity. cbn [rest before caps] in Hm.
  destruct (ci_prefixb hdr r) eqn:Hp; [|discriminate].
  split; [reflexivity|].
  remember (skipn (length hdr) r) as after eqn:Ea.
  remember (rev (firstn (length hdr) r) ++ b) as b1 eqn:Eb.
  clear Ea Eb Hp.
  apply rmatch_seq_sound in Hm. destruct Hm as (s1 & M1 & Hm).
  inv M1. unfold RPlus in Hm. cbn [rmatch rest before caps] in Hm.
  destruct r0 as [|x r1]; [discriminate|].
  destruct (cset_mem IGNORECASE (CNot CSpace) x) eqn:Ex; [|discriminate].
  rewrite greedy_total in Hm by discriminate.
  injection Hm as <-.
  set (ns := fun c => negb (is_space c)).
  change (cset_mem IGNORECASE (CNot CSpace) x) with (ns x) in Ex.
  assert (Hns : forall c, ns c = true -> is_space c = false).
  { intros c Hc. unfold ns in Hc. apply negb_true_iff in Hc. exact Hc. }
  unfold group. cbn [caps before rest]. simpl get_cap.
  fold ns.
  assert (Hg : consumed (MState (rev ws ++ b1) (x :: r1) [])
                 (MState (rev (take_while ns r1) ++ x :: rev ws ++ b1)
                    (drop_while ns r1) [])
               = x :: take_while ns r1).
  { pose proof (take_drop_while ns r1) as Htd. rewrite <- Htd at 1.
    apply (consumed_app (x :: take_while ns r1)). }
  rewrite Hg.
  exists ws, (drop_while ns r1).
  split.
  { simpl. rewrite take_drop_while. reflexivity. }
  split; [assumption|]. split; [discriminate|].
  split.
  { constructor; [apply Hns, Ex|].
    eapply Forall_impl; [|apply take_while_Forall]. exact Hns. }
  pose proof (drop_while_head ns r1) as Hd.
  destruct (drop_while ns r1); [exact I|].
  unfold ns in Hd. apply negb_false_iff in Hd. exact Hd.
Qed.

(** X4: when an accession number is found, the report holds "Accession
    No:" in some spelling of upper and lower case, then whitespace, then the
    accession number, which is the whole run of characters up to the next
    whitespace or the end of the report: it is not empty and holds no
    whitespace. *)
Theorem accession_number_is_a_token :
  forall text a,
    accession_of text = Some a ->
    exists pre tail ws post,
      text = pre ++ tail
      /\ ci_prefixb (py "Accession No:") tail = true
      /\ skipn (length (py "Accession No:")) tail = ws ++ a ++ post
      /\ Forall (fun c => is_space c = true) ws
      /\ a <> []
      /\ Forall (fun c => is_space c = false) a
      /\ match post with
         | c :: _ => is_space c = true
         | [] => True
         end.
Proof.
  intros text a. unfold accession_of, re_search.
  destruct (search_from IGNORECASE re_accession [] text) as [m|] eqn:E;
    [|discriminate].
  intros [= <-]. apply search_sound in E.
  destruct E as (pre & tail & -> & Hm).
  apply (token_after_header (py "Accession No:")) in Hm.
  destruct Hm as (Hp & ws & post & Hs & Hws & Hne & Hns & Hpost).
  rewrite (strip_without_whitespace _ Hns).
  exists pre, tail, ws, post. repeat split; assumption.
Qed.

Lemma accession_number_is_a_token_witness :
  exists pre tail ws post,
    report_with_accession = pre ++ tail
    /\ ci_prefixb (py "Accession No:") tail = true
    /\ skipn (length (py "Accession No:")) tail = ws ++ py "S24-1234" ++ post
    /\ Forall (fun c => is_space c = true) ws
    /\ py "S24-1234" <> []
    /\ Forall (fun c => is_space c = false) (py "S24-1234")
    /\ match post with
       | c :: _ => is_space c = true
       | [] => True
       end.
Proof.
  apply (accession_number_is_a_token report_with_accession (py "S24-1234")).
  vm_compute. reflexivity.
Defined.

(** ** Which reports come back, and with what *)

(** X5: no specimen is extracted exactly when the pattern of line 41
    finds no SPECIMEN SUBMITTED section; a section that is found always
    gives at least one specimen, even when nothing but whitespace follows
    the header. *)
Theorem no_specimen_iff_no_section :
  forall text, specimen_records text = Ok [] <-> specimen_section text = None.
Proof.
  intros text. unfold specimen_records.
  destruct (specimen_section text) as [section|]; [|split; reflexivity].
  split; [|discriminate]. intros H. exfalso.
  destruct (re_findall NOFLAGS re_lettered section) as [|m ms];
    [|discriminate].
  unfold numbered_records in H. apply numbered_records_Ok in H.
  simpl in H. symmetry in H. apply map_eq_nil in H.
  pose proof (split_nl_nonempty section) as Hne.
  destruct (split_nl section); [congruence | discriminate].
Qed.

Lemma section_gives_records (text section : pystr) :
  specimen_section text = Some section ->
  (N.of_nat (length (split_nl section)) <= 1114047)%N ->
  exists records, specimen_records text = Ok records /\ records <> [].
Proof.
  intros Hsec Hlen. unfold specimen_records. rewrite Hsec.
  destruct (re_findall NOFLAGS re_lettered section) as [|m ms].
  - unfold numbered_records. rewrite numbered_records_loop by lia.
    eexists. split; [reflexivity|]. simpl.
    pose proof (split_nl_nonempty section) as Hne.
    destruct (split_nl section); [congruence | discriminate].
  - eexists. split; [reflexivity | discriminate].
Qed.

(** X6: when a SPECIMEN SUBMITTED section is found (with no more lines
    than chr has characters for), the run never raises, whatever else the
    report holds, and the frame has at least one row. *)
Theorem report_with_section_comes_back :
  forall text section,
    specimen_section text = Some section ->
    (N.of_nat (length (split_nl section)) <= 1114047)%N ->
    exists df, extract_specimen_details text = Ok df /\ rows df <> [].
Proof.
  intros text section Hsec Hlen.
  destruct (section_gives_records text section Hsec Hlen) as (recs & Hrec & Hne).
  destruct (with_specimens_returns text recs Hrec Hne) as (df & Hrun).
  exists df. split; [exact Hrun|].
  destruct (rows_keep_projection specimen_key text df) as (recs' & Hrec' & Hk);
    auto.
  rewrite Hrec in Hrec'. injection Hrec' as <-.
  intros E. rewrite E in Hk. simpl in Hk. symmetry in Hk.
  apply map_eq_nil in Hk. contradiction.
Qed.

Lemma report_with_section_comes_back_witness :
  exists df,
    extract_specimen_details report_header_after_specimens = Ok df
    /\ rows df <> [].
Proof.
  apply (report_with_section_comes_back report_header_after_specimens
           (py "A. skin" ++ nl :: py "DIAGNOSIS: x")).
  - vm_compute. reflexivity.
  - vm_compute. discriminate.
Defined.

Lemma without_specimens_witness :
  extract_specimen_details (py "no specimen is listed here")
  = Ok (clean_newlines (initial_frame []))
  /\ extract_specimen_details report_micro_only
     = Raise (KeyError "Specimen Identifier").
Proof.
  split.
  - rewrite without_specimens by (vm_compute; reflexivity).
    vm_compute. reflexivity.
  - rewrite without_specimens by (vm_compute; reflexivity).
    vm_compute. reflexivity.
Defined.

Lemma records_follow_specimens_witness :
  exists df records,
    extract_specimen_details report_five_specimens = Ok df
    /\ specimen_records report_five_specimens = Ok records
    /\ length records = 5
    /\ map specimen_key (rows df) = map specimen_key records.
Proof.
  assert (Hrun : exists df, extract_specimen_details report_five_specimens = Ok df)
    by (eexists; vm_compute; reflexivity).
  destruct Hrun as (df & Hrun).
  destruct (records_follow_specimens report_five_specimens df Hrun)
    as (records & Hrec & Hk).
  exists df, records. split; [exact Hrun|]. split; [exact Hrec|].
  split; [|exact Hk].
  assert (E : exists l, specimen_records report_five_specimens = Ok l
                        /\ length l = 5)
    by (eexists; split; vm_compute; reflexivity).
  destruct E as (l & El & Hl). rewrite El in Hrec. injection Hrec as <-.
  exact Hl.
Defined.

(** ** process_pathology_reports *)

Lemma text_of_fillna {O} (r : report_row O) : text_of (fillna r) = text_of r.
Proof.
  unfold text_of, fillna. destruct (path_report_text r) eqn:E; cbn.
  - rewrite E. reflexivity.
  - reflexivity.
Qed.

(** The rows one report adds to the collected frame. *)
Lemma process_report_rows {O} (cols : list string) (acc out : collected O)
  (r : report_row O) :
  process_report cols acc r = Ok out ->
  collected_rows out
  = collected_rows acc
    ++ map (CollectedRow r) (rows_of (extract_specimen_details (text_of r))).
Proof.
  unfold process_report. intros H. apply bind_Ok in H.
  destruct H as (d & -> & H). cbn [rows_of].
  destruct (rows d); injection H as <-; cbn [collected_rows map];
    [rewrite app_nil_r|]; reflexivity.
Qed.

Lemma process_loop_rows {O} (cols : list string) (l : list (report_row O)) :
  forall acc out,
    for_each l (process_report cols) acc = Ok out ->
    collected_rows out
    = collected_rows acc
      ++ flat_map
           (fun r =>
              map (CollectedRow r)
                (rows_of (extract_specimen_details (text_of r))))
           l.
Proof.
  induction l as [|r l IH]; cbn [for_each flat_map]; intros acc out H.
  - injection H as <-. rewrite app_nil_r. reflexivity.
  - apply bind_Ok in H. destruct H as (acc' & Hr & H).
    apply IH in H. rewrite H, (process_report_rows _ _ _ _ Hr), app_assoc.
    reflexivity.
Qed.

Lemma process_report_returns {O} (cols : list string) (acc : collected O)
  (r : report_row O) :
  (exists out, process_report cols acc r = Ok out)
  <-> exists d, extract_specimen_details (text_of r) = Ok d.
Proof.
  unfold process_report. split.
  - intros (out & H). apply bind_Ok in H. destruct H as (d & H & _). eauto.
  - intros (d & ->). cbn [bind]. destruct (rows d); eauto.
Qed.

Lemma process_loop_returns {O} (cols : list string) (l : list (report_row O)) :
  forall acc,
    (exists out, for_each l (process_report cols) acc = Ok out)
    <-> Forall (fun r => exists d, extract_specimen_details (text_of r) = Ok d) l.
Proof.
  induction l as [|r l IH]; cbn [for_each]; intros acc.
  - split; [constructor | eauto].
  - split.
    + intros (out & H). apply bind_Ok in H. destruct H as (acc' & Hr & H).
      constructor.
      * apply (process_report_returns cols acc). eauto.
      * apply (IH acc'). eauto.
    + intros H. inversion H as [|? ? Hr Hl]; subst.
      apply (process_report_returns cols acc) in Hr. destruct Hr as (acc' & ->).
      cbn [bind]. apply IH. exact Hl.
Qed.

(** X9: when the batch returns, the collected frame holds, report after
    report in the order of the input, one row per specimen of the report,
    each made of the cells of the report (its missing text filled with the
    empty string) and of the extracted row; a report without specimen adds
    no row. *)
Theorem collected_rows_follow_the_reports :
  forall (O : Type) (df df' : reports O) (out : collected O),
    process_pathology_reports df = (df', Ok out) ->
    report_rows df' = map fillna (report_rows df)
    /\ collected_rows out
       = flat_map
           (fun r =>
              map (CollectedRow r)
                (rows_of (extract_specimen_details (text_of r))))
           (report_rows df').
Proof.
  intros O df df' out. unfold process_pathology_reports.
  destruct (existsb _ _); [|discriminate].
  cbn [report_rows report_columns]. intros [= <- H].
  split; [reflexivity|]. apply process_loop_rows in H. exact H.
Qed.

Lemma collected_rows_follow_the_reports_witness :
  exists out : collected nat,
    map (fun c => (other_cells (original c), specimen_identifier (extracted c)))
      (collected_rows out)
    = [(1, [65%N]); (1, [66%N]); (3, [65%N])].
Proof.
  pose (df := Reports ["Id"%string; "Path Report Text"%string]
                [ReportRow 1 (Some report_with_accession);
                 ReportRow 2 None;
                 ReportRow 3 (Some report_two_line_micro)]).
  assert (H : exists df' out, process_pathology_reports df = (df', Ok out)).
  { do 2 eexists. vm_compute. reflexivity. }
  destruct H as (df' & out & H). exists out.
  destruct (collected_rows_follow_the_reports nat df df' out H) as [Hdf ->].
  rewrite Hdf. vm_compute. reflexivity.
Defined.

(** X10: the batch returns exactly when the frame has the column "Path
    Report Text" and the run on every report returns: one report whose run
    raises makes the whole batch raise, whatever was collected before. *)
Theorem batch_returns_iff_every_report_does :
  forall (O : Type) (df : reports O),
    (exists out, snd (process_pathology_reports df) = Ok out)
    <-> existsb (String.eqb "Path Report Text") (report_columns df) = true
        /\ Forall
             (fun r => exists d, extract_specimen_details (text_of r) = Ok d)
             (report_rows df).
Proof.
  intros O df. unfold process_pathology_reports.
  destruct (existsb _ _); cbn [snd report_rows report_columns].
  - rewrite process_loop_returns, Forall_map. split.
    + intros H. split; [reflexivity|]. eapply Forall_impl; [|exact H].
      intros r Hr. cbn beta in Hr. rewrite text_of_fillna in Hr. exact Hr.
    + intros [_ H]. eapply Forall_impl; [|exact H].
      intros r Hr. cbn beta. rewrite text_of_fillna. exact Hr.
  - split; [intros (out & H); discriminate | intros [H _]; discriminate].
Qed.

(** ** Tagged rows of the microscopic description *)

Lemma matches_suffix (f : flags) (re : regex) (s s' : mstate) :
  matches f re s s' -> exists xs, rest s = xs ++ rest s'.
Proof.
  induction 1; cbn [rest] in *;
    try (exists []; reflexivity).
  - exists [c]. reflexivity.
  - destruct IHmatches1 as (xs & ->). destruct IHmatches2 as (ys & ->).
    exists (xs ++ ys). apply app_assoc.
  - exact IHmatches.
  - exact IHmatches.
  - exists ws. reflexivity.
  - exists ws. reflexivity.
  - exact IHmatches.
Qed.

Lemma greedy_all (p : ascii -> bool) (k : kont) (cp : list (nat * pystr))
  (m : mstate) :
  (forall c, p c = true) ->
  forall r b,
    k (MState (rev r ++ b) [] cp) = Some m -> greedy p k b r cp = Some m.
Proof.
  intros Hp r b Hk. rewrite <- (app_nil_r r).
  apply greedy_max; [exact I | apply Forall_forall; auto | exact Hk].
Qed.

(** With DOTALL the third group of the pattern of line 206 takes all the
    text that is left. *)
Lemma micro_row_to_end (b r : pystr) (m : mstate) :
  match_here IGNORECASE_DOTALL_MULTILINE re_micro_row b r = Some m ->
  rest m = []
  /\ group 3 m <> []
  /\ exists pre, r = pre ++ group 3 m.
Proof.
  unfold match_here, re_micro_row. intros H.
  apply rmatch_seq_sound in H. destruct H as (s1 & M1 & H).
  apply rmatch_seq_sound in H. destruct H as (s2 & M2 & H).
  apply rmatch_seq_sound in H. destruct H as (s3 & M3 & H).
  apply rmatch_seq_sound in H. destruct H as (s4 & M4 & H).
  apply rmatch_seq_sound in H. destruct H as (s5 & M5 & H).
  apply rmatch_seq_sound in H. destruct H as (s6 & M6 & H).
  apply rmatch_seq_sound in H. destruct H as (s7 & M7 & H).
  assert (Hpre : exists pre, r = pre ++ rest s7).
  { apply matches_suffix in M1, M2, M3, M4, M5, M6, M7.
    destruct M1 as (x1 & E1), M2 as (x2 & E2), M3 as (x3 & E3),
      M4 as (x4 & E4), M5 as (x5 & E5), M6 as (x6 & E6), M7 as (x7 & E7).
    cbn [rest] in E1. rewrite E2, E3, E4, E5, E6, E7 in E1.
    exists (x1 ++ x2 ++ x3 ++ x4 ++ x5 ++ x6 ++ x7).
    rewrite E1, <- !app_assoc. reflexivity. }
  clear M1 M2 M3 M4 M5 M6 M7. destruct s7 as [b7 r7 cp7].
  cbn [rest] in Hpre. unfold RPlus in H.
  cbn [rmatch rest before caps] in H.
  destruct r7 as [|c r7]; [discriminate|].
  cbn [cset_mem dotall IGNORECASE_DOTALL_MULTILINE orb] in H.
  erewrite greedy_all in H.
  2:{ intros x. reflexivity. }
  2:{ cbn [rest before caps at_eol]. reflexivity. }
  injection H as <-. cbn [rest]. split; [reflexivity|].
  unfold group. cbn [caps]. simpl get_cap.
  assert (E : consumed (MState b7 (c :: r7) cp7)
                (MState (rev r7 ++ c :: b7) [] cp7) = c :: r7).
  { rewrite <- (app_nil_r (c :: r7)) at 1. apply consumed_app. }
  rewrite E. split; [discriminate | exact Hpre].
Qed.

Lemma findall_skip_to_end (f : flags) (re : regex) :
  (forall b, match_here f re b [] = None) ->
  forall r b, findall_from f re (length r) b r = [].
Proof.
  intros Hnil. induction r as [|c r IH]; intros b; cbn [length findall_from].
  - rewrite Hnil. reflexivity.
  - apply IH.
Qed.

(** A pattern whose matches all run to the end of the text is found at
    most once. *)
Lemma findall_at_most_one (f : flags) (re : regex) :
  (forall b, match_here f re b [] = None) ->
  (forall b r m, match_here f re b r = Some m -> rest m = []) ->
  forall r b,
    findall_from f re 0 b r = []
    \/ exists m pre post,
         r = pre ++ post
         /\ match_here f re (rev pre ++ b) post = Some m
         /\ findall_from f re 0 b r = [m].
Proof.
  intros Hnil Hend. induction r as [|c r IH]; intros b.
  - left. cbn [findall_from]. rewrite Hnil. reflexivity.
  - cbn [findall_from].
    destruct (match_here f re b (c :: r)) as [m|] eqn:E.
    + right. exists m, [], (c :: r). split; [reflexivity|].
      split; [exact E|].
      rewrite (Hend _ _ _ E). cbn [length]. rewrite Nat.sub_0_r. cbn [pred].
      rewrite findall_skip_to_end by exact Hnil. reflexivity.
    + destruct (IH (c :: b)) as [->|(m & pre & post & -> & Hm & ->)].
      * left. reflexivity.
      * right. exists m, (c :: pre), post. split; [reflexivity|].
        split; [|reflexivity]. cbn [rev]. rewrite <- app_assoc. exact Hm.
Qed.

(** X11: the pattern of line 206 finds at most one tagged row in a
    MICROSCOPIC DESCRIPTION body: the description of the first row it finds
    is not empty and runs to the end of the body, so that the rows that
    follow are part of it and no other specimen gets a description of its
    own. *)
Theorem at_most_one_tagged_row :
  forall body,
    re_findall IGNORECASE_DOTALL_MULTILINE re_micro_row body = []
    \/ exists m pre,
         re_findall IGNORECASE_DOTALL_MULTILINE re_micro_row body = [m]
         /\ body = pre ++ group 3 m
         /\ group 3 m <> [].
Proof.
  intros body. unfold re_findall.
  destruct (findall_at_most_one IGNORECASE_DOTALL_MULTILINE re_micro_row)
    with (r := body) (b := @nil ascii)
    as [H|(m & pre & post & Hbody & Hm & H)].
  - intros b. destruct (match_here _ _ b []) eqn:E; [|reflexivity].
    apply micro_row_to_end in E. destruct E as (_ & Hne & pre & E).
    exfalso. apply Hne. destruct pre; [|discriminate].
    symmetry. exact E.
  - intros b r m H. apply micro_row_to_end in H. apply H.
  - left. exact H.
  - right. apply micro_row_to_end in Hm. destruct Hm as (_ & Hne & p & Hp).
    exists m, (pre ++ p). split; [exact H|]. split; [|exact Hne].
    rewrite Hbody, Hp, app_assoc. reflexivity.
Qed.

(** ** The tag of the first diagnosis span *)

Lemma letter_class (c : ascii) :
  cset_mem IGNORECASE_DOTALL AZ c = is_letter c.
Proof. by_cases_on_char c. Qed.

(** A match of a pattern that does not look behind depends on the text
    ahead only. *)
Lemma matches_transport (f : flags) (re : regex) (s s' : mstate) :
  matches f re s s' ->
  bol_free re = true ->
  forall b cp,
    exists b' cp',
      matches f re (MState b (rest s) cp) (MState b' (rest s') cp').
Proof.
  induction 1; cbn [bol_free rest]; intros Hfree b0 cp0.
  - do 2 eexists. constructor.
  - do 2 eexists. constructor. assumption.
  - apply andb_true_iff in Hfree. destruct Hfree as [Ha Hb].
    destruct (IHmatches1 Ha b0 cp0) as (b1 & cp1 & M1).
    destruct (IHmatches2 Hb b1 cp1) as (b2 & cp2 & M2).
    do 2 eexists. econstructor; eassumption.
  - apply andb_true_iff in Hfree. destruct Hfree as [Ha _].
    destruct (IHmatches Ha b0 cp0) as (b1 & cp1 & M1).
    do 2 eexists. apply M_alt_l. exact M1.
  - apply andb_true_iff in Hfree. destruct Hfree as [_ Hb].
    destruct (IHmatches Hb b0 cp0) as (b1 & cp1 & M1).
    do 2 eexists. apply M_alt_r. exact M1.
  - do 2 eexists. constructor. assumption.
  - do 2 eexists. constructor. assumption.
  - destruct (IHmatches Hfree b0 cp0) as (b1 & cp1 & M1).
    do 2 eexists.
    apply (M_group f n r (MState b0 (rest s) cp0) (MState b1 (rest s') cp1)).
    exact M1.
  - destruct (IHmatches Hfree b0 cp0) as (b1 & cp1 & M1).
    do 2 eexists. eapply M_look. exact M1.
  - discriminate.
  - do 2 eexists. apply M_eol. exact H.
  - do 2 eexists. apply M_end. exact H.
Qed.

(** The first match that [re.findall] returns is the leftmost one. *)
Lemma findall_first (f : flags) (re : regex) :
  forall r b m ms,
    findall_from f re 0 b r = m :: ms ->
    exists pre post,
      r = pre ++ post
      /\ match_here f re (rev pre ++ b) post = Some m
      /\ forall pre1 pre2,
           pre = pre1 ++ pre2 -> pre2 <> [] ->
           match_here f re (rev pre1 ++ b) (pre2 ++ post) = None.
Proof.
  induction r as [|c r IH]; intros b m ms H; cbn [findall_from] in H.
  - destruct (match_here f re b []) as [m0|] eqn:E; [|discriminate].
    injection H as <- _. exists [], []. split; [reflexivity|].
    split; [exact E|]. intros pre1 pre2 Hp Hne.
    symmetry in Hp. apply app_eq_nil in Hp. destruct Hp as [_ ->]. congruence.
  - destruct (match_here f re b (c :: r)) as [m0|] eqn:E.
    + injection H as <- _. exists [], (c :: r). split; [reflexivity|].
      split; [exact E|]. intros pre1 pre2 Hp Hne.
      symmetry in Hp. apply app_eq_nil in Hp. destruct Hp as [_ ->]. congruence.
    + apply IH in H. destruct H as (pre & post & -> & Hm & Hleft).
      exists (c :: pre), post. split; [reflexivity|].
      split; [cbn [rev]; rewrite <- app_assoc; exact Hm|].
      intros pre1 pre2 Hp Hne. destruct pre1 as [|c1 pre1].
      * cbn [app rev] in *. subst pre2. exact E.
      * cbn [app] in Hp. injection Hp as <- Hp.
        cbn [rev]. rewrite <- app_assoc. apply Hleft; assumption.
Qed.

(** The pieces of a match of the pattern of line 271. *)
Lemma diagnosis_match (b r : pystr) (m : mstate) :
  match_here IGNORECASE_DOTALL re_diagnosis b r = Some m ->
  exists c head s4,
    r = c :: head ++ rest s4
    /\ is_letter c = true
    /\ group 1 m = [c]
    /\ matches IGNORECASE_DOTALL diagnosis_tail s4 m.
Proof.
  intros H.
  assert (Hg : exists c r1, r = c :: r1 /\ is_letter c = true /\ group 1 m = [c]).
  { apply match_here_sound in H.
    unfold re_diagnosis, ROpt, RPlusLazy, lit, blank_line in H.
    cbn [py list_ascii_of_string lit_chars] in H. inv_matches.
    all: do 2 eexists; (split; [reflexivity|]).
    all: rewrite <- letter_class.
    all: split; [assumption|].
    all: unfold group; cbn [caps]; simpl get_cap; apply consumed_cons. }
  destruct Hg as (c & r1 & -> & Hc & Hg).
  unfold match_here, re_diagnosis in H.
  apply rmatch_seq_sound in H. destruct H as (s1 & M1 & H).
  apply rmatch_seq_sound in H. destruct H as (s2 & M2 & H).
  apply rmatch_seq_sound in H. destruct H as (s3 & M3 & H).
  apply rmatch_seq_sound in H. destruct H as (s4 & M4 & H).
  apply rmatch_sound in H. destruct H as (m' & Mt & [= ->]).
  apply matches_suffix in M2, M3, M4.
  inversion M1 as [| | | | | | | ? ? ? s1' M1' | | | |]; subst.
  inversion M1'; subst. cbn [rest] in M2.
  destruct M2 as (x2 & E2), M3 as (x3 & E3), M4 as (x4 & E4).
  exists c, (x2 ++ x3 ++ x4), s4.
  split; [|split; [exact Hc|split; [exact Hg | exact Mt]]].
  rewrite E2, E3, E4, <- !app_assoc. reflexivity.
Qed.

(** From any letter with text between it and a diagnosis line the pattern
    of line 271 has a match. *)
Lemma diagnosis_from_letter (B : pystr) (x : ascii) (mid : pystr)
  (s4 m : mstate) :
  is_letter x = true ->
  mid <> [] ->
  matches IGNORECASE_DOTALL diagnosis_tail s4 m ->
  match_here IGNORECASE_DOTALL re_diagnosis B (x :: mid ++ rest s4) <> None.
Proof.
  intros Hx Hmid Mt. destruct mid as [|y mid]; [congruence|].
  unfold match_here, re_diagnosis.
  change (rmatch IGNORECASE_DOTALL (RGroup 1 (RSet AZ))
            (rmatch IGNORECASE_DOTALL (ROpt (RSet punct))
               (rmatch IGNORECASE_DOTALL (RStar CSpace)
                  (rmatch IGNORECASE_DOTALL (RGroup 2 (RPlusLazy CDot))
                     (rmatch IGNORECASE_DOTALL diagnosis_tail Some))))
            (MState B (x :: (y :: mid) ++ rest s4) []) <> None).
  eapply rmatch_complete.
  { apply (M_group _ 1 (RSet AZ) (MState B (x :: (y :: mid) ++ rest s4) [])
             (MState (x :: B) ((y :: mid) ++ rest s4) [])).
    constructor. rewrite letter_class. exact Hx. }
  cbn [before rest caps].
  eapply rmatch_complete.
  { apply M_alt_r. constructor. }
  eapply rmatch_complete.
  { apply (M_star _ CSpace []). constructor. }
  cbn [rev app].
  eapply rmatch_complete.
  { match goal with
    | |- matches _ _ (MState ?b0 _ ?cp0) _ =>
        apply (M_group _ 2 (RPlusLazy CDot) (MState b0 (y :: mid ++ rest s4) cp0)
                 (MState (rev mid ++ y :: b0) (rest s4) cp0))
    end.
    unfold RPlusLazy. econstructor.
    - constructor. reflexivity.
    - apply (M_star_lazy _ CDot mid). apply Forall_forall. intros a _. reflexivity. }
  cbn [before rest caps].
  match goal with
  | |- rmatch _ _ _ (MState ?b0 _ ?cp0) <> None =>
      destruct (matches_transport _ _ _ _ Mt eq_refl b0 cp0) as (b' & cp' & Mt')
  end.
  eapply rmatch_complete; [exact Mt' | discriminate].
Qed.

(** X12: the first diagnosis span is tagged with the first letter of the
    whole report, capital or not, whatever letter starts the line above the
    "--" line: with IGNORECASE and DOTALL the pattern of line 271 starts at
    the leftmost letter that has a diagnosis line somewhere below it. *)
Theorem first_diagnosis_tag_is_first_letter :
  forall text tag diagnosis_text spans,
    diagnosis_spans text = (tag, diagnosis_text) :: spans ->
    exists pre c post,
      text = pre ++ c :: post
      /\ Forall (fun x => is_letter x = false) pre
      /\ is_letter c = true
      /\ tag = widen [c].
Proof.
  intros text tag d spans H. unfold diagnosis_spans, re_findall in H.
  destruct (findall_from IGNORECASE_DOTALL re_diagnosis 0 [] text) as [|m ms] eqn:E;
    [discriminate|].
  cbn [map] in H. injection H as <- _ _.
  apply findall_first in E. destruct E as (pre & post & -> & Hm & Hleft).
  apply diagnosis_match in Hm.
  destruct Hm as (c & head & s4 & -> & Hc & Hg & Mt).
  exists pre, c, (head ++ rest s4). split; [reflexivity|].
  split; [|split; [exact Hc | rewrite Hg; reflexivity]].
  apply Forall_forall. intros x Hin.
  destruct (is_letter x) eqn:Hx; [|reflexivity]. exfalso.
  apply in_split in Hin. destruct Hin as (pre1 & pre2 & ->).
  specialize (Hleft pre1 (x :: pre2) eq_refl).
  cbn [app] in Hleft.
  replace (pre2 ++ c :: head ++ rest s4)
    with ((pre2 ++ c :: head) ++ rest s4) in Hleft
    by (rewrite <- app_assoc; reflexivity).
  eapply diagnosis_from_letter; [exact Hx | | exact Mt | apply Hleft; discriminate].
  destruct pre2; discriminate.
Qed.

Lemma first_diagnosis_tag_is_first_letter_witness :
  exists pre c post,
    report_diagnosis_after_title = pre ++ c :: post
    /\ Forall (fun x => is_letter x = false) pre
    /\ is_letter c = true
    /\ widen (py "R") = widen [c].
Proof.
  apply (first_diagnosis_tag_is_first_letter report_diagnosis_after_title
           (widen (py "R")) (py "bcc") []).
  vm_compute. reflexivity.
Defined.

(** ** The columns of the frame, and the fields without a section *)

Lemma loops_keep_columns (text : pystr) (df : DataFrame) :
  extract_specimen_details text = Ok df ->
  exists records,
    specimen_records text = Ok records
    /\ columns df = columns (initial_frame records).
Proof.
  intros Hrun. apply extract_specimen_details_stages in Hrun.
  destruct Hrun as (records & df2 & df3 & imp & df4 & Hrec & H2 & H3 & Hi & H4 & ->).
  exists records. split; [exact Hrec|].
  set (Inv := fun x : DataFrame => columns x = columns (initial_frame records)).
  assert (Hd : Inv df2).
  { eapply (for_each_invariant Inv); [|exact H2|reflexivity].
    intros s m s' _ H Hs. apply loc_setitem_rows in H. destruct H as [_ H].
    unfold Inv. rewrite H. exact Hs. }
  assert (Hm : Inv df3).
  { unfold add_microscopic_description in H3.
    destruct (micro_desc_text text) as [body|]; [|congruence].
    destruct (re_findall IGNORECASE_DOTALL_MULTILINE re_micro_row body) as [|m ms].
    - apply bind_Ok in H3. destruct H3 as (ids & _ & H3).
      revert Hd. eapply (for_each_invariant Inv); [|exact H3].
      intros s x s' _ H Hs. apply loc_setitem_rows in H. destruct H as [_ H].
      unfold Inv. rewrite H. exact Hs.
    - revert Hd. eapply (for_each_invariant Inv); [|exact H3].
      intros s x s' _ H Hs. apply bind_Ok in H. destruct H as (c & _ & H).
      apply loc_setitem_rows in H. destruct H as [_ H].
      unfold Inv. rewrite H. exact Hs. }
  assert (Hc : Inv df4).
  { revert Hm. eapply (for_each_invariant Inv); [|exact H4].
    intros s [k v] s' _ H Hs. unfold put_impression in H.
    destruct (re_match NOFLAGS valid_identifier_pattern k).
    - apply loc_setitem_rows in H. destruct H as [_ H].
      unfold Inv. rewrite H. exact Hs.
    - injection H as <-. unfold Inv, setitem, has_column. cbn [columns].
      rewrite Hs. destruct records; reflexivity. }
  exact Hc.
Qed.

(** X13: a frame that comes back with rows has the six columns Accession
    No, Specimen Identifier, Specimen Description, Diagnosis, Microscopic
    Description and Clinical Impression, in this order; a frame that comes
    back without rows has the last three only. *)
Theorem columns_of_the_frame :
  forall text df,
    extract_specimen_details text = Ok df ->
    columns df
    = match rows df with
      | [] =>
          ["Diagnosis"; "Microscopic Description"; "Clinical Impression"]%string
      | _ :: _ =>
          ["Accession No"; "Specimen Identifier"; "Specimen Description";
           "Diagnosis"; "Microscopic Description"; "Clinical Impression"]%string
      end.
Proof.
  intros text df Hrun.
  destruct (loops_keep_columns text df Hrun) as (records & Hrec & ->).
  destruct (rows_keep_projection specimen_key text df) as (recs & Hrec' & Hk);
    auto.
  rewrite Hrec in Hrec'. injection Hrec' as <-.
  destruct records as [|r records].
  - apply map_eq_nil in Hk. rewrite Hk. reflexivity.
  - destruct (rows df); [discriminate | reflexivity].
Qed.

Lemma columns_of_the_frame_witness :
  exists df,
    extract_specimen_details report_two_line_micro = Ok df
    /\ length (columns df) = 6.
Proof.
  assert (H : exists df, extract_specimen_details report_two_line_micro = Ok df
                         /\ rows df <> [])
    by (eexists; split; [vm_compute; reflexivity | discriminate]).
  destruct H as (df & H & Hne). exists df. split; [exact H|].
  rewrite (columns_of_the_frame report_two_line_micro df H).
  destruct (rows df); [congruence | reflexivity].
Defined.

(** X14: a field whose section the patterns do not find is the empty
    string in every row: the diagnosis when the pattern of line 271 has no
    match, the microscopic description without a MICROSCOPIC DESCRIPTION
    section, the clinical impression without a CLINICAL IMPRESSION
    section. *)
Theorem fields_without_section_are_empty :
  forall text df,
    extract_specimen_details text = Ok df ->
    (diagnosis_spans text = [] ->
     Forall (fun r => diagnosis r = []) (rows df))
    /\ (micro_desc_text text = None ->
        Forall (fun r => microscopic_description r = []) (rows df))
    /\ (clinical_impression_text text = None ->
        Forall (fun r => clinical_impression r = []) (rows df)).
Proof.
  intros text df Hrun. apply extract_specimen_details_stages in Hrun.
  destruct Hrun as (records & df2 & df3 & imp & df4 & Hrec & H2 & H3 & Hi & H4 & ->).
  rewrite clean_newlines_rows.
  assert (Hinit : forall g : row -> pystr,
             (forall r, g (set_impression []
                             (set_microscopic [] (set_diagnosis [] r))) = []) ->
             Forall (fun r => g r = []) (rows (initial_frame records))).
  { intros g Hg. rewrite initial_frame_rows. apply Forall_map, Forall_forall.
    intros r _. apply Hg. }
  assert (Himp : forall P : row -> Prop,
             (forall v r, P r -> P (set_impression v r)) ->
             Forall P (rows df3) -> Forall P (rows df4)).
  { intros P HP. eapply (for_each_invariant (fun x => Forall P (rows x)));
      [|exact H4].
    intros s item s' _ H. eapply put_impression_Forall; [|exact H].
    intros r. apply HP. }
  split; [|split].
  - intros Hnone. unfold diagnosis_spans in Hnone. apply map_eq_nil in Hnone.
    unfold add_diagnosis in H2. rewrite Hnone in H2. injection H2 as <-.
    apply Forall_map.
    assert (H : Forall (fun r => diagnosis r = []) (rows df4)).
    { apply Himp; [intros v r Hr; exact Hr|].
      eapply add_microscopic_Forall; [|exact H3|]; [intros v r Hr; exact Hr|].
      apply Hinit. reflexivity. }
    eapply Forall_impl; [|exact H]. intros r Hr. cbn. rewrite Hr. reflexivity.
  - intros Hnone. unfold add_microscopic_description in H3.
    rewrite Hnone in H3. injection H3 as <-.
    apply Forall_map.
    assert (H : Forall (fun r => microscopic_description r = []) (rows df4)).
    { apply Himp; [intros v r Hr; exact Hr|].
      eapply add_diagnosis_Forall; [|exact H2|]; [intros v r Hr; exact Hr|].
      apply Hinit. reflexivity. }
    eapply Forall_impl; [|exact H]. intros r Hr. cbn. rewrite Hr. reflexivity.
  - intros Hnone. unfold extract_clinical_impression in Hi.
    rewrite Hnone in Hi. cbn [bind] in Hi. injection Hi as <-.
    apply Forall_map.
    assert (H : Forall (fun r => clinical_impression r = []) (rows df4)).
    { eapply (for_each_invariant
                (fun x => Forall (fun r => clinical_impression r = []) (rows x)));
        [|exact H4|].
      - intros s [k v] s' Hin H. eapply put_impression_Forall; [|exact H].
        intros r _. cbn [snd].
        apply in_map_iff in Hin. destruct Hin as ([k0 v0] & [= _ <-] & Hin).
        apply initial_impressions_empty in Hin. cbn [snd]. rewrite Hin.
        reflexivity.
      - eapply add_microscopic_Forall; [|exact H3|]; [intros v r Hr; exact Hr|].
        eapply add_diagnosis_Forall; [|exact H2|]; [intros v r Hr; exact Hr|].
        apply Hinit. reflexivity. }
    eapply Forall_impl; [|exact H]. intros r Hr. cbn. rewrite Hr. reflexivity.
Qed.

Lemma fields_without_section_are_empty_witness :
  exists df,
    extract_specimen_details report_with_accession = Ok df
    /\ Forall (fun r => diagnosis r = []) (rows df)
    /\ Forall (fun r => microscopic_description r = []) (rows df)
    /\ Forall (fun r => clinical_impression r = []) (rows df).
Proof.
  assert (H : exists df, extract_specimen_details report_with_accession = Ok df)
    by (eexists; vm_compute; reflexivity).
  destruct H as (df & H). exists df. split; [exact H|].
  destruct (fields_without_section_are_empty report_with_accession df H)
    as (Hd & Hm & Hc).
  split; [apply Hd; vm_compute; reflexivity|].
  split; [apply Hm; vm_compute; reflexivity|].
  apply Hc. vm_compute. reflexivity.
Defined.

(** ** The dictionary of impressions *)

Lemma dict_mem_In (d : dict) (k : pystr) :
  dict_mem d k = true <-> In k (map fst d).
Proof.
  unfold dict_mem. induction d as [|[k' v'] d IH]; cbn [dict_get map fst In].
  - split; [discriminate | intros []].
  - destruct (pystr_eqb k k') eqn:E.
    + apply pystr_eqb_eq in E. split; [intros _; left; congruence | reflexivity].
    + rewrite IH. split; [intros H; right; exact H|].
      intros [H|H]; [|exact H]. subst k'. rewrite pystr_eqb_refl in E.
      discriminate.
Qed.

Lemma dict_set_keys (d : dict) (k v : pystr) :
  map fst (dict_set d k v)
  = if dict_mem d k then map fst d else map fst d ++ [k].
Proof.
  unfold dict_mem. induction d as [|[k' v'] d IH]; cbn [dict_set dict_get map fst app].
  - reflexivity.
  - destruct (pystr_eqb k k'); cbn [map fst]; [reflexivity|].
    rewrite IH. destruct (dict_get d k); reflexivity.
Qed.

Lemma dict_set_NoDup (d : dict) (k v : pystr) :
  NoDup (map fst d) -> NoDup (map fst (dict_set d k v)).
Proof.
  intros H. rewrite dict_set_keys. destruct (dict_mem d k) eqn:E; [exact H|].
  apply NoDup_app; [exact H | repeat constructor; intros [] |].
  intros x Hx [<-|[]]. apply dict_mem_In in Hx. congruence.
Qed.

Lemma initial_impressions_shape (mapping : dict) :
  NoDup (map fst (initial_impressions mapping))
  /\ forall k, In k (map fst (initial_impressions mapping))
               <-> In k (dict_values mapping).
Proof.
  unfold initial_impressions.
  assert (G : forall l d,
             NoDup (map fst d) ->
             NoDup (map fst (fold_left (fun d s => dict_set d s []) l d))
             /\ forall k,
                  In k (map fst (fold_left (fun d s => dict_set d s []) l d))
                  <-> In k (map fst d) \/ In k l).
  { induction l as [|x l IH]; cbn [fold_left]; intros d Hd.
    - split; [exact Hd|]. intros k. split; [auto | intros [H|[]]; exact H].
    - destruct (IH (dict_set d x []) (dict_set_NoDup d x [] Hd)) as [Hn Hk].
      split; [exact Hn|]. intros k. rewrite Hk, dict_set_keys.
      destruct (dict_mem d x) eqn:E.
      + apply dict_mem_In in E. cbn [In]. split.
        * intros [H|H]; auto.
        * intros [H|[<-|H]]; auto.
      + rewrite in_app_iff. cbn [In]. split.
        * intros [[H|[<-|[]]]|H]; auto.
        * intros [H|[<-|H]]; auto. }
  destruct (G (dict_values mapping) [] (NoDup_nil _)) as [Hn Hk].
  split; [exact Hn|]. intros k. rewrite Hk. cbn [map In].
  split; [intros [[]|H]; exact H | auto].
Qed.

Lemma add_impression_keys (mapping : dict) (body : pystr)
  (identifiers : list pystr) (imp imp' : dict) (it : nat * pystr) :
  add_impression mapping body identifiers imp it = Ok imp' ->
  map fst imp' = map fst imp.
Proof.
  destruct it as [idx t]. unfold add_impression.
  destruct (dict_mem mapping (clean_identifier t)); [|congruence].
  intros H. apply bind_Ok in H. destruct H as (target & _ & H).
  apply bind_Ok in H. destruct H as (old & Hold & [= <-]).
  rewrite dict_set_keys. unfold dict_getitem in Hold. unfold dict_mem.
  destruct (dict_get imp target); [reflexivity | discriminate].
Qed.

(** X15: extract_clinical_impression never raises, and the dictionary it
    returns has exactly one entry for each specimen letter of its mapping:
    the keys are distinct, each is one capital letter, and every value is
    stripped of the whitespace at both ends. *)
Theorem impressions_dictionary :
  forall text,
    exists d,
      extract_clinical_impression text = Ok d
      /\ NoDup (map fst d)
      /\ (forall k, In k (map fst d)
                    <-> In k (dict_values (specimen_mapping text)))
      /\ Forall
           (fun kv =>
              (exists c, is_upper c = true /\ fst kv = [c])
              /\ no_lead (snd kv) /\ no_trail (snd kv))
           d.
Proof.
  intros text. destruct (extract_clinical_impression_total text) as (d & Hd).
  exists d. split; [exact Hd|].
  pose proof (initial_impressions_shape (specimen_mapping text)) as [Hn Hk].
  assert (Hkeys : map fst d = map fst (initial_impressions (specimen_mapping text))).
  { unfold extract_clinical_impression in Hd. apply bind_Ok in Hd.
    destruct Hd as (imp & H & [= <-]). rewrite map_map. cbn [fst].
    destruct (clinical_impression_text text) as [body|];
      [|injection H as <-; reflexivity].
    destruct (impression_identifiers body) as [|t ts].
    - injection H as <-. rewrite !map_map. reflexivity.
    - eapply (for_each_invariant
                (fun x : dict =>
                   map fst x
                   = map fst (initial_impressions (specimen_mapping text))));
        [|exact H|reflexivity].
      intros s it s' _ Hadd Hs. rewrite <- Hs.
      eapply add_impression_keys. exact Hadd. }
  rewrite Hkeys. split; [exact Hn|]. split; [exact Hk|].
  apply Forall_forall. intros [k v] Hin. cbn [fst snd]. split.
  - eapply impression_keys; [exact Hd | exact Hin].
  - unfold extract_clinical_impression in Hd. apply bind_Ok in Hd.
    destruct Hd as (imp & _ & [= <-]). apply in_map_iff in Hin.
    destruct Hin as ([k0 v0] & [= _ <-] & _).
    split; [apply strip_no_lead | apply strip_no_trail].
Qed.

(** ** The clinical impression of the rows *)

Lemma last_cons {A} (x d : A) (l : list A) : last (x :: l) d = last l x.
Proof.
  revert x d. induction l as [|y l IH]; intros x d; [reflexivity|].
  change (last (x :: y :: l) d) with (last (y :: l) d).
  rewrite (IH y d), (IH y x). reflexivity.
Qed.

Lemma put_impression_last (l : list (pystr * pystr)) :
  (forall k v, In (k, v) l ->
     re_match NOFLAGS valid_identifier_pattern k = None) ->
  forall df df' v0,
    for_each l put_impression df = Ok df' ->
    Forall (fun r => clinical_impression r = v0) (rows df) ->
    Forall (fun r => clinical_impression r = last (map snd l) v0) (rows df').
Proof.
  induction l as [|[k v] l IH]; intros Hl df df' v0 H H0.
  - injection H as <-. exact H0.
  - cbn [for_each] in H. apply bind_Ok in H. destruct H as (df1 & H1 & H).
    unfold put_impression in H1. rewrite (Hl k v (or_introl eq_refl)) in H1.
    injection H1 as <-. cbn [map snd]. rewrite last_cons.
    eapply IH; [|exact H|].
    + intros k' v' Hin. apply (Hl k' v'). right. exact Hin.
    + cbn [setitem rows]. apply Forall_map, Forall_forall. reflexivity.
Qed.

(** X16: in a frame that comes back every row has the same clinical
    impression, the first line of the last value of the dictionary that
    extract_clinical_impression returns (the empty string when the
    dictionary is empty): the impressions of the other specimens are
    overwritten. *)
Theorem every_row_gets_the_last_impression :
  forall text df,
    extract_specimen_details text = Ok df ->
    exists d,
      extract_clinical_impression text = Ok d
      /\ Forall
           (fun r =>
              clinical_impression r
              = remove_text_after_newline (last (map snd d) []))
           (rows df).
Proof.
  intros text df Hrun. apply extract_specimen_details_stages in Hrun.
  destruct Hrun as (records & df2 & df3 & imp & df4 & _ & H2 & H3 & Hi & H4 & ->).
  exists imp. split; [exact Hi|].
  assert (H : Forall (fun r => clinical_impression r = last (map snd imp) [])
                (rows df4)).
  { eapply put_impression_last; [|exact H4|].
    - intros k v Hin. destruct (impression_keys text imp k v Hi Hin) as (c & _ & ->).
      apply valid_identifier_rejects_one_character.
    - eapply add_microscopic_Forall; [|exact H3|]; [intros v r Hr; exact Hr|].
      eapply add_diagnosis_Forall; [|exact H2|]; [intros v r Hr; exact Hr|].
      apply initial_frame_no_impression. }
  rewrite clean_newlines_rows. apply Forall_map.
  eapply Forall_impl; [|exact H]. intros r Hr. cbn. rewrite Hr. reflexivity.
Qed.

Lemma every_row_gets_the_last_impression_witness :
  exists df d,
    extract_specimen_details report_two_impressions = Ok df
    /\ extract_clinical_impression report_two_impressions = Ok d
    /\ length d = 2
    /\ Forall
         (fun r =>
            clinical_impression r
            = remove_text_after_newline (last (map snd d) []))
         (rows df).
Proof.
  assert (H : exists df, extract_specimen_details report_two_impressions = Ok df)
    by (eexists; vm_compute; reflexivity).
  destruct H as (df & H).
  destruct (every_row_gets_the_last_impression report_two_impressions df H)
    as (d & Hd & Hrows).
  exists df, d. split; [exact H|]. split; [exact Hd|]. split; [|exact Hrows].
  assert (E : exists d', extract_clinical_impression report_two_impressions = Ok d'
                         /\ length d' = 2)
    by (eexists; split; vm_compute; reflexivity).
  destruct E as (d' & Hd' & Hlen). rewrite Hd' in Hd. injection Hd as <-.
  exact Hlen.
Defined.

(** ** What the keys of the mapping resolve to *)

Lemma str_of_nat_inj (a b : nat) : str_of_nat a = str_of_nat b -> a = b.
Proof.
  unfold str_of_nat, py. intros H.
  apply (f_equal string_of_list_ascii) in H.
  rewrite !string_of_list_ascii_of_string in H.
  apply (f_equal NilZero.uint_of_string) in H.
  assert (Hn : forall n, Nat.to_uint n <> Decimal.Nil).
  { intros n. rewrite <- (DecimalNat.Unsigned.of_to n) at 1.
    rewrite DecimalNat.Unsigned.to_of. apply DecimalFacts.unorm_nonnil. }
  rewrite !NilZero.usu in H by apply Hn.
  injection H as H. apply DecimalNat.Unsigned.to_uint_inj. exact H.
Qed.

Lemma letter_is_no_number (c : ascii) (n : nat) :
  is_upper c = true -> pystr_eqb (str_of_nat n) [c] = false.
Proof.
  intros Hc. destruct (pystr_eqb (str_of_nat n) [c]) eqn:E; [|reflexivity].
  apply pystr_eqb_eq in E. pose proof (str_of_nat_digits n) as Hd.
  rewrite E in Hd. inversion Hd as [|? ? Hx _]; subst. revert Hc Hx.
  by_cases_on_char c.
Qed.

Lemma pystr_eqb_sym (a b : pystr) : pystr_eqb a b = pystr_eqb b a.
Proof.
  destruct (pystr_eqb a b) eqn:E, (pystr_eqb b a) eqn:E'; try reflexivity.
  - apply pystr_eqb_eq in E. subst. rewrite pystr_eqb_refl in E'. discriminate.
  - apply pystr_eqb_eq in E'. subst. rewrite pystr_eqb_refl in E. discriminate.
Qed.

Lemma str_of_nat_eqb (a b : nat) :
  pystr_eqb (str_of_nat a) (str_of_nat b) = (a =? b).
Proof.
  destruct (a =? b) eqn:E.
  - apply Nat.eqb_eq in E. subst. apply pystr_eqb_refl.
  - destruct (pystr_eqb _ _) eqn:E'; [|reflexivity].
    apply pystr_eqb_eq, str_of_nat_inj in E'. apply Nat.eqb_neq in E.
    contradiction.
Qed.

(** The loop of lines 118-122, over the letters. *)
Lemma mapping_loop (letters : list pystr) :
  Forall (fun l => exists c, is_upper c = true /\ l = [c]) letters ->
  forall start d,
    let d' :=
      fold_left
        (fun mapping '(idx, l) =>
           dict_set (dict_set mapping (str_of_nat idx) l) l l)
        (enumerate start letters) d in
    (forall j,
        dict_get d' (str_of_nat j)
        = if start <=? j
          then match nth_error letters (j - start) with
               | Some l => Some l
               | None => dict_get d (str_of_nat j)
               end
          else dict_get d (str_of_nat j))
    /\ (forall c,
           is_upper c = true ->
           dict_get d' [c]
           = if existsb (pystr_eqb [c]) letters then Some [c]
             else dict_get d [c]).
Proof.
  induction 1 as [|l letters (c0 & Hc0 & ->) _ IH]; intros start d;
    cbn [enumerate fold_left].
  - cbv zeta. split.
    + intros j. destruct (start <=? j); [|reflexivity].
      destruct (j - start); reflexivity.
    + intros c _. reflexivity.
  - specialize (IH (S start)
                  (dict_set (dict_set d (str_of_nat start) [c0]) [c0] [c0])).
    cbv zeta in IH |- *. destruct IH as [IHn IHl]. split.
    + intros j. rewrite IHn, !dict_get_set, letter_is_no_number by exact Hc0.
      rewrite str_of_nat_eqb.
      destruct (Nat.eqb_spec j start) as [->|Hne].
      * rewrite Nat.leb_refl, Nat.sub_diag.
        replace (S start <=? start) with false
          by (symmetry; apply Nat.leb_gt; lia).
        reflexivity.
      * destruct (start <=? j) eqn:E.
        -- apply Nat.leb_le in E.
           replace (S start <=? j) with true
             by (symmetry; apply Nat.leb_le; lia).
           replace (j - start) with (S (j - S start)) by lia.
           reflexivity.
        -- apply Nat.leb_gt in E.
           replace (S start <=? j) with false
             by (symmetry; apply Nat.leb_gt; lia).
           reflexivity.
    + intros c Hc. rewrite IHl, !dict_get_set by exact Hc.
      cbn [existsb].
      rewrite (pystr_eqb_sym [c] (str_of_nat start)),
        letter_is_no_number by exact Hc.
      destruct (pystr_eqb [c] [c0]) eqn:E; cbn [orb].
      * apply pystr_eqb_eq in E. rewrite <- E.
        destruct (existsb (pystr_eqb [c]) letters); reflexivity.
      * reflexivity.
Qed.

Lemma mapping_as_loop (text : pystr) :
  specimen_mapping text
  = fold_left
      (fun mapping '(idx, l) =>
         dict_set (dict_set mapping (str_of_nat idx) l) l l)
      (enumerate 1 (mapping_letters text)) [].
Proof.
  unfold specimen_mapping, mapping_letters.
  destruct (re_search IGNORECASE_DOTALL re_submitted_until_diagnosis text) as [m|];
    [|reflexivity].
  assert (G : forall (es : list mstate) start (d : dict),
             fold_left
               (fun mapping '(idx, e) =>
                  let identifier := strip (group 1 e) in
                  dict_set (dict_set mapping (str_of_nat idx) identifier)
                    identifier identifier)
               (enumerate start es) d
             = fold_left
                 (fun mapping '(idx, l) =>
                    dict_set (dict_set mapping (str_of_nat idx) l) l l)
                 (enumerate start (map (fun e => strip (group 1 e)) es)) d).
  { induction es as [|e es IH]; intros start d; [reflexivity|].
    cbn [map enumerate fold_left]. apply IH. }
  apply G.
Qed.

Lemma mapping_letters_capital (text : pystr) :
  Forall (fun l => exists c, is_upper c = true /\ l = [c]) (mapping_letters text).
Proof.
  unfold mapping_letters.
  destruct (re_search IGNORECASE_DOTALL re_submitted_until_diagnosis text) as [m|];
    [|constructor].
  apply Forall_map, Forall_forall. intros e He. apply findall_sound in He.
  destruct He as (pre & post & _ & He). apply mapping_entry_letter in He.
  destruct He as (c & -> & Hc). exists c. split; [exact Hc|].
  apply strip_single, upper_not_space, Hc.
Qed.

(** X17: in the mapping of extract_clinical_impression the number n
    resolves to the letter of the n-th entry found in the SPECIMEN
    SUBMITTED section, counting from 1, and to nothing when there is no such
    entry; and every letter found there resolves to itself. *)
Theorem mapping_resolves_numbers_and_letters :
  forall text,
    (forall i,
        dict_get (specimen_mapping text) (str_of_nat (S i))
        = nth_error (mapping_letters text) i)
    /\ dict_get (specimen_mapping text) (str_of_nat 0) = None
    /\ (forall l,
           In l (mapping_letters text) ->
           dict_get (specimen_mapping text) l = Some l).
Proof.
  intros text. rewrite mapping_as_loop.
  destruct (mapping_loop (mapping_letters text) (mapping_letters_capital text) 1 [])
    as [Hn Hl].
  cbv zeta in Hn, Hl. split; [|split].
  - intros i. rewrite Hn. cbn [Nat.leb Nat.sub]. rewrite Nat.sub_0_r.
    destruct (nth_error (mapping_letters text) i); reflexivity.
  - rewrite Hn. reflexivity.
  - intros l Hin. pose proof (mapping_letters_capital text) as Hcap.
    rewrite Forall_forall in Hcap. destruct (Hcap l Hin) as (c & Hc & ->).
    rewrite (Hl c Hc).
    replace (existsb (pystr_eqb [c]) (mapping_letters text)) with true;
      [reflexivity|].
    symmetry. apply existsb_exists. exists [c]. split; [exact Hin|].
    apply pystr_eqb_refl.
Qed.

Lemma mapping_resolves_numbers_and_letters_witness :
  dict_get (specimen_mapping report_two_specimens_on_a_line) (str_of_nat 2)
  = Some (py "A")
  /\ dict_get (specimen_mapping report_two_specimens_on_a_line) (py "B")
     = Some (py "B").
Proof.
  destruct (mapping_resolves_numbers_and_letters report_two_specimens_on_a_line)
    as (Hn & _ & Hl).
  split.
  - rewrite (Hn 1). vm_compute. reflexivity.
  - apply Hl. vm_compute. left. reflexivity.
Defined.

(** ** Where a diagnosis is read *)

(** X18: a diagnosis is read only from text that follows a line break,
    optional whitespace and two hyphens: every diagnosis span is the
    stripped, non-empty text found there, and some text of at least two
    characters comes before the line break. *)
Theorem diagnosis_follows_a_dash_line :
  forall text tag diagnosis_text,
    In (tag, diagnosis_text) (diagnosis_spans text) ->
    exists pre ws ws' found post,
      text = pre ++ nl :: ws ++ py "--" ++ ws' ++ found ++ post
      /\ 2 <= length pre
      /\ Forall (fun c => is_space c = true) ws
      /\ Forall (fun c => is_space c = true) ws'
      /\ found <> []
      /\ diagnosis_text = strip found.
Proof.
  intros text tag d Hin. unfold diagnosis_spans in Hin.
  apply in_map_iff in Hin. destruct Hin as (m & [= _ <-] & Hin).
  apply findall_sound in Hin. destruct Hin as (pre & post & -> & Hm).
  rewrite app_nil_r in Hm. apply match_here_sound in Hm.
  unfold re_diagnosis, ROpt, RPlusLazy, lit, blank_line in Hm.
  cbn [py list_ascii_of_string lit_chars] in Hm. inv_matches.
  all: repeat match goal with
         | H : cset_mem IGNORECASE_DOTALL (CChar ?a) ?x = true |- _ =>
             assert (x = a) by (revert H; clear; by_cases_on_char x);
             subst x; clear H
         end.
  all: match goal with
       | |- exists _ _ _ _ _,
             ?P ++ ?c :: ?p :: ?w1 ++ ?x :: ?w2 ++ nl :: ?w0
                ++ "-"%char :: "-"%char :: ?w ++ ?y :: ?w3 ++ ?R = _ /\ _ =>
           exists (P ++ c :: p :: w1 ++ x :: w2), w0, w, (y :: w3), R
       | |- exists _ _ _ _ _,
             ?P ++ ?c :: ?w1 ++ ?x :: ?w2 ++ nl :: ?w0
                ++ "-"%char :: "-"%char :: ?w ++ ?y :: ?w3 ++ ?R = _ /\ _ =>
           exists (P ++ c :: w1 ++ x :: w2), w0, w, (y :: w3), R
       end.
  all: split;
    [cbn [py list_ascii_of_string app];
     repeat (rewrite <- app_assoc; cbn [app]); reflexivity|].
  all: split;
    [rewrite !length_app; cbn [length]; rewrite ?length_app; cbn [length]; lia|].
  all: split; [assumption|].
  all: split; [assumption|].
  all: split; [discriminate|].
  all: unfold group; cbn [caps]; simpl get_cap; f_equal.
  all: match goal with
       | |- consumed (MState _ (?y :: ?w3 ++ _) _) _ = _ =>
           apply (consumed_app (y :: w3))
       end.
Qed.

Lemma diagnosis_follows_a_dash_line_witness :
  exists pre ws ws' found post,
    report_diagnosis_only = pre ++ nl :: ws ++ py "--" ++ ws' ++ found ++ post
    /\ 2 <= length pre
    /\ Forall (fun c => is_space c = true) ws
    /\ Forall (fun c => is_space c = true) ws'
    /\ found <> []
    /\ py "bcc" = strip found.
Proof.
  apply (diagnosis_follows_a_dash_line report_diagnosis_only
           (widen (py "A")) (py "bcc")).
  vm_compute. left. reflexivity.
Defined.

(** ** The tokens of the clinical impression *)

Lemma letter_class_ignoring_case (c : ascii) :
  cset_mem IGNORECASE AZ c = is_letter c.
Proof. by_cases_on_char c. Qed.

Lemma impression_token_shape (b r : pystr) (m : mstate) :
  match_here IGNORECASE re_impression_token b r = Some m ->
  (exists c p,
      is_letter c = true /\ (p = ")"%char \/ p = ":"%char)
      /\ group 1 m = [c; p])
  \/ (exists d ds,
         Forall (fun x => is_digit x = true) (d :: ds)
         /\ group 1 m = "#"%char :: d :: ds ++ ["-"%char])
  \/ (exists w c,
         is_letter c = true /\ map lower w = py "lesion "
         /\ group 1 m = w ++ [c]).
Proof.
  intros H. apply match_here_sound in H.
  unfold re_impression_token, RPlus, lit in H.
  cbn [py list_ascii_of_string lit_chars] in H. inv_matches.
  all: unfold group; cbn [caps]; simpl get_cap.
  all: repeat match goal with
         | H : cset_mem IGNORECASE AZ _ = true |- _ =>
             rewrite letter_class_ignoring_case in H
         end.
  1-3: repeat match goal with
         | H : cset_mem IGNORECASE (CChar ?a) ?x = true |- _ =>
             assert (x = a) by (revert H; clear; by_cases_on_char x);
             subst x; clear H
         end.
  - left. do 2 eexists. split; [eassumption|].
    split; [left; reflexivity | apply consumed_app with (xs := [_; _])].
  - left. do 2 eexists. split; [eassumption|].
    split; [right; reflexivity | apply consumed_app with (xs := [_; _])].
  - right. left. exists c, ws. split; [constructor; assumption|].
    replace (ws ++ "-"%char :: r1) with ((ws ++ ["-"%char]) ++ r1)
      by (rewrite <- app_assoc; reflexivity).
    apply (consumed_app ("#"%char :: c :: ws ++ ["-"%char])).
  - right. right. exists [c5; c4; c3; c2; c1; c0; c], c6.
    split; [assumption|]. split; [|apply (consumed_app [c5; c4; c3; c2; c1; c0; c; c6])].
    cbn [map].
    repeat match goal with
           | H : cset_mem IGNORECASE (CChar _) ?x = true |- _ =>
               cbn in H; apply Ascii.eqb_eq in H; rewrite H; clear H
           end.
    reflexivity.
Qed.

Lemma letter_cases (c : ascii) : is_letter c = true -> In c letters.
Proof.
  destruct c as [[] [] [] [] [] [] [] []]; vm_compute; intros H;
    try discriminate H; repeat (first [left; reflexivity | right]).
Qed.

Lemma clean_letter_token (c p : ascii) :
  is_letter c = true -> p = ")"%char \/ p = ":"%char ->
  clean_identifier [c; p] = [c].
Proof. intros Hc [->| ->]; revert Hc; by_cases_on_char c. Qed.

Lemma replace_absent (a : ascii) (old new s : pystr) :
  Forall (fun c => c <> a) s -> replace_from (a :: old) new 0 s = s.
Proof.
  induction 1 as [|c s Hc _ IH]; cbn [replace_from prefixb]; [reflexivity|].
  replace (Ascii.eqb a c) with false
    by (symmetry; apply Ascii.eqb_neq; congruence).
  cbn [andb]. rewrite IH. reflexivity.
Qed.

Lemma clean_number_token (ds : pystr) :
  Forall (fun x => is_digit x = true) ds ->
  clean_identifier ("#"%char :: ds ++ ["-"%char]) = ds.
Proof.
  intros Hd. unfold clean_identifier, re_sub_delete.
  assert (E : filter (fun c => negb (cset_mem NOFLAGS token_decoration c))
                ("#"%char :: ds ++ ["-"%char]) = ds).
  { change (filter (fun c => negb (cset_mem NOFLAGS token_decoration c))
              ("#"%char :: ds ++ ["-"%char]))
      with (filter (fun c => negb (cset_mem NOFLAGS token_decoration c))
              (ds ++ ["-"%char])).
    rewrite filter_app. cbn [filter]. 
    change (negb (cset_mem NOFLAGS token_decoration "-")) with false.
    cbv iota. rewrite app_nil_r.
    induction Hd as [|x l Hx _ IH]; cbn [filter]; [reflexivity|].
    replace (negb (cset_mem NOFLAGS token_decoration x)) with true
      by (revert Hx; clear; by_cases_on_char x).
    rewrite IH. reflexivity. }
  rewrite E. unfold replace, py. cbn [list_ascii_of_string].
  rewrite replace_absent.
  - apply strip_without_whitespace. eapply Forall_impl; [|exact Hd].
    intros x. clear. by_cases_on_char x.
  - eapply Forall_impl; [|exact Hd]. intros x. clear. by_cases_on_char x.
Qed.

Lemma lower_cases (x y : ascii) :
  In y (py "lesion ") -> lower x = y -> x = y \/ x = upper y.
Proof.
  intros Hy. cbn in Hy.
  repeat (destruct Hy as [<-|Hy]; [clear; by_cases_on_char x|]).
  contradiction.
Qed.

Lemma clean_lesion_token (w : pystr) (c : ascii) :
  is_letter c = true -> map lower w = py "lesion " ->
  clean_identifier (w ++ [c])
  = if pystr_eqb w (py "Lesion ") then [c] else w ++ [c].
Proof.
  intros Hc Hw. apply letter_cases in Hc.
  do 7 (destruct w as [|? w]; [discriminate|]).
  destruct w; [|discriminate].
  cbn [map py list_ascii_of_string] in Hw.
  injection Hw as H1 H2 H3 H4 H5 H6 H7.
  apply lower_cases in H1, H2, H3, H4, H5, H6, H7;
    try (cbn; tauto).
  destruct H1 as [-> | ->], H2 as [-> | ->], H3 as [-> | ->], H4 as [-> | ->],
    H5 as [-> | ->], H6 as [-> | ->], H7 as [-> | ->].
  all: cbn in Hc; repeat (destruct Hc as [<-|Hc]; [vm_compute; reflexivity|]).
  all: contradiction.
Qed.

(** X19: what lines 163-165 make of the tokens that line 138 finds.  A
    letter followed by ")" or ":" and the word "Lesion" followed by a letter
    are reduced to the letter, and "#", digits, "-" to the digits; but the
    token is found whatever its case, while "Lesion " is removed in this
    spelling only, so that "LESION A" or "lesion A" stay whole and are no
    key of the mapping. *)
Theorem tokens_and_what_they_name :
  forall body t,
    In t (impression_identifiers body) ->
    (exists c,
        is_letter c = true
        /\ (t = [c; ")"%char] \/ t = [c; ":"%char] \/ t = py "Lesion " ++ [c])
        /\ clean_identifier t = [c])
    \/ (exists ds,
           ds <> [] /\ Forall (fun x => is_digit x = true) ds
           /\ t = "#"%char :: ds ++ ["-"%char]
           /\ clean_identifier t = ds)
    \/ (exists w c,
           is_letter c = true /\ map lower w = py "lesion "
           /\ w <> py "Lesion "
           /\ t = w ++ [c]
           /\ clean_identifier t = t
           /\ forall text, dict_get (specimen_mapping text) t = None).
Proof.
  intros body t Hin. unfold impression_identifiers in Hin.
  apply in_map_iff in Hin. destruct Hin as (m & <- & Hin).
  apply findall_sound in Hin. destruct Hin as (pre & post & _ & Hm).
  apply impression_token_shape in Hm.
  destruct Hm as [(c & p & Hc & Hp & ->)|[(d & ds & Hd & ->)|(w & c & Hc & Hw & ->)]].
  - left. exists c. split; [exact Hc|]. split.
    + destruct Hp as [->| ->]; auto.
    + apply clean_letter_token; assumption.
  - right. left. exists (d :: ds). split; [discriminate|]. split; [exact Hd|].
    split; [reflexivity|]. apply (clean_number_token (d :: ds)). exact Hd.
  - pose proof (clean_lesion_token w c Hc Hw) as E.
    destruct (pystr_eqb w (py "Lesion ")) eqn:Ew.
    + apply pystr_eqb_eq in Ew. subst w. left. exists c.
      split; [exact Hc|]. split; [auto | exact E].
    + right. right. exists w, c. split; [exact Hc|]. split; [exact Hw|].
      split; [intros ->; rewrite pystr_eqb_refl in Ew; discriminate|].
      split; [reflexivity|]. split; [exact E|].
      intros text.
      destruct (dict_get (specimen_mapping text) (w ++ [c])) as [v|] eqn:Ev;
        [|reflexivity].
      exfalso. apply dict_get_In, specimen_mapping_entries in Ev.
      destruct Ev as ((c0 & _ & ->) & [Ek|[_ Hd]]).
      * destruct w as [|x [|y w]]; discriminate.
      * apply Forall_app in Hd. destruct Hd as [_ Hd].
        inversion Hd as [|? ? Hx _]; subst. revert Hc Hx. clear.
        by_cases_on_char c.
Qed.

Lemma tokens_and_what_they_name_witness :
  impression_identifiers (py "LESION A benign") = [py "LESION A"]
  /\ clean_identifier (py "LESION A") = py "LESION A".
Proof.
  split; [vm_compute; reflexivity|].
  destruct (tokens_and_what_they_name (py "LESION A benign") (py "LESION A"))
    as [(c & _ & [H|[H|H]] & _)
       |[(ds & _ & _ & H & _)|(w & c & _ & _ & _ & _ & H & _)]].
  - vm_compute. left. reflexivity.
  - discriminate H.
  - discriminate H.
  - discriminate H.
  - discriminate H.
  - exact H.
Defined.

(** ** Several spans for one specimen *)




(** ** A plain list of specimens and a clinical impression without token *)

(** C4: in a report whose specimens are listed without letters the clinical
    impression has no token, yet it reaches no specimen.  Line 41 finds the
    specimen A, but the second reading of the section at lines 110-116 looks
    for capital letters and finds none, so the dictionary of impressions is
    empty, the loop of lines 173-174 has nothing to assign to, and the row
    keeps the empty string; the microscopic description of the same shape
    is given to the row by lines 225-229. *)
Theorem C4_plain_list_gets_no_impression :
  specimen_records report_plain_list_with_impression
  = Ok [record None (widen (py "A")) (py "skin biopsy")]
  /\ clinical_impression_text report_plain_list_with_impression
     = Some (py "Benign nevus.")
  /\ impression_identifiers (py "Benign nevus.") = []
  /\ specimen_mapping report_plain_list_with_impression = []
  /\ extract_clinical_impression report_plain_list_with_impression = Ok []
  /\ (exists df,
         extract_specimen_details report_plain_list_with_impression = Ok df
         /\ map specimen_identifier (rows df) = [widen (py "A")]
         /\ map clinical_impression (rows df) = [[]]
         /\ @nil ascii <> py "Benign nevus.")
  /\ (exists df,
         extract_specimen_details report_plain_list_with_microscopic = Ok df
         /\ map specimen_identifier (rows df) = [widen (py "A")]
         /\ map microscopic_description (rows df) = [py "Benign nevus."]).
Proof.
  split; [vm_compute; reflexivity|].
  split; [vm_compute; reflexivity|].
  split; [vm_compute; reflexivity|].
  split; [vm_compute; reflexivity|].
  split; [vm_compute; reflexivity|].
  split.
  - eexists. split; [vm_compute; reflexivity|].
    split; [vm_compute; reflexivity|].
    split; [vm_compute; reflexivity | discriminate].
  - eexists. split; [vm_compute; reflexivity|].
    split; vm_compute; reflexivity.
Qed.

(** ** A spelling that occurs twice *)

Lemma joined_impressions_witness :
  impression_slices (specimen_mapping report_same_token_twice)
    (py "A) x A) y")
  = [(Some (py "A"), []); (Some (py "A"), py "x A) y")]
  /\ py "x A) y"
     = strip (joined_texts
                (impression_slices (specimen_mapping report_same_token_twice)
                   (py "A) x A) y"))
                (py "A")).
Proof.
  split; [vm_compute; reflexivity|].
  apply (joined_impressions report_same_token_twice (py "A) x A) y")
           [(py "A", py "x A) y")]).
  - vm_compute. reflexivity.
  - vm_compute. discriminate.
  - vm_compute. reflexivity.
  - vm_compute. reflexivity.
Defined.
